(* ===== verification/_CoqProject ===== *)
-Q . S2P
Prelude.v
PyStr.v
Winreg.v
CleanReg.v
CleanRegMain.v
Refinement.v
MergedView.v
IntegrityCheck.v
DebugCdp.v
