(* ===== verification/Prelude.v ===== *)
(** * A verification development of the antigravity operator scripts

    The repository holds three independent Python scripts; no data flows
    between them and none keeps state beyond one run.

    - [src/scripts/clean_reg.py] (the core of this development): scans six
      Windows registry subtrees for immediate subkeys whose name or default
      value contains ["Antigravity"] (case-insensitively), and deletes
      every match recursively ([search_keys], [delete_key], and the
      top-level loop over [targets]).
    - [src/scripts/integrity_check.py]: walks a directory tree, runs
      [node --check] on every [.js] file and warns about [FIXME] markers.
    - [src/archive/debug_cdp.py]: fetches the DevTools target list of a
      local browser and classifies it (workbench page, other page, none).

    ** Files, in dependency order

    - [Prelude.v] (this file): the [py_scope] notations, the [result] type
      of fallible calls, the development's tactics and its hint database
      [pyrt], and generic lemmas on the list helpers [update_first] and
      [remove_first] that the tree models share.
    - [PyStr.v]: the Python string operations the scripts use:
      [str.lower] ([py_lower], ASCII case folding), the substring test
      [needle in hay] ([py_in]), [str.endswith], and the backslash path
      syntax of the registry ([split_path], [join_path]) with the segments
      of a joined path.
    - [Winreg.v]: the part of the [winreg] module the script calls, as an
      interface ([Class Winreg]: [OpenKey], [EnumKey], [QueryValueEx],
      [DeleteKey]) and one implementation of it over an in-memory registry
      ([regstore]: one key tree per hive; a key has a name, an access
      control level, named values and an ordered list of subkeys).  Names
      compare case-insensitively, as in the registry.  [Class EnumLaws]
      states the contract of [EnumKey] the scan relies on (the [i]-th
      name of a list, an exception past its end), which the in-memory
      registry discharges.  [deletes_below] says what a successful
      [DeleteKey] may change: keys at or below the deleted path, and
      nothing apart from it.  This is the external system of the script,
      modelled after the Win32 documentation, not code of the
      repository.
    - [CleanReg.v]: the functions of [clean_reg.py] written against the
      [Winreg] interface: [search_keys] (the enumeration loop is
      [search_loop]) and [delete_key] (the [while True] loop over
      [EnumKey(key, 0)] is the mutually recursive [delete_subkeys]);
      printed lines are [event]s appended to a log.
    - [CleanRegMain.v]: the module-level code of [clean_reg.py]:
      [targets], [delete_matches] (the inner [for] loop), [scan_targets]
      (the outer loop) and [main], with the specification of one
      iteration ([purge_target]) and the theorems about the whole run.
    - [Refinement.v]: the script's run on any implementation of the
      interface that simulates the in-memory registry (through an
      abstraction of its states and handles) prints the same lines and
      reaches the abstraction of the same state on the targets it scans,
      so the theorems about [tree_winreg] carry over.  The simulation is
      stated on a set of hives ([dom]), so an implementation that agrees
      with the in-memory registry on some hives only ([merged_winreg]) is
      covered on targets in them.
    - [MergedView.v]: the registry as Windows stores it ([hives]: only
      [HKEY_CURRENT_USER] and [HKEY_LOCAL_MACHINE]), with
      [HKEY_CLASSES_ROOT] as the merged view of their [Classes] keys
      ([merged_winreg]): a key is the per-user class key when there is
      one and the machine's otherwise, the subkeys are the per-user ones
      followed by the machine's the user does not have, and [DeleteKey]
      deletes the per-user key when there is one.  On the two stored
      hives it simulates the in-memory registry, so [Refinement.v] carries
      the theorems on the first four targets over to it.
    - [IntegrityCheck.v]: [integrity_check.py] over a directory tree
      ([entry]): [os.walk] as [walk], parameterised by the loop body and
      sharing with it the [dirs] list the body may shrink (the
      [node_modules] prune), [collect_js] (lines 28-33), [run_check],
      [check_all] (the [success] flag), [fixme_scan] and [main] with its
      exit status ([outcome]: [Exit 0], [Exit 1], or [Crash] for an
      uncaught exception).  The shell and the file reads are [Section]
      variables [sh] and [read_text], so the theorems hold for every
      behaviour of [node] and of the file system.
    - [DebugCdp.v]: [debug_cdp.py] from the decoded JSON on: JSON values
      ([json]), the Python operations the analysis applies to them with
      the exceptions they raise ([py_get], [py_contains], [py_iter],
      [py_next]), [analyse] (the two [next] searches and the three-way
      report), [check] (one port, its [try]/[except]) and [run] (the two
      ports).  The HTTP request and [json.loads] enter as their outcome
      ([fetched]).

    ** Fuel

    The loops of the script are [while True] loops that stop on an
    exception of the registry, so their models take a [fuel] argument and
    return [None] when it runs out.  Every termination theorem states the
    fuel that suffices: [search_loop] needs one unit more than the number
    of subkeys left, [delete_key] needs twice the number of keys of the
    subtree it deletes.  The divergence theorem for [delete_key] is stated
    for every fuel, and so are the theorems on what any run removes and
    on an undeletable match: they hold for every run that returns.
    [os.walk] is structurally recursive on the tree in Python; its model
    [walk] takes fuel so that the loop body can choose the
    subdirectories, and fuel at least the depth of the tree suffices.

    ** What the theorems show (see PROJECT.json for the list)

    - [search_keys] returns exactly the matches of an abstract
      specification [search_spec] and prints the lines of [search_log]:
      one [KEY_NAME_MATCH] per subkey whose name contains the term, one
      [VALUE_MATCH] per subkey whose default value is a string containing
      it, in subkey order; a missing root yields no match.  The loop is
      proved against [EnumLaws], so its termination and output hold for
      every registry that enumerates subkeys by index: it returns with at
      most two matches per subkey and one [FOUND] line per match, each
      match in the scanned hive at the path of a listed subkey; the search
      term is compared without regard to case on every implementation.
    - [delete_key] on a subtree whose keys all grant full access removes
      exactly that subtree, prints the attempts and successes in
      post-order, and preserves the well-formedness of the store; on a key
      it cannot open it fails without change; and on a key it can open
      whose subtree holds a key it cannot open it never returns (the
      [while True] loop keeps re-enumerating the same undeletable subkey).
    - The whole run of [clean_reg.py] purges its six targets: when every
      matching key grants full access in its subtree and the fuel covers
      twice the size of each target key, [main] returns the store in which
      each readable target key has lost exactly its matching subkeys
      ([purge_target], composed over [targets]), since the targets lie in
      different hives or on paths that part.  One iteration of the loop
      prints the deletion traces and a second, failing attempt for a key
      matched both by name and by value.  Whatever the registry holds and
      whatever the fuel, a run that returns has removed only keys at or
      below a subkey the scan of a target reported (a matching subkey of
      a readable target key), and a matching subkey the user cannot open
      for full access survives the run, which prints [ERROR_ACCESS_DENIED]
      for it.
    - On the registry as Windows stores it, the scan of an
      [HKEY_CLASSES_ROOT] target reports the matches among the subkeys
      the merged view shows, the per-user ones first; the two
      [HKEY_CLASSES_ROOT] targets show the keys of the first four: when
      every match can be
      deleted they find and print nothing, the run is the purge of the
      first four targets, and a second run changes nothing.
    - The testable properties of section 8 of the specification: the
      case-insensitive name and value matches and the missing root (the
      scan theorems); the deletion of leaves before their ancestors, after
      which the key cannot be opened; and the idempotent re-run, proved in
      a stronger form (a second run on the result of a first prints only
      its start and end lines and changes nothing) when every match can
      be deleted.  When a matching key cannot be deleted, the re-run
      reports access denied again, which the specification excludes; when
      a descendant of an openable match cannot be deleted, the first run
      never ends.
    - [integrity_check.py] collects exactly the [.js] files outside
      [node_modules]; its output is the banner, the lines of each syntax
      check, the [FIXME] warnings and the result line; it exits with 0
      exactly when every [node --check]
      succeeds and with 1 otherwise, but crashes when a file is not valid
      UTF-8; it checks every collected file whatever the checks before
      it gave.
    - [debug_cdp.py] reports what an abstract classification of the
      targets ([classify]) says on well-formed target lists, and reports an
      error instead of a found workbench when a later entry is not an
      object.

    ** Not modelled

    The HTTP fetch, JSON decoding and [json.dumps] of [debug_cdp.py]
    (JSON numbers are integers here), the contents of the shell and file
    system behind [sh] and [read_text] (symbolic links, [os.walk] errors,
    and how the shell splits the unquoted [node --check] command), printing as text, Unicode case
    folding (only ASCII letters are folded), the registry redirection
    Windows applies to 32-bit processes, registry access by other
    processes while the script runs, and Python's recursion limit.  Two
    choices of the merged [HKEY_CLASSES_ROOT] view are assumptions, since
    the Win32 documentation does not fix them: the order in which it lists
    the per-user and the machine subkeys, and that [DeleteKey] through it
    deletes the per-user key when one exists.  The proof about the purged
    run over the merged view uses only which names the view lists, not
    their order.  The model of [os.walk] resolves the names the loop body
    leaves in [dirs] among the directory's own child directories, so it
    never descends into [".."] or a name the body invents, as the real
    [os.walk] would; the body of [integrity_check.py] only removes a
    name.  Paths are joined with ["/"] as [os.path.join] does on POSIX. *)

From stdpp Require Export base list relations.
From Stdlib Require Export Lia.

Declare Scope py_scope.
Delimit Scope py_scope with py.
Open Scope py_scope.

(** ** Fallible calls *)

(** The result of a call that may raise an exception of type [E]. *)
Inductive result (E A : Type) : Type :=
| Ok (a : A)
| Err (e : E).
Arguments Ok {E A} a.
Arguments Err {E A} e.

(** Sequencing through [option], the fuel monad of the loop models:
    [None] means that the fuel ran out. *)
Notation "'let?' x ':=' c 'in' k" :=
  (match c with Some x => k | None => None end)
  (at level 10, x pattern, c at level 100, k at level 200) : py_scope.

(** ** Tactics *)

Create HintDb pyrt discriminated.
Create Rewrite HintDb pyrt.

(** Invert a hypothesis and clean up. *)
Ltac invc H := inversion H; subst; clear H.

(** Case on every [match] and [if] in the goal, rewriting with the
    hypotheses that decide them. *)
Ltac py_simpl :=
  repeat (simpl in *; simplify_eq;
          match goal with
          | H : ?x = _ |- context [match ?x with _ => _ end] => rewrite H
          | H : ?x = _ |- context [if ?x then _ else _] => rewrite H
          end).

(** ** First-match list updates *)

(** The tree models locate a child by the first element of a list that
    satisfies a test, as the registry locates a subkey by name. *)
Section FirstMatch.
Context {A : Type} (p : A -> bool).

Fixpoint update_first (f : A -> A) (l : list A) : list A :=
  match l with
  | [] => []
  | x :: l' => if p x then f x :: l' else x :: update_first f l'
  end.

Fixpoint remove_first (l : list A) : list A :=
  match l with
  | [] => []
  | x :: l' => if p x then l' else x :: remove_first l'
  end.

Context (f g : A -> A).
Hypothesis g_keeps : forall x, p (g x) = p x.

Lemma update_first_compose l :
  update_first f (update_first g l) = update_first (fun x => f (g x)) l.
Proof. induction l as [|x l IH]; simpl; [done|]. destruct (p x) eqn:E; simpl; by rewrite ?g_keeps, ?E, ?IH. Qed.

Lemma remove_update_first l : remove_first (update_first g l) = remove_first l.
Proof. induction l as [|x l IH]; simpl; [done|]. destruct (p x) eqn:E; simpl; by rewrite ?g_keeps, ?E, ?IH. Qed.

Lemma find_update_first l : find p (update_first g l) = option_map g (find p l).
Proof. induction l as [|x l IH]; simpl; [done|]. destruct (p x) eqn:E; simpl; by rewrite ?g_keeps, ?E, ?IH. Qed.

Lemma update_first_length l : length (update_first g l) = length l.
Proof. induction l as [|x l IH]; simpl; [done|]. destruct (p x); simpl; by rewrite ?IH. Qed.

Lemma update_first_none l : find p l = None -> update_first g l = l.
Proof. induction l as [|x l IH]; simpl; [done|]. destruct (p x); [done|]. intros H; by rewrite IH. Qed.

Lemma update_first_ext h l : (forall x, g x = h x) -> update_first g l = update_first h l.
Proof. intros Hgh. induction l as [|x l IH]; simpl; [done|]. by rewrite Hgh, IH. Qed.

Lemma remove_first_sublist l : remove_first l `sublist_of` l.
Proof.
  induction l as [|x l IH]; simpl; [done|].
  destruct (p x); [by apply sublist_cons|by apply sublist_skip].
Qed.

Lemma map_update_first {B} (q : A -> B) l :
  (forall x, q (g x) = q x) -> map q (update_first g l) = map q l.
Proof. intros Hq. induction l as [|x l IH]; simpl; [done|]. destruct (p x); simpl; by rewrite ?Hq, ?IH. Qed.

Lemma forallb_update_first (q : A -> bool) l :
  (forall x, q x = true -> q (g x) = true) -> forallb q l = true -> forallb q (update_first g l) = true.
Proof.
  intros Hq. induction l as [|x l IH]; simpl; [done|].
  rewrite andb_true_iff. intros [Hx Hl]. destruct (p x); simpl; rewrite andb_true_iff; auto.
Qed.

Lemma update_first_fixed l x : find p l = Some x -> g x = x -> update_first g l = l.
Proof.
  intros Hf Hx. induction l as [|y l IH]; simpl in *; [done|].
  destruct (p y); [simplify_eq; by rewrite Hx|by rewrite IH].
Qed.

Lemma update_first_id l : (forall x, p x = true -> g x = x) -> update_first g l = l.
Proof. intros Hid. induction l as [|x l IH]; simpl; [done|]. destruct (p x) eqn:E; [by rewrite Hid|by rewrite IH]. Qed.

Lemma update_first_agree l c : find p l = Some c -> f c = g c -> update_first f l = update_first g l.
Proof. induction l as [|x l IH]; simpl; [done|]. destruct (p x); [intros [= ->]; congruence|intros ??; by rewrite IH]. Qed.

(** A search for elements that the updated one does not satisfy is not
    affected by the update. *)
Lemma find_update_first_disjoint (q : A -> bool) l :
  (forall x, p x = true -> q x = false) -> (forall x, q (g x) = q x) ->
  find q (update_first g l) = find q l.
Proof.
  intros Hpq Hq. induction l as [|x l IH]; simpl; [done|].
  destruct (p x) eqn:E; simpl; [by rewrite Hq, (Hpq x E)|by rewrite IH].
Qed.

Lemma remove_first_app l1 l2 : find p l1 = None -> remove_first (l1 ++ l2) = l1 ++ remove_first l2.
Proof. induction l1 as [|x l1 IH]; simpl; [done|]. destruct (p x); [done|]. intros H; by rewrite IH. Qed.
End FirstMatch.

#[export] Hint Rewrite @update_first_compose @remove_update_first @find_update_first
  using (intros; simpl; done) : pyrt.
#[export] Hint Resolve update_first_length remove_first_sublist : pyrt.

Lemma forallb_sublist {A} (q : A -> bool) l1 l2 :
  l1 `sublist_of` l2 -> forallb q l2 = true -> forallb q l1 = true.
Proof.
  induction 1 as [|x l1 l2 _ IH|x l1 l2 _ IH]; simpl; rewrite ?andb_true_iff; naive_solver.
Qed.

Lemma existsb_sublist {A} (q : A -> bool) l1 l2 :
  l1 `sublist_of` l2 -> existsb q l1 = true -> existsb q l2 = true.
Proof.
  induction 1 as [|x l1 l2 _ IH|x l1 l2 _ IH]; simpl; rewrite ?orb_true_iff; naive_solver.
Qed.

Lemma sublist_map {A B} (f : A -> B) l1 l2 :
  l1 `sublist_of` l2 -> map f l1 `sublist_of` map f l2.
Proof. induction 1; simpl; by constructor. Qed.

Lemma find_ext {A} (p q : A -> bool) l : (forall x, p x = q x) -> find p l = find q l.
Proof. intros Hpq. induction l as [|x l IH]; simpl; [done|]. by rewrite Hpq, IH. Qed.

Lemma flat_map_ext_in {A B} (f g : A -> list B) l :
  (forall x, In x l -> f x = g x) -> flat_map f l = flat_map g l.
Proof. intros Hfg. induction l as [|x l IH]; simpl; [done|]. rewrite Hfg by (by left). f_equal. apply IH. intros y Hy. apply Hfg. by right. Qed.

Lemma flat_map_nil_in {A B} (f : A -> list B) l : (forall x, In x l -> f x = []) -> flat_map f l = [].
Proof.
  intros Hf. induction l as [|x l IH]; simpl; [done|].
  rewrite Hf by (by left). apply IH. intros y Hy. apply Hf. by right.
Qed.

Lemma flat_map_map {A B C} (f : B -> list C) (g : A -> B) l :
  flat_map f (map g l) = flat_map (fun x => f (g x)) l.
Proof. induction l as [|x l IH]; simpl; [done|]. by rewrite IH. Qed.

Lemma in_drop {A} (x : A) i l : In x (drop i l) -> In x l.
Proof. revert i. induction l as [|y l IH]; intros [|i]; simpl; try done. intros H. right. by eapply IH. Qed.

(** ** Options and fuel *)

Lemma option_bind_some {A B} (c : option A) (k : A -> option B) b :
  (let? x := c in k x) = Some b -> exists a, c = Some a /\ k a = Some b.
Proof. destruct c; simpl; [eauto|done]. Qed.

(** ** Last element of a list *)

Fixpoint split_last {A} (l : list A) : option (list A * A) :=
  match l with
  | [] => None
  | [x] => Some ([], x)
  | x :: l' => option_map (fun '(ps, n) => (x :: ps, n)) (split_last l')
  end.

Lemma split_last_snoc {A} (l : list A) x : split_last (l ++ [x]) = Some (l, x).
Proof.
  induction l as [|y l IH]; [done|]. simpl. rewrite IH.
  by destruct l.
Qed.

Lemma split_last_some {A} (l : list A) ps n : split_last l = Some (ps, n) -> l = ps ++ [n].
Proof.
  revert ps. induction l as [|y l IH]; intros ps; [done|]. simpl.
  destruct l as [|z l]; [by intros [= <- ->]|].
  destruct (split_last (z :: l)) as [[ps' n']|] eqn:E; simpl; [|done].
  intros [= <- ->]. by rewrite (IH ps').
Qed.

Lemma forallb_false_split {A} (q : A -> bool) l :
  forallb q l = false ->
  exists pre x post, l = pre ++ x :: post /\ forallb q pre = true /\ q x = false.
Proof.
  induction l as [|y l IH]; simpl; [done|].
  destruct (q y) eqn:E; simpl.
  - intros Hl. destruct (IH Hl) as (pre & x & post & -> & Hpre & Hx).
    exists (y :: pre), x, post. simpl. by rewrite E.
  - intros _. by exists [], y, l.
Qed.

Lemma drop_nth_error {A} (l : list A) i x :
  nth_error l i = Some x -> drop i l = x :: drop (S i) l.
Proof.
  revert i. induction l as [|y l IH]; intros [|i]; simpl; try done.
  - by intros [= ->].
  - apply IH.
Qed.

Lemma filter_none {A} (p : A -> bool) l :
  existsb p l = false -> List.filter (fun y => negb (p y)) l = l.
Proof.
  induction l as [|x l IH]; simpl; [done|]. rewrite orb_false_iff. intros [-> Hl]. simpl. by rewrite IH.
Qed.

Lemma filter_sublist {A} (p : A -> bool) l : List.filter p l `sublist_of` l.
Proof.
  induction l as [|x l IH]; simpl; [done|].
  destruct (p x); [by apply sublist_skip|by apply sublist_cons].
Qed.

(** The longest prefix whose elements satisfy [p]. *)
Fixpoint prefix_while {A} (p : A -> bool) (l : list A) : list A :=
  match l with
  | [] => []
  | x :: l' => if p x then x :: prefix_while p l' else []
  end.

(** Sequencing through [result]: an exception propagates. *)
Notation "'let!' x ':=' c 'in' k" :=
  (match c with Ok x => k | Err e => Err e end)
  (at level 10, x pattern, c at level 100, k at level 200) : py_scope.

Definition result_map {E A B} (f : A -> B) (r : result E A) : result E B :=
  match r with Ok a => Ok (f a) | Err e => Err e end.

Lemma result_map_id {E A} (r : result E A) : result_map (fun x => x) r = r.
Proof. by destruct r. Qed.

Lemma result_map_compose {E A B C} (f : A -> B) (g : B -> C) (r : result E A) :
  result_map g (result_map f r) = result_map (fun x => g (f x)) r.
Proof. by destruct r. Qed.
