(* ===== verification/PyStr.v ===== *)
(** * Python string operations used by the scripts

    [str.lower] ([py_lower], folding the ASCII letters), the substring
    test [needle in hay] ([py_in]), [str.endswith] ([py_endswith]),
    [str.split] on a backslash ([py_split]) and the registry path syntax
    built on it ([split_path]), with the f-string
    [f"{key_path}\\{sub_key_name}"] of [clean_reg.py] as [join_path].
    The lemmas are the ones the scan and deletion proofs use: the
    segments of a joined path.
    Strings are Rocq's [string], a list of 8-bit characters. *)

From S2P Require Import Prelude.
From Stdlib Require Import String Ascii.

Open Scope string_scope.

(** ** [str.lower] *)

Definition ascii_lower (c : ascii) : ascii :=
  let n := nat_of_ascii c in
  if (65 <=? n)%nat && (n <=? 90)%nat then ascii_of_nat (n + 32) else c.

Fixpoint py_lower (s : string) : string :=
  match s with
  | EmptyString => EmptyString
  | String c s' => String (ascii_lower c) (py_lower s')
  end.

(** ** [needle in hay] on strings *)

Fixpoint py_prefix (pre s : string) : bool :=
  match pre, s with
  | EmptyString, _ => true
  | String a pre', String b s' => Ascii.eqb a b && py_prefix pre' s'
  | String _ _, EmptyString => false
  end.

(** Python's [in] on two strings: is [needle] a factor of [hay]
    ([""] is a factor of every string). *)
Fixpoint py_in (needle hay : string) : bool :=
  py_prefix needle hay ||
  match hay with
  | EmptyString => false
  | String _ hay' => py_in needle hay'
  end.

(** [s.endswith(suffix)]. *)
Fixpoint py_endswith (s suffix : string) : bool :=
  String.eqb s suffix ||
  match s with
  | EmptyString => false
  | String _ s' => py_endswith s' suffix
  end.

(** ** Backslash-separated paths *)

(** The first segment of a string split at a separator character, and
    the segments after it; [split_on sep s] is [s.split(sep)], never
    empty. *)
Section Split.
Variable sep : ascii.

Fixpoint split_at (s : string) : string * list string :=
  match s with
  | EmptyString => (EmptyString, [])
  | String c s' =>
      let (h, t) := split_at s' in
      if Ascii.eqb c sep then (EmptyString, h :: t) else (String c h, t)
  end.

Definition split_on (s : string) : list string := let (h, t) := split_at s in h :: t.

Fixpoint no_sep (s : string) : bool :=
  match s with
  | EmptyString => true
  | String c s' => negb (Ascii.eqb c sep) && no_sep s'
  end.

Lemma no_sep_app a b : no_sep (a ++ b) = no_sep a && no_sep b.
Proof. induction a as [|c a IH]; simpl; [done|]. by rewrite IH, andb_assoc. Qed.

Lemma split_at_no_sep s : no_sep s = true -> split_at s = (s, []).
Proof.
  induction s as [|c s IH]; simpl; [done|].
  rewrite andb_true_iff, negb_true_iff. intros [Hc Hs]. by rewrite IH, Hc.
Qed.

Lemma split_on_snoc s n :
  no_sep n = true -> split_on (s ++ String sep n) = (split_on s ++ [n])%list.
Proof.
  intros Hn. unfold split_on. induction s as [|c s IH]; simpl.
  - by rewrite Ascii.eqb_refl, split_at_no_sep.
  - destruct (split_at (s ++ String sep n)) as [h t].
    destruct (split_at s) as [h' t']. simpl in IH. injection IH as -> ->.
    by destruct (Ascii.eqb c sep).
Qed.

End Split.

Definition bslash : ascii := "\"%char.

(** [s.split("\\")]. *)
Abbreviation py_split := (split_on bslash).
Abbreviation no_bslash := (no_sep bslash).

(** The segments of a registry path: the empty path names the key it is
    relative to. *)
Definition split_path (p : string) : list string :=
  match p with
  | EmptyString => []
  | _ => py_split p
  end.

(** [f"{key_path}\\{sub_key_name}"] (clean_reg.py, lines 11 and 45). *)
Definition join_path (key_path sub_key_name : string) : string :=
  key_path ++ String bslash sub_key_name.

(** ** Lemmas *)

#[export] Hint Rewrite no_sep_app : pyrt.

Lemma split_on_nonempty sep s : split_on sep s <> [].
Proof. unfold split_on. by destruct (split_at sep s). Qed.

Lemma split_path_join_snoc key_path name :
  key_path <> "" -> no_bslash name = true ->
  split_path (join_path key_path name) = (split_path key_path ++ [name])%list.
Proof.
  intros Hp Hn. unfold join_path, split_path.
  destruct key_path as [|c k]; [done|].
  exact (split_on_snoc bslash (String c k) name Hn).
Qed.

