(* ===== verification/Winreg.v ===== *)
(** * The registry interface of [clean_reg.py]

    [clean_reg.py] reaches the registry only through four functions of
    Python's [winreg] module: [OpenKey], [EnumKey], [QueryValueEx] and
    [DeleteKey].  [Class Winreg] states their types; the script's model in
    [CleanReg.v] is written against it.  [tree_winreg] implements it over
    an in-memory registry: one key tree per hive, where a key has a name,
    an access level, named values and an ordered list of subkeys, and
    names compare case-insensitively.  Failures are the [OSError]s the
    Win32 calls report.  The implementation follows the documented
    behaviour of the Win32 registry functions; it is the environment of
    the script, not code of the repository.  [Class EnumLaws] states the
    contract of [EnumKey] that the scan is proved against, and
    [tree_enum_laws] discharges it.  The lemmas at the end describe a
    successful [DeleteKey]: it keeps the store well formed, removes
    exactly the keys at or below the path it deletes, and leaves every
    path that parts from it unchanged. *)

From S2P Require Import Prelude PyStr.
From Stdlib Require Import String Ascii ZArith.

(** ** Data *)

Inductive hive := HKEY_CLASSES_ROOT | HKEY_CURRENT_USER | HKEY_LOCAL_MACHINE.

#[export] Instance hive_eq_dec : EqDecision hive.
Proof. solve_decision. Defined.

(** The [OSError]s of the calls, by Win32 error code. *)
Inductive oserror :=
| ERROR_FILE_NOT_FOUND        (* 2 *)
| ERROR_ACCESS_DENIED         (* 5 *)
| ERROR_NO_MORE_ITEMS         (* 259 *)
| ERROR_KEY_DELETED.          (* 1018 *)

#[export] Instance oserror_eq_dec : EqDecision oserror.
Proof. solve_decision. Defined.

(** The access requested by [OpenKey]: its default [KEY_READ], or
    [KEY_ALL_ACCESS] as [delete_key] asks. *)
Inductive access := KEY_READ | KEY_ALL_ACCESS.

(** What the security descriptor of a key grants the running user. *)
Inductive acl := FullControl | ReadOnly | NoAccess.

#[export] Instance acl_eq_dec : EqDecision acl.
Proof. solve_decision. Defined.

(** The typed data of a registry value, as [QueryValueEx] returns it. *)
Inductive regval :=
| REG_SZ (s : string)
| REG_EXPAND_SZ (s : string)
| REG_MULTI_SZ (l : list string)
| REG_DWORD (n : Z)
| REG_BINARY (b : list Byte.byte)
| REG_NONE.

(** [isinstance(val, str)]: [winreg] returns a Python [str] exactly for
    the two string types ([REG_MULTI_SZ] becomes a list). *)
Definition py_str_of (v : regval) : option string :=
  match v with
  | REG_SZ s | REG_EXPAND_SZ s => Some s
  | _ => None
  end.

Inductive key := mkKey {
  kname : string;
  kacl : acl;
  kvalues : list (string * regval);
  ksubkeys : list key
}.

(** Induction over keys, with a hypothesis for every subkey. *)
Section KeyInd.
Variable P : key -> Prop.
Hypothesis Hkey : forall n a vs subs, Forall P subs -> P (mkKey n a vs subs).

Fixpoint key_ind' (k : key) : P k :=
  match k with
  | mkKey n a vs subs =>
      Hkey n a vs subs
        ((fix go (l : list key) : Forall P l :=
            match l with
            | [] => List.Forall_nil P
            | c :: l' => @List.Forall_cons _ P c l' (key_ind' c) (go l')
            end) subs)
  end.
End KeyInd.

Definition with_subkeys (k : key) (subs : list key) : key :=
  mkKey (kname k) (kacl k) (kvalues k) subs.

(** Registry names compare without regard to case. *)
Definition name_eqb (a b : string) : bool := String.eqb (py_lower a) (py_lower b).

Definition named (n : string) (k : key) : bool := name_eqb n (kname k).

Definition allows (a : acl) (acc : access) : bool :=
  match a, acc with
  | FullControl, _ => true
  | ReadOnly, KEY_READ => true
  | _, _ => false
  end.

(** The key reached from [k] by a list of names. *)
Fixpoint lookup (k : key) (segs : list string) : option key :=
  match segs with
  | [] => Some k
  | n :: rest =>
      match find (named n) (ksubkeys k) with
      | Some c => lookup c rest
      | None => None
      end
  end.

(** Apply [f] to the key reached by [segs] (no change if there is none). *)
Fixpoint alter_at (segs : list string) (f : key -> key) (k : key) : key :=
  match segs with
  | [] => f k
  | n :: rest => with_subkeys k (update_first (named n) (alter_at rest f) (ksubkeys k))
  end.

Definition drop_subkey (n : string) (k : key) : key :=
  with_subkeys k (remove_first (named n) (ksubkeys k)).

(** Number of keys of a subtree. *)
Fixpoint size (k : key) : nat := S (sum_list_with size (ksubkeys k)).

(** Every key of the subtree grants full access. *)
Fixpoint all_full (k : key) : bool :=
  allows (kacl k) KEY_ALL_ACCESS && forallb all_full (ksubkeys k).

(** Names a key may have: non-empty and without backslash. *)
Definition valid_name (n : string) : bool := negb (String.eqb n "") && no_bslash n.

Fixpoint nodup_names (l : list string) : bool :=
  match l with
  | [] => true
  | n :: l' => negb (existsb (name_eqb n) l') && nodup_names l'
  end.

(** Well-formed subtree: the subkeys of every key have valid names that
    are distinct up to case. *)
Fixpoint wf_key (k : key) : bool :=
  forallb valid_name (map kname (ksubkeys k)) &&
  nodup_names (map kname (ksubkeys k)) &&
  forallb wf_key (ksubkeys k).

(** ** The store *)

Record regstore := mkStore { hkcr : key; hkcu : key; hklm : key }.

Definition hive_root (s : regstore) (h : hive) : key :=
  match h with
  | HKEY_CLASSES_ROOT => hkcr s
  | HKEY_CURRENT_USER => hkcu s
  | HKEY_LOCAL_MACHINE => hklm s
  end.

Definition set_hive_root (s : regstore) (h : hive) (k : key) : regstore :=
  match h with
  | HKEY_CLASSES_ROOT => mkStore k (hkcu s) (hklm s)
  | HKEY_CURRENT_USER => mkStore (hkcr s) k (hklm s)
  | HKEY_LOCAL_MACHINE => mkStore (hkcr s) (hkcu s) k
  end.

Definition wf_store (s : regstore) : bool :=
  wf_key (hkcr s) && wf_key (hkcu s) && wf_key (hklm s).

(** An open key: its hive and the names leading to it. *)
Abbreviation handle := (hive * list string)%type.

(** ** The interface *)

Class Winreg (S H : Type) := {
  OpenKey : S -> hive -> string -> access -> result oserror H;
  EnumKey : S -> H -> nat -> result oserror string;
  QueryValueEx : S -> H -> string -> result oserror regval;
  DeleteKey : S -> hive -> string -> result oserror S
}.

(** ** The in-memory implementation *)

Definition reg_open (s : regstore) (h : hive) (sub_key : string) (acc : access)
  : result oserror handle :=
  let segs := split_path sub_key in
  match lookup (hive_root s h) segs with
  | None => Err ERROR_FILE_NOT_FOUND
  | Some k => if allows (kacl k) acc then Ok (h, segs) else Err ERROR_ACCESS_DENIED
  end.

Definition reg_enum (s : regstore) (hd : handle) (i : nat) : result oserror string :=
  match lookup (hive_root s hd.1) hd.2 with
  | None => Err ERROR_KEY_DELETED
  | Some k =>
      match nth_error (ksubkeys k) i with
      | None => Err ERROR_NO_MORE_ITEMS
      | Some c => Ok (kname c)
      end
  end.

Definition find_value (name : string) (vs : list (string * regval)) : option regval :=
  option_map snd (find (fun nv => name_eqb name nv.1) vs).

Definition reg_query (s : regstore) (hd : handle) (name : string) : result oserror regval :=
  match lookup (hive_root s hd.1) hd.2 with
  | None => Err ERROR_KEY_DELETED
  | Some k =>
      match find_value name (kvalues k) with
      | None => Err ERROR_FILE_NOT_FOUND
      | Some v => Ok v
      end
  end.

(** [RegDeleteKey] refuses a key that still has subkeys, and a key the
    user may not delete, with [ERROR_ACCESS_DENIED].  [reg_delete_at]
    deletes the key named by a list of names. *)
Definition reg_delete_at (s : regstore) (h : hive) (segs : list string) : result oserror regstore :=
  match split_last segs with
  | None => Err ERROR_ACCESS_DENIED
  | Some (ps, n) =>
      match lookup (hive_root s h) (ps ++ [n]) with
      | None => Err ERROR_FILE_NOT_FOUND
      | Some k =>
          if negb (allows (kacl k) KEY_ALL_ACCESS) then Err ERROR_ACCESS_DENIED
          else match ksubkeys k with
               | _ :: _ => Err ERROR_ACCESS_DENIED
               | [] => Ok (set_hive_root s h (alter_at ps (drop_subkey n) (hive_root s h)))
               end
      end
  end.

Definition reg_delete (s : regstore) (h : hive) (sub_key : string) : result oserror regstore :=
  reg_delete_at s h (split_path sub_key).

#[export] Instance tree_winreg : Winreg regstore handle := {|
  OpenKey := reg_open;
  EnumKey := reg_enum;
  QueryValueEx := reg_query;
  DeleteKey := reg_delete
|}.

(** ** What the script relies on from [EnumKey]

    [EnumKey(key, i)] returns the [i]-th name of a list of subkey names
    and raises past its end.  The scan of [clean_reg.py] is proved
    against this law, for every implementation that satisfies it. *)
Class EnumLaws (S H : Type) `{Winreg S H} := {
  subkey_names : S -> H -> list string;
  EnumKey_spec : forall s h i,
    match EnumKey s h i with
    | Ok n => nth_error (subkey_names s h) i = Some n
    | Err _ => nth_error (subkey_names s h) i = None
    end
}.

Definition tree_subkey_names (s : regstore) (hd : handle) : list string :=
  match lookup (hive_root s hd.1) hd.2 with
  | Some k => map kname (ksubkeys k)
  | None => []
  end.

#[export] Program Instance tree_enum_laws : EnumLaws regstore handle := {|
  subkey_names := tree_subkey_names
|}.
Next Obligation.
  intros s [hv segs] i. unfold tree_subkey_names; simpl. unfold reg_enum; simpl.
  destruct (lookup (hive_root s hv) segs) as [k|]; [|by destruct i].
  rewrite nth_error_map. by destruct (nth_error (ksubkeys k) i).
Qed.

(** ** Lemmas on key trees *)

Definition keeps_name (f : key -> key) : Prop := forall k, kname (f k) = kname k.

Lemma size_pos k : 0 < size k.
Proof. destruct k; simpl; lia. Qed.

Lemma with_subkeys_keeps_name subs k : kname (with_subkeys k subs) = kname k.
Proof. done. Qed.

Lemma drop_subkey_keeps_name n : keeps_name (drop_subkey n).
Proof. done. Qed.

Lemma named_keep n f x : keeps_name f -> named n (f x) = named n x.
Proof. intros Hf. unfold named. by rewrite Hf. Qed.

#[export] Hint Resolve drop_subkey_keeps_name : pyrt.

Lemma name_eqb_refl n : name_eqb n n = true.
Proof. apply String.eqb_refl. Qed.

Lemma named_self c : named (kname c) c = true.
Proof. apply name_eqb_refl. Qed.

Lemma lookup_app k ps qs :
  lookup k (ps ++ qs) = match lookup k ps with Some k' => lookup k' qs | None => None end.
Proof.
  revert k. induction ps as [|n ps IH]; intros k; simpl; [done|].
  destruct (find (named n) (ksubkeys k)); [apply IH|done].
Qed.

Lemma alter_at_app ps qs f k : alter_at (ps ++ qs) f k = alter_at ps (alter_at qs f) k.
Proof.
  revert k. induction ps as [|n ps IH]; intros k; simpl; [done|].
  f_equal. apply update_first_ext. intros. apply IH.
Qed.

Lemma alter_at_ext ps f g k : (forall x, f x = g x) -> alter_at ps f k = alter_at ps g k.
Proof.
  intros Hfg. revert k. induction ps as [|n ps IH]; intros k; simpl; [done|].
  f_equal. apply update_first_ext. intros. apply IH.
Qed.

Lemma with_subkeys_eta k : with_subkeys k (ksubkeys k) = k.
Proof. by destruct k. Qed.

Lemma alter_at_fixed ps f k x : lookup k ps = Some x -> f x = x -> alter_at ps f k = k.
Proof.
  revert k. induction ps as [|n ps IH]; intros k; simpl; [congruence|].
  destruct (find (named n) (ksubkeys k)) as [c|] eqn:E; [|done].
  intros Hl Hx. rewrite (update_first_fixed _ _ _ c E); [apply with_subkeys_eta|eauto].
Qed.

Lemma alter_at_keeps_name ps f : keeps_name f -> keeps_name (alter_at ps f).
Proof. intros Hf k. destruct ps; simpl; [apply Hf|done]. Qed.

#[export] Hint Resolve alter_at_keeps_name : pyrt.

Lemma alter_at_compose ps f g k :
  keeps_name g -> alter_at ps f (alter_at ps g k) = alter_at ps (fun x => f (g x)) k.
Proof.
  intros Hg. revert k. induction ps as [|n ps IH]; intros k; simpl; [done|].
  unfold with_subkeys; simpl. f_equal.
  rewrite update_first_compose by (intros; apply named_keep, alter_at_keeps_name, Hg).
  apply update_first_ext. intros. apply IH.
Qed.

Lemma lookup_alter_at ps f k :
  keeps_name f -> lookup (alter_at ps f k) ps = option_map f (lookup k ps).
Proof.
  intros Hf. revert k. induction ps as [|n ps IH]; intros k; simpl; [done|].
  rewrite find_update_first by (intros; apply named_keep, alter_at_keeps_name, Hf).
  destruct (find (named n) (ksubkeys k)); simpl; [apply IH|done].
Qed.

(** Deleting a subkey after changing it is deleting it. *)
Lemma drop_subkey_alter n f k :
  keeps_name f -> drop_subkey n (alter_at [n] f k) = drop_subkey n k.
Proof.
  intros Hf. unfold drop_subkey; simpl. unfold with_subkeys; simpl. f_equal.
  apply remove_update_first. intros. by apply named_keep.
Qed.

Lemma find_named_head c cs : find (named (kname c)) (c :: cs) = Some c.
Proof. simpl. by rewrite named_self. Qed.

Lemma hive_root_set s h k : hive_root (set_hive_root s h k) h = k.
Proof. by destruct h. Qed.

Lemma set_hive_root_twice s h k1 k2 : set_hive_root (set_hive_root s h k1) h k2 = set_hive_root s h k2.
Proof. by destruct h. Qed.

Lemma set_hive_root_same s h : set_hive_root s h (hive_root s h) = s.
Proof. by destruct h, s. Qed.

#[export] Hint Rewrite hive_root_set set_hive_root_twice : pyrt.

(** *** Well-formedness *)

Lemma nodup_names_sublist l1 l2 :
  l1 `sublist_of` l2 -> nodup_names l2 = true -> nodup_names l1 = true.
Proof.
  induction 1 as [|x l1 l2 Hs IH|x l1 l2 Hs IH]; simpl; rewrite ?andb_true_iff, ?negb_true_iff; [done| |].
  - intros [Hx Hl]. split; [|auto]. destruct (existsb (name_eqb x) l1) eqn:E; [|done].
    by rewrite (existsb_sublist _ _ _ Hs E) in Hx.
  - intros [_ Hl]. auto.
Qed.

Lemma wf_key_unfold k :
  wf_key k = true <->
  forallb valid_name (map kname (ksubkeys k)) = true /\
  nodup_names (map kname (ksubkeys k)) = true /\
  forallb wf_key (ksubkeys k) = true.
Proof. destruct k; simpl. rewrite !andb_true_iff. tauto. Qed.

(** Keeping some of the subkeys keeps a key well formed. *)
Lemma wf_with_sublist k subs :
  subs `sublist_of` ksubkeys k -> wf_key k = true -> wf_key (with_subkeys k subs) = true.
Proof.
  rewrite !wf_key_unfold. simpl. intros Hs (H1 & H2 & H3). split_and!.
  - eapply forallb_sublist; [apply sublist_map, Hs|done].
  - eapply nodup_names_sublist; [apply sublist_map, Hs|done].
  - eapply forallb_sublist; [apply Hs|done].
Qed.

Lemma wf_drop_subkey n k : wf_key k = true -> wf_key (drop_subkey n k) = true.
Proof. apply wf_with_sublist, remove_first_sublist. Qed.

Lemma wf_alter_at ps f k :
  keeps_name f -> (forall x, wf_key x = true -> wf_key (f x) = true) ->
  wf_key k = true -> wf_key (alter_at ps f k) = true.
Proof.
  intros Hn Hf. revert k. induction ps as [|n ps IH]; intros k; simpl; [apply Hf|].
  rewrite !wf_key_unfold. simpl.
  rewrite map_update_first by (intros; by apply alter_at_keeps_name).
  intros (H1 & H2 & H3). rewrite H1, H2. simpl.
  apply forallb_update_first; [apply IH|done].
Qed.

Lemma wf_store_root s h : wf_store s = true -> wf_key (hive_root s h) = true.
Proof. unfold wf_store. rewrite !andb_true_iff. destruct h; naive_solver. Qed.

Lemma wf_store_set s h k :
  wf_store s = true -> wf_key k = true -> wf_store (set_hive_root s h k) = true.
Proof. unfold wf_store. rewrite !andb_true_iff. destruct h; simpl; naive_solver. Qed.

(** [DeleteKey] keeps the store well formed. *)
Lemma reg_delete_at_wf s h segs s' :
  wf_store s = true -> reg_delete_at s h segs = Ok s' -> wf_store s' = true.
Proof.
  unfold reg_delete_at. intros Hwf.
  destruct (split_last segs) as [[ps n]|]; [|done].
  destruct (lookup _ _) as [k|]; [|done].
  destruct (negb _); [done|]. destruct (ksubkeys k); [|done].
  intros [= <-]. apply wf_store_set; [done|].
  apply wf_alter_at; [apply drop_subkey_keeps_name|apply wf_drop_subkey|by apply wf_store_root].
Qed.

Lemma wf_lookup k ps x : wf_key k = true -> lookup k ps = Some x -> wf_key x = true.
Proof.
  revert k. induction ps as [|n ps IH]; intros k; simpl; [congruence|].
  destruct (find (named n) (ksubkeys k)) as [c|] eqn:E; [|done].
  intros Hk. apply IH. apply wf_key_unfold in Hk as (_ & _ & Hk).
  apply find_some in E as [Hin _]. rewrite forallb_forall in Hk. auto.
Qed.

Lemma name_eqb_iff a b : name_eqb a b = true <-> py_lower a = py_lower b.
Proof. apply String.eqb_eq. Qed.

(** Among subkeys with distinct names, none is named like the one
    removed. *)
Lemma find_remove_first_nodup n l :
  nodup_names (map kname l) = true -> find (named n) (remove_first (named n) l) = None.
Proof.
  induction l as [|x l IH]; simpl; [done|]. rewrite andb_true_iff, negb_true_iff.
  intros [Hx Hl]. destruct (named n x) eqn:Ex; simpl; [|by rewrite Ex, IH].
  destruct (find (named n) l) as [y|] eqn:Ey; [|done].
  apply find_some in Ey as [Hin Hy]. exfalso.
  assert (existsb (name_eqb (kname x)) (map kname l) = true) as Hc; [|by rewrite Hc in Hx].
  apply existsb_exists. exists (kname y). split; [by apply in_map|].
  unfold named in *. rewrite name_eqb_iff in *. congruence.
Qed.

(** After [DeleteKey] of [ps ++ [n]], nothing is found there. *)
Lemma lookup_deleted r ps n parent :
  wf_key r = true -> lookup r ps = Some parent ->
  lookup (alter_at ps (drop_subkey n) r) (ps ++ [n]) = None.
Proof.
  intros Hwf Hp. rewrite lookup_app, lookup_alter_at, Hp by apply drop_subkey_keeps_name. simpl.
  apply (wf_lookup _ _ _ Hwf), wf_key_unfold in Hp as (_ & Hnd & _).
  by rewrite find_remove_first_nodup.
Qed.

(** Among subkeys with distinct names, a subkey is found by its name. *)
Lemma find_named_nth l i c :
  nodup_names (map kname l) = true -> nth_error l i = Some c -> find (named (kname c)) l = Some c.
Proof.
  revert i. induction l as [|x l IH]; intros [|i]; simpl; try done.
  - intros _ [= ->]. by rewrite named_self.
  - rewrite andb_true_iff, negb_true_iff. intros [Hx Hl] Hc.
    destruct (named (kname c) x) eqn:E; [|by eapply IH].
    exfalso. assert (existsb (name_eqb (kname x)) (map kname l) = true) as Hc'; [|by rewrite Hc' in Hx].
    apply existsb_exists. exists (kname c). split; [apply in_map; by eapply nth_error_In|].
    unfold named in E. rewrite name_eqb_iff in *. done.
Qed.

(** *** Paths that part *)

(** Two paths part when, after a common prefix, they name different
    subkeys. *)
Fixpoint diverge (ps qs : list string) : bool :=
  match ps, qs with
  | n :: ps', m :: qs' => if name_eqb n m then diverge ps' qs' else true
  | _, _ => false
  end.

Lemma named_ext a b : name_eqb a b = true -> forall z, named a z = named b z.
Proof. unfold named. intros H z. apply name_eqb_iff in H. unfold name_eqb. by rewrite H. Qed.

(** Two subkeys of a key with unique names are equal when their names
    are. *)
Lemma nodup_names_eq l a b :
  nodup_names (map kname l) = true -> In a l -> In b l -> name_eqb (kname a) (kname b) = true -> a = b.
Proof.
  intros Hnd [i Ha]%In_nth_error [j Hb]%In_nth_error Hab.
  pose proof (find_named_nth _ _ _ Hnd Ha) as Fa. pose proof (find_named_nth _ _ _ Hnd Hb) as Fb.
  erewrite find_ext in Fa by (exact (named_ext _ _ Hab)). congruence.
Qed.

Lemma named_disjoint a b z : name_eqb a b = false -> named a z = true -> named b z = false.
Proof.
  unfold named. intros Hab Ha. destruct (name_eqb b (kname z)) eqn:Hb; [|done].
  apply name_eqb_iff in Ha, Hb. rewrite <- Hb in Ha. apply name_eqb_iff in Ha. congruence.
Qed.

Lemma name_eqb_sym a b : name_eqb a b = name_eqb b a.
Proof. apply String.eqb_sym. Qed.

Lemma diverge_sym ps qs : diverge ps qs = diverge qs ps.
Proof.
  revert qs. induction ps as [|n ps IH]; intros [|m qs]; simpl; try done.
  rewrite name_eqb_sym. by destruct (name_eqb m n).
Qed.

(** Changing the key at [ps] leaves the keys of a parting path alone. *)
Lemma lookup_alter_diverge ps qs f r :
  keeps_name f -> diverge ps qs = true -> lookup (alter_at ps f r) qs = lookup r qs.
Proof.
  intros Hf. revert qs r. induction ps as [|n ps IH]; intros [|m qs] r; simpl; try done.
  destruct (name_eqb n m) eqn:E; intros Hd.
  - rewrite !(find_ext (named m) (named n)) by (symmetry; by apply named_ext).
    rewrite find_update_first by (intros; by apply named_keep, alter_at_keeps_name).
    destruct (find (named n) (ksubkeys r)); simpl; [by apply IH|done].
  - rewrite find_update_first_disjoint; [done| |].
    + intros x. by apply named_disjoint.
    + intros x. by apply named_keep, alter_at_keeps_name.
Qed.

(** Two changes that agree on the key at [ps] agree. *)
Lemma alter_at_agree ps f g r x : lookup r ps = Some x -> f x = g x -> alter_at ps f r = alter_at ps g r.
Proof.
  revert r. induction ps as [|n ps IH]; intros r; simpl; [congruence|].
  destruct (find (named n) (ksubkeys r)) as [c|] eqn:E; [|done]. intros Hl Hx.
  f_equal. apply (update_first_agree _ _ _ _ c E). by apply IH.
Qed.

(** Among subkeys with distinct names, none before [c] is named like it. *)
Lemma find_named_before kept c cs :
  nodup_names (map kname (kept ++ c :: cs)) = true -> find (named (kname c)) kept = None.
Proof.
  induction kept as [|x kept IH]; simpl; [done|]. rewrite andb_true_iff, negb_true_iff. intros [Hx Hl].
  destruct (named (kname c) x) eqn:E; [|by apply IH]. exfalso.
  assert (existsb (name_eqb (kname x)) (map kname (kept ++ c :: cs)) = true) as Hc; [|by rewrite Hc in Hx].
  apply existsb_exists. exists (kname c). split; [apply in_map, in_or_app; right; by left|].
  unfold named in E. rewrite name_eqb_iff in *. done.
Qed.

(** Changing the key at a path that does not exist changes nothing. *)
Lemma alter_at_none ps f r : lookup r ps = None -> alter_at ps f r = r.
Proof.
  revert r. induction ps as [|n ps IH]; intros r; simpl; [done|].
  destruct (find (named n) (ksubkeys r)) as [c|] eqn:E; intros Hl.
  - rewrite (update_first_fixed _ _ _ c E); [apply with_subkeys_eta|by apply IH].
  - rewrite update_first_none by done. apply with_subkeys_eta.
Qed.

Lemma hive_root_set_other s h h' k : h <> h' -> hive_root (set_hive_root s h k) h' = hive_root s h'.
Proof. by destruct h, h'. Qed.

(** *** Sizes *)

Lemma size_subkey k c : In c (ksubkeys k) -> size c < size k.
Proof.
  destruct k as [n a vs subs]; simpl. intros Hin.
  induction subs as [|x subs IH]; simpl in *; [done|]. destruct Hin as [->|Hin]; [lia|].
  specialize (IH Hin). lia.
Qed.

Lemma size_with_sublist k subs : subs `sublist_of` ksubkeys k -> size (with_subkeys k subs) <= size k.
Proof.
  destruct k as [n a vs cs]; simpl. induction 1 as [|x l1 l2 _ IH|x l1 l2 _ IH]; simpl in *; lia.
Qed.

Lemma length_subkeys_lt k : List.length (ksubkeys k) < size k.
Proof.
  destruct k as [n a vs subs]; simpl.
  induction subs as [|x subs IH]; simpl in *; [lia|]. pose proof (size_pos x). lia.
Qed.

(** ** What a deletion changes

    A path [ps] lies at or below [qs] when [qs] is a prefix of it, names
    compared without regard to case.  A successful [DeleteKey] of a
    path removes the keys at or below it and nothing else, and leaves
    every path that parts from it unchanged. *)
Fixpoint name_prefix (ps qs : list string) : bool :=
  match ps, qs with
  | [], _ => true
  | n :: ps', m :: qs' => name_eqb n m && name_prefix ps' qs'
  | _ :: _, [] => false
  end.

Lemma name_prefix_app ps rs qs : name_prefix (ps ++ rs) qs = true -> name_prefix ps qs = true.
Proof.
  revert qs. induction ps as [|n ps IH]; intros [|m qs]; simpl; try done.
  rewrite !andb_true_iff. intuition.
Qed.

Lemma diverge_app ps rs qs : diverge ps qs = true -> diverge (ps ++ rs) qs = true.
Proof.
  revert qs. induction ps as [|n ps IH]; intros [|m qs]; simpl; try done.
  destruct (name_eqb n m); [apply IH|done].
Qed.

Lemma diverge_irrefl ps : diverge ps ps = false.
Proof. induction ps as [|n ps IH]; simpl; [done|by rewrite name_eqb_refl]. Qed.

Lemma diverge_snoc ps n m : name_eqb n m = false -> diverge (ps ++ [n]) (ps ++ [m]) = true.
Proof. intros Hnm. induction ps as [|x ps IH]; simpl; [by rewrite Hnm|by rewrite name_eqb_refl]. Qed.

(** Removing the first subkey named [n] does not change what is found
    under another name. *)
Lemma find_remove_first_disjoint n m l :
  name_eqb n m = false -> find (named m) (remove_first (named n) l) = find (named m) l.
Proof.
  intros Hnm. induction l as [|x l IH]; simpl; [done|].
  destruct (named n x) eqn:Ex; simpl.
  - by rewrite (named_disjoint n m x Hnm Ex).
  - destruct (named m x); [done|apply IH].
Qed.

Lemma lookup_drop_diverge ps n qs r :
  diverge (ps ++ [n]) qs = true -> lookup (alter_at ps (drop_subkey n) r) qs = lookup r qs.
Proof.
  revert qs r. induction ps as [|p ps IH]; intros [|m qs] r; simpl; try done.
  - destruct (name_eqb n m) eqn:E; [by destruct qs|]. intros _. by rewrite find_remove_first_disjoint.
  - destruct (name_eqb p m) eqn:E; intros Hd.
    + rewrite !(find_ext (named m) (named p)) by (symmetry; by apply named_ext).
      rewrite find_update_first by (intros; by apply named_keep, alter_at_keeps_name).
      destruct (find (named p) (ksubkeys r)); simpl; [by apply IH|done].
    + rewrite find_update_first_disjoint; [done| |].
      * intros x. by apply named_disjoint.
      * intros x. by apply named_keep, alter_at_keeps_name.
Qed.

Lemma lookup_drop_present ps n qs r :
  lookup r qs <> None -> name_prefix (ps ++ [n]) qs = false ->
  lookup (alter_at ps (drop_subkey n) r) qs <> None.
Proof.
  revert qs r. induction ps as [|p ps IH]; intros [|m qs] r; simpl; try done.
  - rewrite andb_true_r. intros Hl E. by rewrite find_remove_first_disjoint.
  - destruct (name_eqb p m) eqn:E; simpl; intros Hl Hp.
    + rewrite !(find_ext (named m) (named p)) in Hl |- * by (symmetry; by apply named_ext).
      rewrite find_update_first by (intros; by apply named_keep, alter_at_keeps_name).
      destruct (find (named p) (ksubkeys r)); simpl; [by apply IH|done].
    + rewrite find_update_first_disjoint; [done| |].
      * intros x. by apply named_disjoint.
      * intros x. by apply named_keep, alter_at_keeps_name.
Qed.

(** [s'] differs from [s] only at or below [ps] in the hive [hv]: every
    path of another hive, or that parts from [ps], finds the same key. *)
Definition unchanged_apart (hv : hive) (ps : list string) (s s' : regstore) : Prop :=
  forall hv' qs, hv' <> hv \/ diverge ps qs = true ->
  lookup (hive_root s' hv') qs = lookup (hive_root s hv') qs.

(** Every key of [s] that [s'] no longer has satisfies [D]. *)
Definition removed_within (D : hive -> list string -> Prop) (s s' : regstore) : Prop :=
  forall hv qs, lookup (hive_root s hv) qs <> None -> lookup (hive_root s' hv) qs = None -> D hv qs.

Lemma unchanged_apart_refl hv ps s : unchanged_apart hv ps s s.
Proof. by intros ? ? _. Qed.

Lemma unchanged_apart_trans hv ps s1 s2 s3 :
  unchanged_apart hv ps s1 s2 -> unchanged_apart hv ps s2 s3 -> unchanged_apart hv ps s1 s3.
Proof. intros H12 H23 hv' qs Hq. by rewrite H23, H12. Qed.

Lemma unchanged_apart_app hv ps rs s s' :
  unchanged_apart hv (ps ++ rs) s s' -> unchanged_apart hv ps s s'.
Proof. intros H hv' qs [Hq|Hq]; apply H; [by left|right; by apply diverge_app]. Qed.

Lemma removed_within_refl D s : removed_within D s s.
Proof. intros hv qs Hl Hl'. congruence. Qed.

Lemma removed_within_mono (D D' : hive -> list string -> Prop) s s' :
  (forall hv qs, D hv qs -> D' hv qs) -> removed_within D s s' -> removed_within D' s s'.
Proof. intros HD H hv qs Hl Hl'. by apply HD, H. Qed.

Lemma removed_within_trans (D1 D2 D : hive -> list string -> Prop) s1 s2 s3 :
  (forall hv qs, D1 hv qs -> D hv qs) -> (forall hv qs, D2 hv qs -> D hv qs) ->
  removed_within D1 s1 s2 -> removed_within D2 s2 s3 -> removed_within D s1 s3.
Proof.
  intros H1 H2 H12 H23 hv qs Hl Hl3.
  destruct (lookup (hive_root s2 hv) qs) eqn:E; [apply H2, H23; congruence|apply H1, H12; congruence].
Qed.

(** [s'] is [s] after deletions at or below [ps] in [hv]: the keys
    removed lie at or below [ps], paths that part from [ps] are
    unchanged, and the store is well formed. *)
Definition deletes_below (hv : hive) (ps : list string) (s s' : regstore) : Prop :=
  unchanged_apart hv ps s s' /\
  removed_within (fun hv' qs => hv' = hv /\ name_prefix ps qs = true) s s' /\ wf_store s' = true.

Lemma deletes_below_refl hv ps s : wf_store s = true -> deletes_below hv ps s s.
Proof. intros Hw. split_and!; [apply unchanged_apart_refl|apply removed_within_refl|done]. Qed.

Lemma deletes_below_trans hv ps s1 s2 s3 :
  deletes_below hv ps s1 s2 -> deletes_below hv ps s2 s3 -> deletes_below hv ps s1 s3.
Proof.
  intros (U1 & R1 & _) (U2 & R2 & W). split_and!; [by eapply unchanged_apart_trans|
    by eapply (removed_within_trans _ _ _ s1 s2 s3); [| |exact R1|exact R2]|done].
Qed.

Lemma deletes_below_app hv ps rs s s' : deletes_below hv (ps ++ rs) s s' -> deletes_below hv ps s s'.
Proof.
  intros (U & R & W). split_and!; [by eapply unchanged_apart_app| |done].
  eapply removed_within_mono; [|exact R]. intros ? ? [-> Hp]. split; [done|]. by eapply name_prefix_app.
Qed.

(** A successful [DeleteKey] of [segs] deletes at or below [segs]. *)
Lemma reg_delete_at_frame s hv segs s' :
  wf_store s = true -> reg_delete_at s hv segs = Ok s' -> deletes_below hv segs s s'.
Proof.
  intros Hw Hd. pose proof (reg_delete_at_wf _ _ _ _ Hw Hd) as Hw'. revert Hd.
  unfold reg_delete_at. destruct (split_last segs) as [[ps n]|] eqn:Es; [|done].
  apply split_last_some in Es as ->.
  destruct (lookup _ _) as [k|]; [|done]. destruct (negb _); [done|]. destruct (ksubkeys k); [|done].
  intros [= <-]. split_and!; [|intros hv' qs Hl Hl'|done].
  - intros hv' qs [Hne|Hdv].
    + by rewrite hive_root_set_other by congruence.
    + destruct (decide (hv' = hv)) as [->|Hne]; [|by rewrite hive_root_set_other by congruence].
      rewrite hive_root_set. by apply lookup_drop_diverge.
  - destruct (decide (hv' = hv)) as [->|Hne]; [|by rewrite hive_root_set_other in Hl' by congruence].
    split; [done|]. rewrite hive_root_set in Hl'.
    destruct (name_prefix (ps ++ [n]) qs) eqn:Ep; [done|].
    by destruct (lookup_drop_present ps n qs (hive_root s hv) Hl Ep).
Qed.
