(* ===== verification/CleanReg.v ===== *)
(** * [src/scripts/clean_reg.py]: the scan and the deletion

    The functions of the script written against the [Winreg] interface:
    the scan [search_keys] (its [while True] loop is [search_loop]) and
    the recursive [delete_key] (its [while True] loop is
    [delete_subkeys]).  Each [print] is an [event] appended to a log.
    The loops take fuel and return [None] when it runs out.

    The scan is proved against the enumeration law [EnumLaws] (its
    output, the bound on its matches and the shape of each), and the
    invariants of a deletion against any implementation of [DeleteKey];
    the other theorems are about the in-memory registry [tree_winreg]:
    the scan meets [search_spec] and [search_log]; a deletion removes
    exactly the subtree, after which the key cannot be opened, or fails
    without change, or, on an undeletable descendant of an openable key,
    never ends.  The module-level code is in [CleanRegMain.v]. *)

From S2P Require Import Prelude PyStr Winreg.
From Stdlib Require Import String Ascii.

Open Scope list_scope.

(** ** Data *)

(** The third component of a match of [search_keys]. *)
Inductive reason := KEY_NAME_MATCH | VALUE_MATCH.

#[export] Instance reason_eq_dec : EqDecision reason.
Proof. solve_decision. Defined.

(** A match [(hive, full_path, reasoning)]. *)
Definition found : Type := hive * string * reason.

(** The lines the script prints. *)
Inductive event :=
| FoundKeyName (full_path : string)                 (* line 16 *)
| FoundValue (full_path : string) (val : string)    (* line 25 *)
| Attempting (key_path : string)                    (* line 38 *)
| Deleted (key_path : string)                       (* line 51 *)
| DeleteFailed (key_path : string) (e : oserror)    (* line 53 *)
| StartingScan                                      (* line 64 *)
| ScanComplete.                                     (* line 71 *)

(** ** The script *)

Section Script.
Context {St Hd : Type} `{Winreg St Hd}.

(** Lines 19-27: open the subkey, read its default value, and report a
    match when it is a string containing the term; an [OSError] on the
    way is ignored. *)
Definition check_default_value (s : St) (hv : hive) (full_path search_term : string)
  : list found * list event :=
  match OpenKey s hv full_path KEY_READ with
  | Err _ => ([], [])
  | Ok subkey =>
      match QueryValueEx s subkey ""%string with
      | Err _ => ([], [])
      | Ok v =>
          match py_str_of v with
          | Some val =>
              if py_in (py_lower search_term) (py_lower val)
              then ([(hv, full_path, VALUE_MATCH)], [FoundValue full_path val])
              else ([], [])
          | None => ([], [])
          end
      end
  end.

(** Lines 7-31: enumerate the subkeys by index until [EnumKey] raises. *)
Fixpoint search_loop (fuel : nat) (s : St) (hv : hive) (key_path search_term : string)
    (key : Hd) (i : nat) (found_paths : list found) (log : list event)
  : option (list found * list event) :=
  match fuel with
  | 0 => None
  | S fuel' =>
      match EnumKey s key i with
      | Err _ => Some (found_paths, log)
      | Ok sub_key_name =>
          let full_path := join_path key_path sub_key_name in
          let '(f1, l1) :=
            if py_in (py_lower search_term) (py_lower sub_key_name)
            then (found_paths ++ [(hv, full_path, KEY_NAME_MATCH)],
                  log ++ [FoundKeyName full_path])
            else (found_paths, log) in
          let '(f2, l2) := check_default_value s hv full_path search_term in
          search_loop fuel' s hv key_path search_term key (S i) (f1 ++ f2) (l1 ++ l2)
      end
  end.

(** Lines 3-35: a root that cannot be opened gives no match. *)
Definition search_keys (fuel : nat) (s : St) (hv : hive) (key_path search_term : string)
  : option (list found * list event) :=
  match OpenKey s hv key_path KEY_READ with
  | Err _ => Some ([], [])
  | Ok key => search_loop fuel s hv key_path search_term key 0 [] []
  end.

(** Lines 37-53: delete the subkeys, then the key; any exception is
    printed and swallowed.  [delete_subkeys] is the [while True] loop of
    lines 42-47, which deletes [EnumKey(key, 0)] until it raises. *)
Fixpoint delete_key (fuel : nat) (s : St) (hv : hive) (key_path : string)
  : option (St * list event) :=
  match fuel with
  | 0 => None
  | S fuel' =>
      match OpenKey s hv key_path KEY_ALL_ACCESS with
      | Err e => Some (s, [Attempting key_path; DeleteFailed key_path e])
      | Ok key =>
          let? (s1, l1) := delete_subkeys fuel' s hv key_path key in
          match DeleteKey s1 hv key_path with
          | Err e => Some (s1, Attempting key_path :: l1 ++ [DeleteFailed key_path e])
          | Ok s2 => Some (s2, Attempting key_path :: l1 ++ [Deleted key_path])
          end
      end
  end
with delete_subkeys (fuel : nat) (s : St) (hv : hive) (key_path : string) (key : Hd)
  : option (St * list event) :=
  match fuel with
  | 0 => None
  | S fuel' =>
      match EnumKey s key 0 with
      | Err _ => Some (s, [])
      | Ok sub_key =>
          let? (s1, l1) := delete_key fuel' s hv (join_path key_path sub_key) in
          let? (s2, l2) := delete_subkeys fuel' s1 hv key_path key in
          Some (s2, l1 ++ l2)
      end
  end.

End Script.

(** ** Lemmas that hold for every implementation of [Winreg] *)

Section Generic.
Context {St Hd : Type} `{Winreg St Hd}.

(** More fuel does not change a result. *)
Lemma delete_key_fuel_mono fuel :
  (forall s hv p r fuel', fuel <= fuel' ->
     delete_key fuel s hv p = Some r -> delete_key fuel' s hv p = Some r) /\
  (forall s hv p k r fuel', fuel <= fuel' ->
     delete_subkeys fuel s hv p k = Some r -> delete_subkeys fuel' s hv p k = Some r).
Proof.
  induction fuel as [|f IH]; split; intros * Hle Hf; [discriminate|discriminate| |];
    destruct fuel' as [|f']; try lia; simpl in Hf |- *;
    repeat match goal with
      | H : (match ?x with _ => _ end) = Some _ |- _ => destruct x eqn:?; simpl in H; try discriminate H
      | E : ?x = _ |- context [match ?x with _ => _ end] => rewrite E; simpl
      | E : delete_key f ?s ?hv ?p = Some _ |- context [delete_key f' ?s ?hv ?p] =>
          rewrite (proj1 IH _ _ _ _ f' ltac:(lia) E); simpl
      | E : delete_subkeys f ?s ?hv ?p ?k = Some _ |- context [delete_subkeys f' ?s ?hv ?p ?k] =>
          rewrite (proj2 IH _ _ _ _ _ f' ltac:(lia) E); simpl
    end; congruence.
Qed.

Corollary delete_key_fuel_det fuel1 fuel2 s hv p r1 r2 :
  delete_key fuel1 s hv p = Some r1 -> delete_key fuel2 s hv p = Some r2 -> r1 = r2.
Proof.
  intros H1 H2.
  apply (proj1 (delete_key_fuel_mono fuel1) _ _ _ _ (Nat.max fuel1 fuel2)) in H1; [|lia].
  apply (proj1 (delete_key_fuel_mono fuel2) _ _ _ _ (Nat.max fuel1 fuel2)) in H2; [|lia].
  congruence.
Qed.

(** *** The scan against the enumeration law *)

Section Enum.
Context `{!EnumLaws St Hd}.

(** The name test of lines 13-16: the match and the printed line. *)
Definition name_check (hv : hive) (key_path term n : string) : list found * list event :=
  if py_in (py_lower term) (py_lower n)
  then ([(hv, join_path key_path n, KEY_NAME_MATCH)], [FoundKeyName (join_path key_path n)])
  else ([], []).

(** What the loop body adds for the subkey name [n]. *)
Definition scan_name (s : St) (hv : hive) (key_path term n : string) : list found * list event :=
  let '(f1, l1) := name_check hv key_path term n in
  let '(f2, l2) := check_default_value s hv (join_path key_path n) term in
  (f1 ++ f2, l1 ++ l2).

(** The loop enumerates the subkey names from index [i] and stops past
    the last one; fuel one above the number of names left suffices. *)
Lemma search_loop_enum fuel s hv p term h i acc log :
  List.length (subkey_names s h) - i < fuel ->
  search_loop fuel s hv p term h i acc log =
    Some (acc ++ flat_map (fun n => (scan_name s hv p term n).1) (drop i (subkey_names s h)),
          log ++ flat_map (fun n => (scan_name s hv p term n).2) (drop i (subkey_names s h))).
Proof.
  revert i acc log. induction fuel as [|f IH]; intros i acc log Hfuel; [lia|]. simpl.
  pose proof (EnumKey_spec s h i) as He. destruct (EnumKey s h i) as [n|e].
  - assert (i < List.length (subkey_names s h)) by (apply nth_error_Some; congruence).
    rewrite (drop_nth_error _ _ _ He). simpl. unfold scan_name at 1 3, name_check.
    destruct (check_default_value s hv (join_path p n) term) as [f2 l2].
    destruct (py_in (py_lower term) (py_lower n)); rewrite IH by lia; simpl; by rewrite <- !app_assoc.
  - rewrite drop_ge; [by rewrite !app_nil_r|]. by apply nth_error_None.
Qed.
(** A match reported for the subkey name [n]: it is in the scanned hive,
    at [key_path\n], and a name match has the term in [n]. *)
Definition found_at (hv : hive) (key_path term n : string) (f : found) : Prop :=
  f.1 = (hv, join_path key_path n) /\ (f.2 = KEY_NAME_MATCH -> py_in (py_lower term) (py_lower n) = true).

Lemma check_default_value_shape s hv fp term :
  check_default_value s hv fp term = ([], []) \/
  exists val, check_default_value s hv fp term = ([(hv, fp, VALUE_MATCH)], [FoundValue fp val]).
Proof. unfold check_default_value. repeat case_match; eauto. Qed.

(** A subkey name gives at most two matches, one line for each, all
    about that name. *)
Lemma scan_name_shape s hv p term n :
  List.length (scan_name s hv p term n).1 = List.length (scan_name s hv p term n).2 /\
  List.length (scan_name s hv p term n).1 <= 2 /\
  Forall (found_at hv p term n) (scan_name s hv p term n).1.
Proof.
  unfold scan_name, name_check.
  destruct (check_default_value_shape s hv (join_path p n) term) as [->|[v ->]];
    destruct (py_in (py_lower term) (py_lower n)) eqn:E; simpl;
    split_and!; try lia; repeat constructor; done.
Qed.

Lemma flat_map_pair_length {A B C} (g : A -> list B * list C) xs :
  (forall x, List.length (g x).1 = List.length (g x).2 /\ List.length (g x).1 <= 2) ->
  List.length (flat_map (fun x => (g x).1) xs) = List.length (flat_map (fun x => (g x).2) xs) /\
  List.length (flat_map (fun x => (g x).1) xs) <= 2 * List.length xs.
Proof.
  intros Hg. induction xs as [|x xs IH]; simpl; [lia|]. rewrite !length_app.
  destruct (Hg x). lia.
Qed.

(** C16: with fuel above the number of subkeys of the opened key, the
    scan returns, with at most two matches per subkey and exactly one
    [FOUND] line per match, on every implementation of the interface
    whose [EnumKey] meets the enumeration law. *)
Theorem search_keys_bounds fuel s hv p term h :
  OpenKey s hv p KEY_READ = Ok h -> List.length (subkey_names s h) < fuel ->
  exists keys l, search_keys fuel s hv p term = Some (keys, l) /\
    List.length keys = List.length l /\ List.length keys <= 2 * List.length (subkey_names s h).
Proof.
  intros Ho Hf. unfold search_keys. rewrite Ho, search_loop_enum by lia. do 2 eexists. split; [done|].
  rewrite drop_0. apply flat_map_pair_length. intros n. by destruct (scan_name_shape s hv p term n) as (? & ? & _).
Qed.

(** C17: every match the scan returns has the type of a match of the
    script: it is in the scanned hive, at [key_path\n] for a subkey name
    [n] that [EnumKey] listed, and a [KEY_NAME_MATCH] has the term in
    [n], without regard to case; on every implementation whose [EnumKey]
    meets the enumeration law. *)
Theorem search_keys_found_shape fuel s hv p term h :
  OpenKey s hv p KEY_READ = Ok h -> List.length (subkey_names s h) < fuel ->
  exists keys l, search_keys fuel s hv p term = Some (keys, l) /\
    Forall (fun f => exists n, In n (subkey_names s h) /\ found_at hv p term n f) keys.
Proof.
  intros Ho Hf. unfold search_keys. rewrite Ho, search_loop_enum by lia. do 2 eexists. split; [done|].
  rewrite drop_0. simpl. apply List.Forall_forall. intros f Hin. apply in_flat_map in Hin as (n & Hn & Hf').
  exists n. split; [done|]. pose proof (scan_name_shape s hv p term n) as (_ & _ & Hs).
  rewrite List.Forall_forall in Hs. by apply Hs.
Qed.
End Enum.

(** The term enters the scan only through [search_term.lower()]. *)
Lemma search_loop_lower fuel s hv p t1 t2 h i acc log :
  py_lower t1 = py_lower t2 ->
  search_loop fuel s hv p t1 h i acc log = search_loop fuel s hv p t2 h i acc log.
Proof.
  intros Ht. revert i acc log. induction fuel as [|f IH]; intros i acc log; simpl; [done|].
  destruct (EnumKey s h i) as [n|]; [|done].
  assert (check_default_value s hv (join_path p n) t1 = check_default_value s hv (join_path p n) t2) as ->
    by (unfold check_default_value; by rewrite Ht).
  rewrite Ht. destruct (py_in _ _), (check_default_value _ _ _ _); apply IH.
Qed.

(** C18: the scan compares the search term without regard to ASCII case:
    two terms that agree after [lower()] give the same matches and the
    same output, on every implementation of the registry interface. *)
Theorem search_keys_case_insensitive fuel s hv p t1 t2 :
  py_lower t1 = py_lower t2 -> search_keys fuel s hv p t1 = search_keys fuel s hv p t2.
Proof.
  intros Ht. unfold search_keys. destruct (OpenKey s hv p KEY_READ); [|done].
  by apply search_loop_lower.
Qed.

(** Every match the scan returns is in the scanned hive. *)
Lemma check_default_value_hive s hv fp term :
  Forall (fun f : found => f.1.1 = hv) (check_default_value s hv fp term).1.
Proof. unfold check_default_value. repeat case_match; simpl; auto. Qed.

Lemma search_loop_hive fuel s hv p term h i acc log keys l :
  Forall (fun f : found => f.1.1 = hv) acc -> search_loop fuel s hv p term h i acc log = Some (keys, l) ->
  Forall (fun f : found => f.1.1 = hv) keys.
Proof.
  revert i acc log. induction fuel as [|f IH]; intros i acc log Hacc; simpl; [done|].
  destruct (EnumKey s h i) as [n|]; [|by intros [= <- _]].
  pose proof (check_default_value_hive s hv (join_path p n) term) as Hc.
  destruct (check_default_value s hv (join_path p n) term) as [f2 l2]. simpl in Hc.
  destruct (py_in _ _); apply IH; rewrite ?Forall_app, ?Forall_cons; naive_solver.
Qed.

Lemma search_keys_hive fuel s hv p term keys l :
  search_keys fuel s hv p term = Some (keys, l) -> Forall (fun f : found => f.1.1 = hv) keys.
Proof. unfold search_keys. destruct (OpenKey s hv p KEY_READ); [|by intros [= <- _]]. by apply search_loop_hive. Qed.

(** Every state [delete_key] reaches is reached by successful
    [DeleteKey] calls, so it keeps every invariant they keep. *)
Section Invariant.
Variable Inv : St -> Prop.
Hypothesis DeleteKey_inv : forall s hv p s', Inv s -> DeleteKey s hv p = Ok s' -> Inv s'.

Lemma delete_key_inv fuel :
  (forall s hv p s' l, Inv s -> delete_key fuel s hv p = Some (s', l) -> Inv s') /\
  (forall s hv p k s' l, Inv s -> delete_subkeys fuel s hv p k = Some (s', l) -> Inv s').
Proof.
  induction fuel as [|f [IH1 IH2]]; split; intros * Hs Hdel; [discriminate|discriminate| |];
    simpl in Hdel;
    repeat match goal with
      | H : (match ?x with _ => _ end) = Some _ |- _ => destruct x eqn:?; simpl in H; try discriminate H
    end;
    injection Hdel as <- _; eauto.
Qed.

End Invariant.
End Generic.

(** ** Deletion on the in-memory registry *)

(** The lines [delete_key] prints for a subtree it deletes: an attempt
    before the subkeys and a success after them (post-order). *)
Fixpoint delete_trace (key_path : string) (k : key) : list event :=
  Attempting key_path ::
  flat_map (fun c => delete_trace (join_path key_path (kname c)) c) (ksubkeys k) ++
  [Deleted key_path].

Definition clear_subkeys (k : key) : key := with_subkeys k [].

Lemma clear_subkeys_keeps_name : keeps_name clear_subkeys.
Proof. done. Qed.

#[export] Hint Resolve clear_subkeys_keeps_name : pyrt.

(** What [delete_key] does to a deletable subtree [k] found at
    [ps ++ [n]]: the state of the store and the log. *)
Definition deletes_ok (k : key) : Prop :=
  forall fuel s hv p ps n,
    wf_key k = true -> all_full k = true ->
    split_path p = ps ++ [n] -> lookup (hive_root s hv) (ps ++ [n]) = Some k ->
    2 * size k <= fuel ->
    delete_key fuel s hv p =
      Some (set_hive_root s hv (alter_at ps (drop_subkey n) (hive_root s hv)), delete_trace p k).

Lemma split_path_nonempty p : split_path p <> [] -> p <> "".
Proof. by intros Hp ->. Qed.

Lemma lookup_first_subkey r segs kcur c cs :
  lookup r segs = Some kcur -> ksubkeys kcur = c :: cs -> lookup r (segs ++ [kname c]) = Some c.
Proof. intros Hl Hs. by rewrite lookup_app, Hl; simpl; rewrite Hs, find_named_head. Qed.

Lemma reg_enum_first s hv segs kcur c cs :
  lookup (hive_root s hv) segs = Some kcur -> ksubkeys kcur = c :: cs ->
  reg_enum s (hv, segs) 0 = Ok (kname c).
Proof. intros Hl Hs. unfold reg_enum; simpl. by rewrite Hl, Hs. Qed.

Lemma drop_first_subkey kcur c cs :
  ksubkeys kcur = c :: cs -> ksubkeys (drop_subkey (kname c) kcur) = cs.
Proof. intros Hs. unfold drop_subkey; simpl. by rewrite Hs; simpl; rewrite named_self. Qed.

(** The [while True] loop deletes the subkeys one after the other. *)
Lemma delete_subkeys_ok cs :
  Forall deletes_ok cs ->
  forall fuel s hv p segs kcur,
    split_path p = segs -> segs <> [] ->
    lookup (hive_root s hv) segs = Some kcur -> ksubkeys kcur = cs ->
    forallb valid_name (map kname cs) = true -> forallb wf_key cs = true ->
    forallb all_full cs = true -> 2 * sum_list_with size cs < fuel ->
    delete_subkeys fuel s hv p (hv, segs) =
      Some (set_hive_root s hv (alter_at segs clear_subkeys (hive_root s hv)),
            flat_map (fun c => delete_trace (join_path p (kname c)) c) cs).
Proof.
  induction 1 as [|c cs Hc Hcs IH];
    intros fuel s hv p segs kcur Hp Hne Hl Hs Hn Hw Hf Hfuel;
    destruct fuel as [|f]; try lia; simpl.
  - unfold reg_enum; simpl. rewrite Hl, Hs. simpl. f_equal. f_equal.
    rewrite (alter_at_fixed _ _ _ kcur Hl); [by rewrite set_hive_root_same|].
    destruct kcur; simpl in *; by subst.
  - rewrite (reg_enum_first _ _ _ _ _ _ Hl Hs). simpl in Hn, Hw, Hf, Hfuel.
    apply andb_prop in Hn as [Hnc Hn], Hw as [Hwc Hw], Hf as [Hfc Hf].
    apply andb_prop in Hnc as [_ Hnc].
    rewrite (Hc f s hv (join_path p (kname c)) segs (kname c)); try done; [|by subst; apply split_path_join_snoc; [apply split_path_nonempty|]|by eapply lookup_first_subkey|lia].
    pose proof (size_pos c).
    erewrite IH; try done; [|by rewrite hive_root_set, lookup_alter_at, Hl|by apply drop_first_subkey|lia].
    rewrite set_hive_root_twice, hive_root_set, alter_at_compose by apply drop_subkey_keeps_name.
    done.
Qed.

Lemma reg_open_at s hv p k acc :
  lookup (hive_root s hv) (split_path p) = Some k -> allows (kacl k) acc = true ->
  reg_open s hv p acc = Ok (hv, split_path p).
Proof. intros Hl Ha. unfold reg_open. by rewrite Hl, Ha. Qed.

(** [DeleteKey] of a key whose subkeys are gone. *)
Lemma reg_delete_leaf s hv p ps n k :
  split_path p = ps ++ [n] -> lookup (hive_root s hv) (ps ++ [n]) = Some k ->
  allows (kacl k) KEY_ALL_ACCESS = true -> ksubkeys k = [] ->
  reg_delete s hv p = Ok (set_hive_root s hv (alter_at ps (drop_subkey n) (hive_root s hv))).
Proof.
  intros Hp Hl Ha Hs. unfold reg_delete, reg_delete_at. rewrite Hp, split_last_snoc, Hl, Ha, Hs. done.
Qed.

Lemma all_full_unfold k :
  all_full k = allows (kacl k) KEY_ALL_ACCESS && forallb all_full (ksubkeys k).
Proof. by destruct k. Qed.

(** Every key is deleted as [deletes_ok] says, by induction on the key
    with [delete_subkeys_ok] for its subkeys. *)
Lemma all_deletes_ok k : deletes_ok k.
Proof.
  induction k as [nm a vs subs IH] using key_ind'.
  intros fuel s hv p ps n Hw Hf Hp Hl Hfuel. destruct fuel as [|f]; [simpl in Hfuel; lia|].
  apply wf_key_unfold in Hw as (Hn & _ & Hw). rewrite all_full_unfold in Hf.
  apply andb_prop in Hf as [Ha Hf]. simpl in *.
  simpl. rewrite (reg_open_at _ _ _ _ _ (eq_ind_r (fun x => lookup _ x = _) Hl Hp) Ha), Hp.
  rewrite (delete_subkeys_ok subs IH f s hv p (ps ++ [n]) (mkKey nm a vs subs)); try done;
    [|intros Hc; by destruct ps|lia].
  simpl. rewrite (reg_delete_leaf _ _ _ ps n (clear_subkeys (mkKey nm a vs subs))); try done;
    [|by rewrite hive_root_set, lookup_alter_at, Hl].
  rewrite set_hive_root_twice, hive_root_set, alter_at_app, alter_at_compose by auto with pyrt.
  f_equal. f_equal. f_equal. apply alter_at_ext. intros x. apply drop_subkey_alter. done.
Qed.


(** C1: [delete_key] on a key whose whole subtree grants full access
    deletes exactly that subtree: the store afterwards is the store with
    the key removed from its parent, and the log holds an attempt line
    before and a success line after the lines of every subkey, in
    post-order.  Fuel twice the number of keys of the subtree suffices,
    so the recursion terminates. *)
Theorem delete_key_removes_subtree k fuel s hv p ps n :
  wf_key k = true -> all_full k = true ->
  split_path p = ps ++ [n] -> lookup (hive_root s hv) (ps ++ [n]) = Some k ->
  2 * size k <= fuel ->
  delete_key fuel s hv p =
    Some (set_hive_root s hv (alter_at ps (drop_subkey n) (hive_root s hv)), delete_trace p k).
Proof. apply all_deletes_ok. Qed.

(** *** A subkey that cannot be deleted *)

(** [delete_key] never returns on [k] found at [ps ++ [n]]. *)
Definition never_returns (k : key) : Prop :=
  forall fuel s hv p ps n,
    wf_key k = true -> allows (kacl k) KEY_ALL_ACCESS = true -> all_full k = false ->
    split_path p = ps ++ [n] -> lookup (hive_root s hv) (ps ++ [n]) = Some k ->
    delete_key fuel s hv p = None.

(** The loop deletes the deletable subkeys [pre], then meets [c]: either
    [c] cannot be opened for deletion, so [delete_key] prints a failure,
    changes nothing, and [EnumKey(key, 0)] returns [c] again; or deleting
    [c] itself never returns. *)
Lemma delete_subkeys_stuck pre c post :
  (allows (kacl c) KEY_ALL_ACCESS = false \/
   (never_returns c /\ allows (kacl c) KEY_ALL_ACCESS = true /\ all_full c = false)) ->
  forall fuel s hv p segs kcur,
    split_path p = segs -> segs <> [] ->
    lookup (hive_root s hv) segs = Some kcur -> ksubkeys kcur = pre ++ c :: post ->
    forallb valid_name (map kname (ksubkeys kcur)) = true ->
    forallb wf_key (ksubkeys kcur) = true -> forallb all_full pre = true ->
    delete_subkeys fuel s hv p (hv, segs) = None.
Proof.
  intros Hc. induction pre as [|x pre IH];
    intros fuel s hv p segs kcur Hp Hne Hl Hs Hn Hw Hf; rewrite Hs in Hn, Hw; simpl in Hn, Hw, Hf;
    apply andb_prop in Hn as [Hnx Hn], Hw as [Hwx Hw]; apply andb_prop in Hnx as [_ Hnx].
  - assert (Hjoin : split_path (join_path p (kname c)) = segs ++ [kname c])
      by (subst; apply split_path_join_snoc; [apply split_path_nonempty|]; done).
    induction fuel as [|f IHf]; [done|]. simpl. rewrite (reg_enum_first _ _ _ _ _ _ Hl Hs). simpl.
    destruct Hc as [Hc|(Hstuck & Ha & Hfull)].
    + assert (delete_key f s hv (join_path p (kname c)) = None \/
              delete_key f s hv (join_path p (kname c)) =
                Some (s, [Attempting (join_path p (kname c));
                          DeleteFailed (join_path p (kname c)) ERROR_ACCESS_DENIED])) as [-> | ->].
      { destruct f as [|f]; [by left|right]. simpl. unfold reg_open.
        by rewrite Hjoin, (lookup_first_subkey _ _ _ _ _ Hl Hs), Hc. }
      { done. }
      simpl. by rewrite IHf.
    + rewrite (Hstuck f s hv _ segs (kname c)); try done. by eapply lookup_first_subkey.
  - destruct fuel as [|f]; [done|]. simpl. rewrite (reg_enum_first _ _ _ _ _ _ Hl Hs). simpl.
    apply andb_prop in Hf as [Hfx Hf].
    destruct (delete_key f s hv (join_path p (kname x))) as [[s1 l1]|] eqn:E; [|done].
    assert (Hjx : split_path (join_path p (kname x)) = segs ++ [kname x])
      by (subst; apply split_path_join_snoc; [apply split_path_nonempty|]; done).
    assert (Hlx : lookup (hive_root s hv) (segs ++ [kname x]) = Some x) by (by eapply lookup_first_subkey).
    pose proof (delete_key_fuel_det _ _ _ _ _ _ _ E
      (all_deletes_ok x (2 * size x) s hv _ segs (kname x) Hwx Hfx Hjx Hlx (le_n _))) as Heq.
    injection Heq as -> ->.
    rewrite (IH f _ hv p segs (drop_subkey (kname x) kcur)); try done;
      try rewrite (drop_first_subkey _ _ _ Hs); try done.
    by rewrite hive_root_set, lookup_alter_at, Hl.
Qed.

(** C2: when [delete_key] can open a key for deletion but the subtree
    below it holds a key it cannot open with [KEY_ALL_ACCESS], it never
    returns: for every fuel it runs out.  The [while True] loop of lines
    42-47 deletes the subkeys before the undeletable one, then calls
    [delete_key] on that subkey forever, since each call fails, prints
    [FAILED], and leaves it first in the enumeration. *)
Theorem delete_key_never_returns k fuel s hv p ps n :
  wf_key k = true -> allows (kacl k) KEY_ALL_ACCESS = true -> all_full k = false ->
  split_path p = ps ++ [n] -> lookup (hive_root s hv) (ps ++ [n]) = Some k ->
  delete_key fuel s hv p = None.
Proof.
  revert fuel s hv p ps n. change (never_returns k).
  induction k as [nm a vs subs IH] using key_ind'.
  intros fuel s hv p ps n Hw Ha Hf Hp Hl. destruct fuel as [|f]; [done|].
  pose proof Hw as Hw'. apply wf_key_unfold in Hw' as (Hn & _ & Hws).
  rewrite all_full_unfold, Ha in Hf. simpl in *.
  destruct (forallb_false_split _ _ Hf) as (pre & c & post & Hsubs & Hpre & Hc).
  assert (never_returns c) as Hcstuck.
  { rewrite Forall_forall in IH. apply IH. rewrite Hsubs, elem_of_app. right. apply list_elem_of_here. }
  rewrite (reg_open_at _ _ _ (mkKey nm a vs subs)); [|by rewrite Hp|done].
  assert (allows (kacl c) KEY_ALL_ACCESS = false \/
          (never_returns c /\ allows (kacl c) KEY_ALL_ACCESS = true /\ all_full c = false)) as Hbad
    by (destruct (allows (kacl c) KEY_ALL_ACCESS); [right|left]; done).
  rewrite Hp, (delete_subkeys_stuck pre c post Hbad f s hv p (ps ++ [n]) (mkKey nm a vs subs)); try done.
  intros Hc'. by destruct ps.
Qed.

(** ** The scan on the in-memory registry *)

(** The default value of a subkey as the script sees it: readable, and a
    Python [str]. *)
Definition default_string (c : key) : option string :=
  if allows (kacl c) KEY_READ then
    match find_value "" (kvalues c) with Some v => py_str_of v | None => None end
  else None.

(** A subkey matches by its name, or by its default value. *)
Definition name_match (term : string) (c : key) : bool := py_in (py_lower term) (py_lower (kname c)).

Definition value_match (term : string) (c : key) : bool :=
  match default_string c with
  | Some v => py_in (py_lower term) (py_lower v)
  | None => false
  end.

(** The matches a subkey [c] of [key_path] contributes, in order. *)
Definition matches_of (hv : hive) (key_path term : string) (c : key) : list found :=
  (if name_match term c then [(hv, join_path key_path (kname c), KEY_NAME_MATCH)] else []) ++
  (if value_match term c then [(hv, join_path key_path (kname c), VALUE_MATCH)] else []).

(** The [FOUND] lines a subkey [c] of [key_path] prints, in order. *)
Definition value_events (key_path term : string) (c : key) : list event :=
  match default_string c with
  | Some v => if py_in (py_lower term) (py_lower v) then [FoundValue (join_path key_path (kname c)) v] else []
  | None => []
  end.

Definition events_of (key_path term : string) (c : key) : list event :=
  (if name_match term c then [FoundKeyName (join_path key_path (kname c))] else []) ++
  value_events key_path term c.

(** What [search_keys] promises for a key [k]: the matches of its
    immediate subkeys, in enumeration order, and the lines it prints. *)
Definition search_spec (hv : hive) (key_path term : string) (k : key) : list found :=
  flat_map (matches_of hv key_path term) (ksubkeys k).

Definition search_log (key_path term : string) (k : key) : list event :=
  flat_map (events_of key_path term) (ksubkeys k).

Lemma check_default_value_spec s hv p segs k c i term :
  split_path p = segs -> segs <> [] -> lookup (hive_root s hv) segs = Some k ->
  wf_key k = true -> nth_error (ksubkeys k) i = Some c ->
  check_default_value s hv (join_path p (kname c)) term =
    (if value_match term c then [(hv, join_path p (kname c), VALUE_MATCH)] else [], value_events p term c).
Proof.
  intros Hp Hne Hl Hw Hc. apply wf_key_unfold in Hw as (Hn & Hnd & _).
  assert (no_bslash (kname c) = true) as Hb.
  { rewrite forallb_forall in Hn. unfold valid_name in Hn.
    exact (proj2 (andb_prop _ _ (Hn _ (in_map _ _ _ (nth_error_In _ _ Hc))))). }
  assert (lookup (hive_root s hv) (split_path (join_path p (kname c))) = Some c) as Hlc.
  { rewrite split_path_join_snoc; [|apply split_path_nonempty; by subst|done].
    rewrite lookup_app, Hp, Hl. simpl. by rewrite (find_named_nth _ _ _ Hnd Hc). }
  unfold check_default_value, value_match, value_events, default_string; simpl. unfold reg_open. rewrite Hlc.
  destruct (allows (kacl c) KEY_READ); [|done]. simpl. unfold reg_query; simpl. rewrite Hlc.
  destruct (find_value "" (kvalues c)) as [v|]; [|done]. simpl.
  destruct (py_str_of v) as [val|]; [|done]. by destruct (py_in _ _).
Qed.

Lemma search_loop_spec s hv p segs k term fuel i acc log :
  split_path p = segs -> segs <> [] -> lookup (hive_root s hv) segs = Some k ->
  wf_key k = true -> List.length (ksubkeys k) - i < fuel ->
  search_loop fuel s hv p term (hv, segs) i acc log =
    Some (acc ++ flat_map (matches_of hv p term) (drop i (ksubkeys k)),
          log ++ flat_map (events_of p term) (drop i (ksubkeys k))).
Proof.
  intros Hp Hne Hl Hw Hfuel.
  assert (Hn : subkey_names s (hv, segs) = map kname (ksubkeys k))
    by (simpl; unfold tree_subkey_names; simpl; by rewrite Hl).
  rewrite search_loop_enum by (by rewrite Hn, length_map).
  rewrite Hn, skipn_map, !flat_map_map. f_equal. f_equal; f_equal;
    apply flat_map_ext_in; intros c Hin; apply in_drop, In_nth_error in Hin as [j Hj];
    unfold scan_name, name_check, matches_of, events_of, name_match;
    rewrite (check_default_value_spec s hv p segs k c j term) by done;
    by destruct (py_in _ _).
Qed.

Lemma search_keys_ok s hv p k term fuel :
  wf_key k = true -> lookup (hive_root s hv) (split_path p) = Some k -> p <> "" ->
  allows (kacl k) KEY_READ = true -> List.length (ksubkeys k) < fuel ->
  search_keys fuel s hv p term = Some (search_spec hv p term k, search_log p term k).
Proof.
  intros Hw Hl Hp Ha Hfuel. unfold search_keys. simpl. rewrite (reg_open_at _ _ _ _ _ Hl Ha).
  assert (split_path p <> []) as Hne by (destruct p; [done|]; apply split_on_nonempty).
  rewrite (search_loop_spec s hv p (split_path p) k); [done..|lia].
Qed.

(** C3: [search_keys] implements [search_spec]: on a key that exists and
    can be read, with fuel above its number of subkeys, it returns, in
    enumeration order, a [KEY_NAME_MATCH] for each subkey whose name
    contains the search term and a [VALUE_MATCH] for each subkey whose
    default value is a string containing it, both compared after
    [lower()]; and it prints a [FOUND] line for each match, with the
    value for a value match ([search_log]). *)
Theorem search_keys_spec s hv p k term fuel :
  wf_key k = true -> lookup (hive_root s hv) (split_path p) = Some k -> p <> "" ->
  allows (kacl k) KEY_READ = true -> List.length (ksubkeys k) < fuel ->
  search_keys fuel s hv p term = Some (search_spec hv p term k, search_log p term k).
Proof. apply search_keys_ok. Qed.

(** C15: a root path that does not exist yields no match and no output:
    the failure of [OpenKey] is swallowed by the [except Exception]. *)
Theorem search_keys_missing_root s hv p term fuel :
  lookup (hive_root s hv) (split_path p) = None ->
  search_keys fuel s hv p term = Some ([], []).
Proof. intros Hl. unfold search_keys. simpl. unfold reg_open. by rewrite Hl. Qed.

(** ** Repeated deletion and the invariant *)

(** [delete_key] of a path that does not exist prints a failure. *)
Lemma delete_key_missing fuel s hv p :
  lookup (hive_root s hv) (split_path p) = None ->
  delete_key (S fuel) s hv p = Some (s, [Attempting p; DeleteFailed p ERROR_FILE_NOT_FOUND]).
Proof. intros Hl. simpl. unfold reg_open. by rewrite Hl. Qed.

Lemma lookup_parent r ps n k : lookup r (ps ++ [n]) = Some k -> exists parent, lookup r ps = Some parent.
Proof. rewrite lookup_app. destruct (lookup r ps); [eauto|done]. Qed.

(** C12: after [delete_key] has deleted a subtree, opening its key fails
    with [ERROR_FILE_NOT_FOUND], whatever the access asked (section 8,
    property 4 of the specification; the order of the deletions, leaves
    first, is the post-order of [delete_trace] in C1). *)
Theorem delete_key_then_open_fails k fuel s hv p ps n :
  wf_key (hive_root s hv) = true -> all_full k = true ->
  split_path p = ps ++ [n] -> lookup (hive_root s hv) (ps ++ [n]) = Some k ->
  2 * size k <= fuel ->
  exists s' l, delete_key fuel s hv p = Some (s', l) /\
    forall acc, reg_open s' hv p acc = Err ERROR_FILE_NOT_FOUND.
Proof.
  intros Hw Hf Hp Hl Hfuel.
  rewrite (all_deletes_ok k fuel s hv p ps n (wf_lookup _ _ _ Hw Hl) Hf Hp Hl Hfuel).
  do 2 eexists. split; [done|]. intros acc. destruct (lookup_parent _ _ _ _ Hl) as [parent Hpar].
  unfold reg_open. by rewrite Hp, hive_root_set, (lookup_deleted _ _ _ _ Hw Hpar).
Qed.

(** C7: the script does not deduplicate its matches, so a key found both
    by name and by value is deleted twice: once a subtree has been
    deleted, deleting it again prints [FAILED] with
    [ERROR_FILE_NOT_FOUND] and changes nothing. *)
Theorem delete_key_twice k fuel fuel' s hv p ps n s' l :
  wf_key (hive_root s hv) = true -> all_full k = true ->
  split_path p = ps ++ [n] -> lookup (hive_root s hv) (ps ++ [n]) = Some k ->
  delete_key fuel s hv p = Some (s', l) ->
  delete_key (S fuel') s' hv p = Some (s', [Attempting p; DeleteFailed p ERROR_FILE_NOT_FOUND]).
Proof.
  intros Hw Hf Hp Hl Hd.
  pose proof (all_deletes_ok k (2 * size k) s hv p ps n
                (wf_lookup _ _ _ Hw Hl) Hf Hp Hl (le_n _)) as Hok.
  injection (delete_key_fuel_det _ _ _ _ _ _ _ Hd Hok) as -> ->.
  destruct (lookup_parent _ _ _ _ Hl) as [parent Hpar].
  apply delete_key_missing. by rewrite Hp, hive_root_set, (lookup_deleted _ _ _ _ Hw Hpar).
Qed.

(** ** What a deletion may remove *)

Lemma reg_open_handle s hv p acc h : reg_open s hv p acc = Ok h -> h = (hv, split_path p).
Proof. unfold reg_open. destruct (lookup _ _); [|done]. destruct (allows _ _); [|done]. by intros [= <-]. Qed.

(** The subkeys of a well-formed key have names without a backslash. *)
Lemma wf_subkey_name k c : wf_key k = true -> In c (ksubkeys k) -> no_bslash (kname c) = true.
Proof.
  intros Hw Hc. apply wf_key_unfold in Hw as (Hv & _ & _). rewrite forallb_forall in Hv.
  pose proof (Hv _ (in_map kname _ _ Hc)) as Hn. unfold valid_name in Hn. by apply andb_prop in Hn as [_ Hn].
Qed.

Lemma join_path_nonempty p n : join_path p n <> "".
Proof. unfold join_path. by destruct p. Qed.

(** The names [EnumKey] lists in a well-formed store have no backslash. *)
Lemma reg_enum_name s hv segs i n : wf_store s = true -> reg_enum s (hv, segs) i = Ok n -> no_bslash n = true.
Proof.
  unfold reg_enum; simpl. intros Hw. destruct (lookup (hive_root s hv) segs) as [k|] eqn:Hl; [|done].
  destruct (nth_error (ksubkeys k) i) as [c|] eqn:Hc; [|done]. intros [= <-].
  eapply wf_subkey_name; [exact (wf_lookup _ _ _ (wf_store_root s hv Hw) Hl)|exact (nth_error_In _ _ Hc)].
Qed.

(** [delete_key] of [p] deletes at or below [p], whether it succeeds or
    fails on the way. *)
Lemma delete_key_frame fuel :
  (forall s hv p s' l, wf_store s = true -> p <> "" -> delete_key fuel s hv p = Some (s', l) ->
     deletes_below hv (split_path p) s s') /\
  (forall s hv p s' l, wf_store s = true -> p <> "" ->
     delete_subkeys fuel s hv p (hv, split_path p) = Some (s', l) -> deletes_below hv (split_path p) s s').
Proof.
  induction fuel as [|f [IH1 IH2]]; split; intros * Hw Hp Hd; [discriminate|discriminate| |]; simpl in Hd.
  - destruct (reg_open s hv p KEY_ALL_ACCESS) as [h|e] eqn:Eo; [|injection Hd as <- _; by apply deletes_below_refl].
    rewrite (reg_open_handle _ _ _ _ _ Eo) in Hd.
    destruct (delete_subkeys f s hv p _) as [[s1 l1]|] eqn:E1; [|discriminate].
    pose proof (IH2 _ _ _ _ _ Hw Hp E1) as D1. assert (Hw1 : wf_store s1 = true) by apply D1.
    destruct (reg_delete s1 hv p) as [s2|e] eqn:Ed; injection Hd as <- _; [|done].
    by eapply deletes_below_trans; [exact D1|apply reg_delete_at_frame].
  - destruct (reg_enum s (hv, split_path p) 0) as [n|e] eqn:Ee; [|injection Hd as <- _; by apply deletes_below_refl].
    destruct (delete_key f s hv (join_path p n)) as [[s1 l1]|] eqn:E1; [|discriminate].
    destruct (delete_subkeys f s1 hv p _) as [[s2 l2]|] eqn:E2; [|discriminate]. injection Hd as <- _.
    assert (D1 : deletes_below hv (split_path p) s s1).
    { apply (deletes_below_app _ _ [n]). rewrite <- split_path_join_snoc by (done || exact (reg_enum_name _ _ _ _ _ Hw Ee)).
      eapply IH1; [done| |exact E1]. unfold join_path. by destruct p. }
    assert (Hw1 : wf_store s1 = true) by apply D1.
    eapply deletes_below_trans; [exact D1|exact (IH2 _ _ _ _ _ Hw1 Hp E2)].
Qed.

(** More fuel does not change the result of the scan loop. *)
Lemma search_loop_fuel_mono fuel fuel' s hv p term h i acc log r :
  fuel <= fuel' -> search_loop fuel s hv p term h i acc log = Some r ->
  search_loop fuel' s hv p term h i acc log = Some r.
Proof.
  revert fuel' i acc log. induction fuel as [|f IH]; intros [|f'] i acc log Hle Hs; try done; [lia|].
  simpl in Hs |- *. destruct (reg_enum s h i) as [n|]; [|done].
  destruct (py_in _ _), (check_default_value _ _ _ _); apply IH; [lia|done|lia|done].
Qed.

(** Whatever the fuel, a scan that returns returns [search_spec] of the
    target key when it can be read, and nothing otherwise. *)
Lemma search_keys_found fuel s hv p term keys l :
  wf_store s = true -> p <> "" -> search_keys fuel s hv p term = Some (keys, l) ->
  keys = match lookup (hive_root s hv) (split_path p) with
         | Some k => if allows (kacl k) KEY_READ then search_spec hv p term k else []
         | None => []
         end.
Proof.
  intros Hw Hp Hs. destruct (lookup (hive_root s hv) (split_path p)) as [k|] eqn:Hl.
  - destruct (allows (kacl k) KEY_READ) eqn:Ha.
    + pose proof (search_keys_ok s hv p k term (fuel + S (List.length (ksubkeys k)))
                    (wf_lookup _ _ _ (wf_store_root s hv Hw) Hl) Hl Hp Ha ltac:(lia)) as Hspec.
      revert Hs Hspec. unfold search_keys. simpl. rewrite (reg_open_at _ _ _ _ _ Hl Ha).
      intros Hs. rewrite (search_loop_fuel_mono fuel (fuel + S (List.length (ksubkeys k))) _ _ _ _ _ _ _ _ _ ltac:(lia) Hs).
      congruence.
    + revert Hs. unfold search_keys. simpl. unfold reg_open. rewrite Hl, Ha. congruence.
  - revert Hs. unfold search_keys. simpl. unfold reg_open. rewrite Hl. congruence.
Qed.

(** Each match of [search_spec] names a matching subkey of the key, one
    segment below it. *)
Lemma in_search_spec hv p term k f :
  wf_key k = true -> p <> "" -> In f (search_spec hv p term k) ->
  exists c, In c (ksubkeys k) /\ (name_match term c || value_match term c) = true /\
    f.1.1 = hv /\ f.1.2 <> "" /\ split_path f.1.2 = split_path p ++ [kname c].
Proof.
  unfold search_spec. intros Hw Hp Hf. apply in_flat_map in Hf as (c & Hc & Hf). exists c.
  rewrite <- split_path_join_snoc by eauto using wf_subkey_name.
  assert (f.1 = (hv, join_path p (kname c))) as ->; [|split_and!; eauto using join_path_nonempty].
  - unfold matches_of in Hf. destruct (name_match term c), (value_match term c); simpl in Hf; intuition; by subst.
  - unfold matches_of in Hf. destruct (name_match term c), (value_match term c); simpl in Hf; intuition.
Qed.

(** ** A sample registry and the witnesses *)

Definition leaf (n : string) (a : acl) (vs : list (string * regval)) : key := mkKey n a vs [].

(** The keys on the way to a subtree, all readable and writable. *)
Fixpoint nest (names : list string) (subs : list key) : list key :=
  match names with
  | [] => subs
  | n :: rest => [mkKey n FullControl [] (nest rest subs)]
  end.

Definition ag_shell : key :=
  mkKey "AntigravityShell" FullControl [("", REG_SZ "Open with Antigravity")]
    [leaf "command" FullControl [("", REG_EXPAND_SZ "antigravity.exe %V")]].

Definition hkcu_shell : list key := [
  ag_shell;
  leaf "Bar" FullControl [("", REG_SZ "Open PowerShell")];
  leaf "Foo" FullControl [("", REG_SZ "Launch ANTIGRAVITY Here")];
  leaf "Multi" FullControl [("", REG_MULTI_SZ ["Antigravity"])];
  leaf "Hidden" NoAccess [("", REG_SZ "Antigravity")]
].

(** [HKEY_LOCAL_MACHINE] holds a matching key the user may read but not
    delete. *)
Definition hklm_shell (extra : list key) : list key :=
  leaf "antigravity.open" ReadOnly [("", REG_SZ "antigravity")] :: extra.

Definition sample_root (hkcu_subs hklm_subs : list key) : regstore :=
  mkStore
    (mkKey "" FullControl [] (nest ["Directory"; "shell"] [ag_shell]))
    (mkKey "" FullControl []
       (nest ["Software"; "Classes"]
          [mkKey "Directory" FullControl []
             [mkKey "shell" FullControl [] hkcu_subs;
              mkKey "Background" FullControl [] (nest ["shell"] [ag_shell])]]))
    (mkKey "" FullControl [] (nest ["SOFTWARE"; "Classes"; "Directory"; "shell"] hklm_subs)).

Definition sample_store : regstore := sample_root hkcu_shell (hklm_shell []).

(** The same registry with a matching key whose [command] subkey the user
    cannot delete. *)
Definition stuck_key : key :=
  mkKey "AntigravityStuck" FullControl [("", REG_SZ "x")] [leaf "command" ReadOnly []].

Definition stuck_store : regstore := sample_root hkcu_shell (hklm_shell [stuck_key]).

Definition ag_path : string := "Software\Classes\Directory\shell\AntigravityShell".
Definition shell_segs : list string := ["Software"; "Classes"; "Directory"; "shell"].

Lemma delete_key_removes_subtree_witness :
  delete_key 4 sample_store HKEY_CURRENT_USER ag_path =
    Some (set_hive_root sample_store HKEY_CURRENT_USER
            (alter_at shell_segs (drop_subkey "AntigravityShell") (hive_root sample_store HKEY_CURRENT_USER)),
          delete_trace ag_path ag_shell).
Proof. apply (delete_key_removes_subtree ag_shell); vm_compute; reflexivity. Defined.

Lemma delete_key_never_returns_witness :
  delete_key 1000 stuck_store HKEY_LOCAL_MACHINE "SOFTWARE\Classes\Directory\shell\AntigravityStuck" = None.
Proof.
  apply (delete_key_never_returns stuck_key 1000 stuck_store HKEY_LOCAL_MACHINE _
                        ["SOFTWARE"; "Classes"; "Directory"; "shell"] "AntigravityStuck");
    vm_compute; reflexivity.
Defined.

Definition shell_path : string := "Software\Classes\Directory\shell".

(** The scan of the sample: [AntigravityShell] by name and by value,
    [Foo] by value (in capitals), and nothing for [Bar], for the
    [REG_MULTI_SZ] value of [Multi], or for the unreadable [Hidden]. *)
Lemma search_keys_spec_witness :
  search_keys 6 sample_store HKEY_CURRENT_USER shell_path "Antigravity" =
    Some ([(HKEY_CURRENT_USER, ag_path, KEY_NAME_MATCH);
           (HKEY_CURRENT_USER, ag_path, VALUE_MATCH);
           (HKEY_CURRENT_USER, "Software\Classes\Directory\shell\Foo", VALUE_MATCH)],
          [FoundKeyName ag_path;
           FoundValue ag_path "Open with Antigravity";
           FoundValue "Software\Classes\Directory\shell\Foo" "Launch ANTIGRAVITY Here"]).
Proof.
  rewrite (search_keys_spec _ _ _ (mkKey "shell" FullControl [] hkcu_shell)); try (vm_compute; reflexivity).
  intros Hc. discriminate Hc.
Defined.

Lemma search_keys_missing_root_witness :
  search_keys 5 sample_store HKEY_CLASSES_ROOT "Directory\Background\shell" "Antigravity" = Some ([], []).
Proof. apply search_keys_missing_root. vm_compute. reflexivity. Defined.

Definition sample_after_ag : regstore :=
  set_hive_root sample_store HKEY_CURRENT_USER
    (alter_at shell_segs (drop_subkey "AntigravityShell") (hive_root sample_store HKEY_CURRENT_USER)).

Lemma delete_key_twice_witness :
  delete_key 1 sample_after_ag HKEY_CURRENT_USER ag_path =
    Some (sample_after_ag, [Attempting ag_path; DeleteFailed ag_path ERROR_FILE_NOT_FOUND]).
Proof.
  apply (delete_key_twice ag_shell 4 0 sample_store HKEY_CURRENT_USER ag_path shell_segs
           "AntigravityShell" sample_after_ag (delete_trace ag_path ag_shell));
    vm_compute; reflexivity.
Defined.

Lemma search_keys_case_insensitive_witness :
  search_keys 6 sample_store HKEY_CURRENT_USER shell_path "ANTIGRAVITY" =
    search_keys 6 sample_store HKEY_CURRENT_USER shell_path "antigravity".
Proof. apply search_keys_case_insensitive. vm_compute. reflexivity. Defined.

Lemma delete_key_then_open_fails_witness :
  exists s' l, delete_key 4 sample_store HKEY_CURRENT_USER ag_path = Some (s', l) /\
    forall acc, reg_open s' HKEY_CURRENT_USER ag_path acc = Err ERROR_FILE_NOT_FOUND.
Proof.
  apply (delete_key_then_open_fails ag_shell 4 sample_store HKEY_CURRENT_USER ag_path shell_segs "AntigravityShell");
    vm_compute; reflexivity.
Defined.

Lemma search_keys_bounds_witness :
  exists keys l, search_keys 6 sample_store HKEY_CURRENT_USER shell_path "Antigravity" = Some (keys, l) /\
    List.length keys = List.length l /\
    List.length keys <= 2 * List.length (subkey_names sample_store (HKEY_CURRENT_USER, shell_segs)).
Proof.
  apply (search_keys_bounds 6 sample_store HKEY_CURRENT_USER shell_path "Antigravity" (HKEY_CURRENT_USER, shell_segs));
    vm_compute; [reflexivity|lia].
Defined.


Lemma search_keys_found_shape_witness :
  exists keys l, search_keys 6 sample_store HKEY_CURRENT_USER shell_path "Antigravity" = Some (keys, l) /\
    Forall (fun f => exists n, In n (subkey_names sample_store (HKEY_CURRENT_USER, shell_segs)) /\
                               found_at HKEY_CURRENT_USER shell_path "Antigravity" n f) keys.
Proof.
  apply (search_keys_found_shape 6 sample_store HKEY_CURRENT_USER shell_path "Antigravity"
           (HKEY_CURRENT_USER, shell_segs)); vm_compute; [reflexivity|lia].
Defined.
