(* ===== verification/CleanRegMain.v ===== *)
(** * [src/scripts/clean_reg.py]: the module-level code

    Lines 55-71 of the script: the six [targets], the loop that scans
    each one and deletes every match it found ([scan_targets], with the
    inner loop [delete_matches]) and the start and end lines ([main], in
    a module named after the script).

    What one iteration of the loop does to the registry is specified by
    [purge_target]: a readable target key loses exactly its matching
    subkeys.  The theorems show that the whole run is the composition of
    these purges over the targets, which lie in different hives or on
    paths that part; that a second run on the result changes nothing;
    that any run that returns, on any registry and with any fuel, removes
    only keys at or below a matching subkey of a readable target key
    ([main_removes_only_matches], from the frame lemma [deletes_below] of
    each [DeleteKey]); and that a matching subkey the user cannot open for
    full access survives every run, which reports [ERROR_ACCESS_DENIED]
    for it. *)

From S2P Require Import Prelude PyStr Winreg CleanReg.
From Stdlib Require Import String Ascii.

Open Scope list_scope.

(** ** The script *)

Section Script.
Context {St Hd : Type} `{Winreg St Hd}.

(** Lines 68-69: delete every match, whatever its reason. *)
Fixpoint delete_matches (fuel : nat) (s : St) (keys : list found) : option (St * list event) :=
  match keys with
  | [] => Some (s, [])
  | (h, k, _) :: rest =>
      let? (s1, l1) := delete_key fuel s h k in
      let? (s2, l2) := delete_matches fuel s1 rest in
      Some (s2, l1 ++ l2)
  end.
End Script.

(** Lines 55-62. *)
Definition targets : list (hive * string) := [
  (HKEY_CURRENT_USER, "Software\Classes\Directory\shell"%string);
  (HKEY_CURRENT_USER, "Software\Classes\Directory\Background\shell"%string);
  (HKEY_LOCAL_MACHINE, "SOFTWARE\Classes\Directory\shell"%string);
  (HKEY_LOCAL_MACHINE, "SOFTWARE\Classes\Directory\Background\shell"%string);
  (HKEY_CLASSES_ROOT, "Directory\shell"%string);
  (HKEY_CLASSES_ROOT, "Directory\Background\shell"%string)
].

Section Main.
Context {St Hd : Type} `{Winreg St Hd}.

(** Lines 65-69: scan each target, then delete what it found. *)
Fixpoint scan_targets (fuel : nat) (s : St) (ts : list (hive * string))
  : option (St * list event) :=
  match ts with
  | [] => Some (s, [])
  | (hv, path) :: rest =>
      let? (keys, l1) := search_keys fuel s hv path "Antigravity"%string in
      let? (s1, l2) := delete_matches fuel s keys in
      let? (s2, l3) := scan_targets fuel s1 rest in
      Some (s2, l1 ++ l2 ++ l3)
  end.

End Main.

(** The script's entry point, in a module named after the script. *)
Module clean_reg.
Section Main.
Context {St Hd : Type} `{Winreg St Hd}.
(** Lines 64-71. *)
Definition main (fuel : nat) (s : St) : option (St * list event) :=
  let? (s1, l) := scan_targets fuel s targets in
  Some (s1, StartingScan :: l ++ [ScanComplete]).
End Main.
End clean_reg.
Export clean_reg.

(** ** Lemmas that hold for every implementation of [Winreg] *)

Section Generic.
Context {St Hd : Type} `{Winreg St Hd}.

Lemma delete_matches_app fuel s l1 l2 :
  delete_matches fuel s (l1 ++ l2) =
    let? (s1, a) := delete_matches fuel s l1 in
    let? (s2, b) := delete_matches fuel s1 l2 in
    Some (s2, a ++ b).
Proof.
  revert s. induction l1 as [|[[h k] r] l1 IH]; intros s; simpl.
  - by destruct (delete_matches fuel s l2) as [[]|].
  - destruct (delete_key fuel s h k) as [[s1 a]|]; simpl; [|done]. rewrite IH.
    destruct (delete_matches fuel s1 l1) as [[s2 b]|]; simpl; [|done].
    destruct (delete_matches fuel s2 l2) as [[s3 c]|]; simpl; [|done]. by rewrite app_assoc.
Qed.

(** The states the module loop reaches keep every invariant that
    [DeleteKey] keeps. *)
Section Invariant.
Variable Inv : St -> Prop.
Hypothesis DeleteKey_inv : forall s hv p s', Inv s -> DeleteKey s hv p = Ok s' -> Inv s'.

Lemma delete_matches_inv fuel keys s s' l :
  Inv s -> delete_matches fuel s keys = Some (s', l) -> Inv s'.
Proof.
  revert s l. induction keys as [|[[h k] r] keys IH]; intros s l Hs; simpl; [by intros [= <- _]|].
  destruct (delete_key fuel s h k) as [[s1 l1]|] eqn:E1; [|done].
  destruct (delete_matches fuel s1 keys) as [[s2 l2]|] eqn:E2; [|done].
  intros [= <- _]. eapply IH; [|exact E2]. by eapply (proj1 (delete_key_inv Inv DeleteKey_inv fuel)).
Qed.

Lemma scan_targets_inv fuel ts s s' l :
  Inv s -> scan_targets fuel s ts = Some (s', l) -> Inv s'.
Proof.
  revert s l. induction ts as [|[hv p] ts IH]; intros s l Hs; simpl; [by intros [= <- _]|].
  destruct (search_keys fuel s hv p _) as [[keys l1]|]; [|done].
  destruct (delete_matches fuel s keys) as [[s1 l2]|] eqn:E1; [|done].
  destruct (scan_targets fuel s1 ts) as [[s2 l3]|] eqn:E2; [|done].
  intros [= <- _]. eapply IH; [|exact E2]. by eapply delete_matches_inv.
Qed.
End Invariant.
End Generic.

(** ** The purge of a target *)

(** What one iteration of the module loop promises: a readable target
    key loses exactly its matching subkeys. *)
Definition is_target (term : string) (c : key) : bool := name_match term c || value_match term c.

Definition purge (term : string) (k : key) : key :=
  if allows (kacl k) KEY_READ
  then with_subkeys k (List.filter (fun c => negb (is_target term c)) (ksubkeys k))
  else k.

Definition purge_target (term : string) (s : regstore) (t : hive * string) : regstore :=
  let '(hv, p) := t in set_hive_root s hv (alter_at (split_path p) (purge term) (hive_root s hv)).

(** The lines the deletions print for a subkey [c]: its subtree's trace
    when it matched, followed by a failed second attempt when it matched
    both by name and by value. *)
Definition purge_trace (p term : string) (c : key) : list event :=
  let path := join_path p (kname c) in
  if name_match term c && value_match term c
  then delete_trace path c ++ [Attempting path; DeleteFailed path ERROR_FILE_NOT_FOUND]
  else if is_target term c then delete_trace path c else [].

Lemma purge_keeps_name term : keeps_name (purge term).
Proof. intros k. unfold purge. by destruct (allows _ _). Qed.

Lemma wf_purge term k : wf_key k = true -> wf_key (purge term k) = true.
Proof. unfold purge. destruct (allows _ _); [|done]. apply wf_with_sublist, filter_sublist. Qed.

#[export] Hint Resolve purge_keeps_name wf_purge : pyrt.

Lemma drop_subkey_middle kcur kept c cs :
  ksubkeys kcur = kept ++ c :: cs -> nodup_names (map kname (ksubkeys kcur)) = true ->
  ksubkeys (drop_subkey (kname c) kcur) = kept ++ cs.
Proof.
  intros Hs Hnd. rewrite Hs in Hnd. unfold drop_subkey; simpl.
  rewrite Hs, remove_first_app by exact (find_named_before _ _ _ Hnd). simpl. by rewrite named_self.
Qed.

Lemma lookup_middle r segs kcur kept c cs :
  lookup r segs = Some kcur -> ksubkeys kcur = kept ++ c :: cs ->
  nodup_names (map kname (ksubkeys kcur)) = true -> lookup r (segs ++ [kname c]) = Some c.
Proof.
  intros Hl Hs Hnd. rewrite lookup_app, Hl. simpl.
  rewrite (find_named_nth _ (List.length kept) c Hnd); [done|].
  rewrite Hs, nth_error_app2, Nat.sub_diag by lia. done.
Qed.

(** The state after [delete_key] has removed the subkey [c] of the key
    at [p]. *)
Definition without_child (s : regstore) (hv : hive) (p : string) (c : key) : regstore :=
  set_hive_root s hv (alter_at (split_path p) (drop_subkey (kname c)) (hive_root s hv)).

(** Deleting a deletable subkey [c] of the key at [p], and deleting it
    again. *)
Lemma delete_child fuel s hv p kcur kept c cs :
  p <> "" -> wf_key (hive_root s hv) = true ->
  lookup (hive_root s hv) (split_path p) = Some kcur -> ksubkeys kcur = kept ++ c :: cs ->
  all_full c = true -> 2 * size c <= fuel ->
  let s1 := without_child s hv p c in
  delete_key fuel s hv (join_path p (kname c)) = Some (s1, delete_trace (join_path p (kname c)) c) /\
  delete_key fuel s1 hv (join_path p (kname c)) =
    Some (s1, [Attempting (join_path p (kname c)); DeleteFailed (join_path p (kname c)) ERROR_FILE_NOT_FOUND]) /\
  lookup (hive_root s1 hv) (split_path p) = Some (drop_subkey (kname c) kcur) /\
  wf_key (hive_root s1 hv) = true.
Proof.
  intros Hp Hw Hl Hs Hfull Hfuel s1.
  pose proof (wf_lookup _ _ _ Hw Hl) as Hwk. apply wf_key_unfold in Hwk as (Hn & Hnd & _).
  assert (Hjoin : split_path (join_path p (kname c)) = split_path p ++ [kname c]).
  { apply split_path_join_snoc; [done|]. rewrite Hs, forallb_forall in Hn.
    pose proof (Hn (kname c) ltac:(apply in_map, in_or_app; right; by left)) as Hv.
    unfold valid_name in Hv. by apply andb_prop in Hv as [_ Hv]. }
  pose proof (lookup_middle _ _ _ _ _ _ Hl Hs Hnd) as Hlc.
  split_and!.
  - exact (all_deletes_ok c fuel s hv _ (split_path p) (kname c) (wf_lookup _ _ _ Hw Hlc) Hfull Hjoin Hlc Hfuel).
  - pose proof (size_pos c). destruct fuel as [|f]; [lia|]. apply delete_key_missing.
    rewrite Hjoin. destruct (lookup_parent _ _ _ _ Hlc) as [parent Hpar].
    unfold s1, without_child. by rewrite hive_root_set, (lookup_deleted _ _ _ _ Hw Hpar).
  - unfold s1, without_child. by rewrite hive_root_set, lookup_alter_at, Hl.
  - unfold s1, without_child. rewrite hive_root_set. apply wf_alter_at; auto with pyrt. apply wf_drop_subkey.
Qed.

Lemma without_child_alter s hv p c L :
  set_hive_root (without_child s hv p c) hv
    (alter_at (split_path p) (fun x => with_subkeys x L) (hive_root (without_child s hv p c) hv)) =
  set_hive_root s hv (alter_at (split_path p) (fun x => with_subkeys x L) (hive_root s hv)).
Proof.
  unfold without_child. rewrite set_hive_root_twice, hive_root_set, alter_at_compose by auto with pyrt.
  by apply (f_equal (set_hive_root s hv)), alter_at_ext.
Qed.

(** The deletions of the matches of [cs], the subkeys of [kcur] after
    [kept]: each matching subkey is deleted, the second match of a subkey
    fails, and the key keeps [kept] and the subkeys of [cs] that do not
    match. *)
Lemma delete_matches_purge fuel term s hv p kcur kept cs :
  p <> "" -> wf_key (hive_root s hv) = true ->
  lookup (hive_root s hv) (split_path p) = Some kcur -> ksubkeys kcur = kept ++ cs ->
  (forall c, In c cs -> is_target term c = true -> all_full c = true /\ 2 * size c <= fuel) ->
  delete_matches fuel s (flat_map (matches_of hv p term) cs) =
    Some (set_hive_root s hv
            (alter_at (split_path p)
               (fun x => with_subkeys x (kept ++ List.filter (fun c => negb (is_target term c)) cs))
               (hive_root s hv)),
          flat_map (purge_trace p term) cs).
Proof.
  revert s kcur kept. induction cs as [|c cs IH]; intros s kcur kept Hp Hw Hl Hs Hc; simpl.
  - rewrite (alter_at_fixed _ _ _ kcur Hl); [by rewrite set_hive_root_same|].
    by rewrite <- Hs, with_subkeys_eta.
  - rewrite delete_matches_app. unfold matches_of at 1. unfold purge_trace at 1.
    destruct (is_target term c) eqn:Ht.
    + destruct (Hc c (or_introl eq_refl) Ht) as [Hfull Hfuel].
      destruct (delete_child fuel s hv p kcur kept c cs) as (Hdel & Hmiss & Hl1 & Hw1); try done.
      pose proof (wf_lookup _ _ _ Hw Hl) as Hwk. apply wf_key_unfold in Hwk as (_ & Hnd & _).
      pose proof (IH _ _ kept Hp Hw1 Hl1 (drop_subkey_middle _ _ _ _ Hs Hnd)
                    (fun c' Hin => Hc c' (or_intror Hin))) as Hrest.
      unfold is_target in Ht.
      destruct (name_match term c), (value_match term c); try discriminate; simpl;
        rewrite Hdel; simpl; rewrite ?Hmiss; simpl; rewrite Hrest, without_child_alter; simpl;
        by rewrite <- ?app_assoc.
    + unfold is_target in Ht. apply orb_false_iff in Ht as [Hnm Hvm]. rewrite Hnm, Hvm. simpl.
      rewrite (IH s kcur (kept ++ [c])); [|done|done|done|by rewrite <- app_assoc|
        intros c' Hin; apply Hc; by right].
      by rewrite <- app_assoc.
Qed.

Lemma scan_target_found s hv p k term fuel :
  wf_key (hive_root s hv) = true -> p <> "" -> lookup (hive_root s hv) (split_path p) = Some k ->
  allows (kacl k) KEY_READ = true -> 2 * size k <= fuel ->
  (forall c, In c (ksubkeys k) -> is_target term c = true -> all_full c = true) ->
  search_keys fuel s hv p term = Some (search_spec hv p term k, search_log p term k) /\
    delete_matches fuel s (search_spec hv p term k) =
      Some (purge_target term s (hv, p), flat_map (purge_trace p term) (ksubkeys k)).
Proof.
  intros Hw Hp Hl Ha Hfuel Hc. pose proof (length_subkeys_lt k).
  split; [apply search_keys_ok; [exact (wf_lookup _ _ _ Hw Hl)|done..|lia]|]. unfold search_spec.
  rewrite (delete_matches_purge fuel term s hv p k [] (ksubkeys k)); try done.
  - simpl. do 3 f_equal. apply (alter_at_agree _ _ _ _ k Hl). unfold purge. by rewrite Ha.
  - intros c Hin Ht. split; [by apply Hc|]. pose proof (size_subkey k c Hin). lia.
Qed.

(** The lines one iteration of the module loop prints for a target, as
    the key found there before the iteration determines them. *)
Definition target_log (term : string) (s : regstore) (t : hive * string) : list event :=
  let '(hv, p) := t in
  match lookup (hive_root s hv) (split_path p) with
  | Some k => if allows (kacl k) KEY_READ
              then search_log p term k ++ flat_map (purge_trace p term) (ksubkeys k) else []
  | None => []
  end.

(** A target whose key is missing or unreadable is left alone. *)
Lemma scan_target_ok s hv p term fuel :
  wf_key (hive_root s hv) = true -> p <> "" ->
  (forall k, lookup (hive_root s hv) (split_path p) = Some k ->
     2 * size k <= fuel /\ forall c, In c (ksubkeys k) -> is_target term c = true -> all_full c = true) ->
  exists keys l1 l2, search_keys fuel s hv p term = Some (keys, l1) /\
    delete_matches fuel s keys = Some (purge_target term s (hv, p), l2) /\
    l1 ++ l2 = target_log term s (hv, p).
Proof.
  intros Hw Hp Hk. unfold target_log.
  destruct (lookup (hive_root s hv) (split_path p)) as [k|] eqn:Hl.
  - destruct (Hk k eq_refl) as [Hfuel Hc]. destruct (allows (kacl k) KEY_READ) eqn:Ha.
    + destruct (scan_target_found s hv p k term fuel) as (H1 & H2); try done. eauto 10.
    + exists [], [], []. unfold search_keys. simpl. unfold reg_open. rewrite Hl, Ha. split_and!; [done| |done].
      unfold purge_target. rewrite (alter_at_fixed _ _ _ k Hl); [by rewrite set_hive_root_same|].
      unfold purge. by rewrite Ha.
  - exists [], [], []. unfold search_keys. simpl. unfold reg_open. rewrite Hl. split_and!; [done| |done].
    unfold purge_target. by rewrite alter_at_none, set_hive_root_same.
Qed.

(** *** The six targets *)

(** Two targets in different hives, or whose paths part. *)
Definition apart (t t' : hive * string) : bool :=
  let '(hv, p) := t in let '(hv', p') := t' in
  negb (bool_decide (hv = hv')) || diverge (split_path p) (split_path p').

Fixpoint targets_apart (ts : list (hive * string)) : bool :=
  match ts with
  | [] => true
  | t :: rest => forallb (apart t) rest && targets_apart rest
  end.

(** The matching subkeys of [k] grant full access in their whole
    subtree. *)
Definition matches_deletable (term : string) (k : key) : bool :=
  forallb (fun c => negb (is_target term c) || all_full c) (ksubkeys k).

Lemma matches_deletable_spec term k :
  matches_deletable term k = true ->
  forall c, In c (ksubkeys k) -> is_target term c = true -> all_full c = true.
Proof.
  unfold matches_deletable. rewrite forallb_forall. intros Hc c Hin Ht.
  specialize (Hc c Hin). by rewrite Ht in Hc.
Qed.

(** A target whose key, if any, is small enough for the fuel and whose
    matching subkeys grant full access. *)
Definition purgeable (term : string) (fuel : nat) (s : regstore) (t : hive * string) : bool :=
  let '(hv, p) := t in
  negb (String.eqb p "") &&
  match lookup (hive_root s hv) (split_path p) with
  | Some k => (2 * size k <=? fuel)%nat && matches_deletable term k
  | None => true
  end.

Lemma lookup_purge_apart term s t hv' p' :
  apart t (hv', p') = true ->
  lookup (hive_root (purge_target term s t) hv') (split_path p') = lookup (hive_root s hv') (split_path p').
Proof.
  destruct t as [hv p]. simpl. destruct (decide (hv = hv')) as [<-|Hne].
  - rewrite bool_decide_true by done. simpl. intros Hd.
    rewrite hive_root_set. apply lookup_alter_diverge; auto with pyrt.
  - intros _. by rewrite hive_root_set_other.
Qed.

Lemma target_log_apart term s t t' :
  apart t t' = true -> target_log term (purge_target term s t) t' = target_log term s t'.
Proof. destruct t' as [hv' p']. intros Ha. unfold target_log. by rewrite lookup_purge_apart. Qed.

Lemma purgeable_apart term fuel s t t' :
  apart t t' = true -> purgeable term fuel (purge_target term s t) t' = purgeable term fuel s t'.
Proof. destruct t' as [hv' p']. intros Ha. unfold purgeable. by rewrite lookup_purge_apart. Qed.

Lemma purgeable_spec term fuel s hv p :
  purgeable term fuel s (hv, p) = true ->
  p <> "" /\
  forall k, lookup (hive_root s hv) (split_path p) = Some k ->
    2 * size k <= fuel /\ forall c, In c (ksubkeys k) -> is_target term c = true -> all_full c = true.
Proof.
  unfold purgeable. rewrite andb_true_iff, negb_true_iff. intros [Hp Hk]. split.
  - intros ->. done.
  - intros k Hl. rewrite Hl, andb_true_iff, Nat.leb_le in Hk. destruct Hk as [Hf Hc].
    split; [done|]. by apply matches_deletable_spec.
Qed.

Lemma wf_store_purge term s t : wf_store s = true -> wf_store (purge_target term s t) = true.
Proof.
  destruct t as [hv p]. intros Hw. apply wf_store_set; [done|].
  apply wf_alter_at; auto with pyrt. by apply wf_store_root.
Qed.

Lemma scan_targets_purge fuel s ts :
  targets_apart ts = true -> wf_store s = true -> forallb (purgeable "Antigravity" fuel s) ts = true ->
  scan_targets fuel s ts =
    Some (fold_left (purge_target "Antigravity") ts s, flat_map (target_log "Antigravity" s) ts).
Proof.
  revert s. induction ts as [|[hv p] ts IH]; intros s Hap Hw Hok; cbn -[purge_target target_log]; [done|].
  simpl in Hap, Hok. apply andb_prop in Hap as [Hap1 Hap2]. apply andb_prop in Hok as [Hok1 Hok2].
  apply purgeable_spec in Hok1 as [Hp Hk].
  destruct (scan_target_ok s hv p "Antigravity" fuel) as (keys & l1 & l2 & -> & -> & Hlog);
    [by apply wf_store_root|done|done|]. cbn -[purge_target scan_targets target_log].
  rewrite forallb_forall in Hap1, Hok2.
  rewrite IH; [|done|by apply wf_store_purge|].
  - rewrite app_assoc, Hlog. do 3 f_equal. apply flat_map_ext_in. intros t Hin. apply target_log_apart; auto.
  - apply forallb_forall. intros t Hin. rewrite purgeable_apart; auto.
Qed.

Lemma targets_are_apart : targets_apart targets = true.
Proof. vm_compute. reflexivity. Qed.

(** C6: one iteration of the module loop on a target whose key exists
    and can be read, with fuel twice the size of that key and matching
    subkeys that grant full access in their whole subtree: [search_keys]
    returns the matches of [search_spec], and deleting them removes
    exactly the matching subkeys, keeping the others in order
    ([purge_target]).  Each matching subkey prints the trace of its
    deletion, and one that matched both by name and by value is attempted
    a second time and prints [FAILED] with [ERROR_FILE_NOT_FOUND]. *)
Theorem scan_target_purges s hv p k term fuel :
  wf_key (hive_root s hv) = true -> p <> "" -> lookup (hive_root s hv) (split_path p) = Some k ->
  allows (kacl k) KEY_READ = true -> 2 * size k <= fuel -> matches_deletable term k = true ->
  search_keys fuel s hv p term = Some (search_spec hv p term k, search_log p term k) /\
    delete_matches fuel s (search_spec hv p term k) =
      Some (purge_target term s (hv, p), flat_map (purge_trace p term) (ksubkeys k)).
Proof. intros Hw Hp Hl Ha Hf Hd. apply scan_target_found; try done. by apply matches_deletable_spec. Qed.

(** C4: the whole run of the script purges the six targets one after the
    other: when the store is well formed and every target key that exists
    is small enough for the fuel and its matching subkeys grant full
    access, [main] returns the store in which each readable target key
    has lost exactly its matching subkeys and nothing else has changed,
    and prints, between its start and end lines, for each target in
    order its [FOUND] lines and the traces of its deletions
    ([target_log]).  The targets lie in different hives or on paths that
    part, so purging one leaves the others as they were. *)
Theorem main_purges fuel s :
  wf_store s = true -> forallb (purgeable "Antigravity" fuel s) targets = true ->
  main fuel s =
    Some (fold_left (purge_target "Antigravity") targets s,
          StartingScan :: flat_map (target_log "Antigravity" s) targets ++ [ScanComplete]).
Proof.
  intros Hw Hok. unfold main. by rewrite scan_targets_purge by (apply targets_are_apart || done).
Qed.

(** *** Running the script twice *)

Lemma apart_sym t t' : apart t t' = apart t' t.
Proof.
  destruct t as [hv p], t' as [hv' p']. unfold apart.
  rewrite diverge_sym. f_equal. f_equal. apply bool_decide_ext. split; congruence.
Qed.

Lemma filter_idem {A} (q : A -> bool) l : List.filter q (List.filter q l) = List.filter q l.
Proof. induction l as [|x l IH]; simpl; [done|]. destruct (q x) eqn:E; simpl; [by rewrite E, IH|done]. Qed.

Lemma purge_idem term k : purge term (purge term k) = purge term k.
Proof.
  unfold purge. destruct (allows (kacl k) KEY_READ) eqn:Ha; [|by rewrite Ha].
  simpl. rewrite Ha. unfold with_subkeys; simpl. by rewrite filter_idem.
Qed.

Lemma lookup_purge_self term s hv p :
  lookup (hive_root (purge_target term s (hv, p)) hv) (split_path p) =
    option_map (purge term) (lookup (hive_root s hv) (split_path p)).
Proof. simpl. rewrite hive_root_set. apply lookup_alter_at. auto with pyrt. Qed.

(** Purges of targets that part from [t] leave the key at [t] alone. *)
Lemma lookup_fold_apart term ts s hv p :
  (forall t', In t' ts -> apart t' (hv, p) = true) ->
  lookup (hive_root (fold_left (purge_target term) ts s) hv) (split_path p) =
    lookup (hive_root s hv) (split_path p).
Proof.
  revert s. induction ts as [|t' ts IH]; intros s Hap; simpl; [done|].
  rewrite IH by (intros; apply Hap; by right). apply lookup_purge_apart, Hap. by left.
Qed.

(** After the purges of the targets, the key at a target is its purge. *)
Lemma lookup_fold_purge term ts s hv p :
  targets_apart ts = true -> In (hv, p) ts ->
  lookup (hive_root (fold_left (purge_target term) ts s) hv) (split_path p) =
    option_map (purge term) (lookup (hive_root s hv) (split_path p)).
Proof.
  revert s. induction ts as [|t0 ts IH]; intros s Hap Hin; [done|]. simpl in Hap |- *.
  apply andb_prop in Hap as [Hap1 Hap2]. rewrite forallb_forall in Hap1.
  destruct Hin as [->|Hin].
  - rewrite lookup_fold_apart; [apply lookup_purge_self|]. intros t' Ht'. rewrite apart_sym. by apply Hap1.
  - rewrite IH by done. by rewrite lookup_purge_apart by (by apply Hap1).
Qed.

(** Purging targets whose keys are already purged changes nothing. *)
Lemma fold_purge_fixed term ts s :
  (forall hv p k, In (hv, p) ts -> lookup (hive_root s hv) (split_path p) = Some k -> purge term k = k) ->
  fold_left (purge_target term) ts s = s.
Proof.
  revert s. induction ts as [|[hv p] ts IH]; intros s Hfix; cbn [fold_left]; [done|].
  assert (purge_target term s (hv, p) = s) as ->; [|apply IH; intros; eapply Hfix; [by right|done]].
  simpl. destruct (lookup (hive_root s hv) (split_path p)) as [k|] eqn:Hl.
  - rewrite (alter_at_fixed _ _ _ k Hl); [apply set_hive_root_same|]. eapply Hfix; [by left|done].
  - by rewrite alter_at_none, set_hive_root_same.
Qed.

Lemma wf_fold_purge term ts s : wf_store s = true -> wf_store (fold_left (purge_target term) ts s) = true.
Proof. revert s. induction ts as [|t ts IH]; intros s Hw; simpl; [done|]. apply IH. by apply wf_store_purge. Qed.

Lemma events_unmatched p term l :
  flat_map (events_of p term) (List.filter (fun c => negb (is_target term c)) l) = [].
Proof.
  induction l as [|c l IH]; simpl; [done|]. unfold is_target at 1.
  destruct (name_match term c) eqn:H1, (value_match term c) eqn:H2; simpl; try done.
  unfold events_of at 1, value_events. unfold value_match in H2. rewrite H1, IH.
  by destruct (default_string c) as [v|]; [rewrite H2|].
Qed.

Lemma traces_unmatched p term l :
  flat_map (purge_trace p term) (List.filter (fun c => negb (is_target term c)) l) = [].
Proof.
  induction l as [|c l IH]; simpl; [done|]. destruct (is_target term c) eqn:Ht; simpl; [done|].
  unfold purge_trace at 1. rewrite Ht, IH. unfold is_target in Ht.
  apply orb_false_iff in Ht as [-> ->]. done.
Qed.

(** A purged target prints nothing and is purgeable with the same fuel. *)
Lemma purged_target term fuel s hv p k :
  purgeable term fuel s (hv, p) = true -> lookup (hive_root s hv) (split_path p) = Some k ->
  let k' := purge term k in
  (2 * size k' <=? fuel)%nat && matches_deletable term k' = true /\
  (if allows (kacl k') KEY_READ
   then search_log p term k' ++ flat_map (purge_trace p term) (ksubkeys k') else []) = [].
Proof.
  intros Hok Hl k'. unfold purgeable in Hok. rewrite Hl in Hok.
  apply andb_prop in Hok as [_ Hok]. apply andb_prop in Hok as [Hf Hd].
  unfold k', purge. destruct (allows (kacl k) KEY_READ) eqn:Ha; cbn -[Nat.leb Nat.mul size search_log]; rewrite ?Ha; [|split; [apply andb_true_intro; split; [exact Hf|exact Hd]|done]].
  unfold search_log, with_subkeys. cbn [ksubkeys]. rewrite events_unmatched, traces_unmatched. split; [|done].
  apply andb_true_iff. split.
  - apply Nat.leb_le. apply Nat.leb_le in Hf. pose proof (size_with_sublist k _ (filter_sublist (fun c => negb (is_target term c)) (ksubkeys k))). unfold with_subkeys in *. lia.
  - unfold matches_deletable. simpl. apply forallb_forall. intros c Hc. apply filter_In in Hc as [_ Hc].
    by rewrite Hc.
Qed.

(** Purging targets that lie apart a second time changes nothing: the
    targets are then purgeable with the same fuel and print nothing. *)
Lemma purge_fixpoint term fuel ts s :
  targets_apart ts = true -> forallb (purgeable term fuel s) ts = true ->
  let s1 := fold_left (purge_target term) ts s in
  fold_left (purge_target term) ts s1 = s1 /\ flat_map (target_log term s1) ts = [] /\
  forallb (purgeable term fuel s1) ts = true.
Proof.
  intros Hap Hok s1.
  assert (Hl1 : forall hv p, In (hv, p) ts ->
            lookup (hive_root s1 hv) (split_path p) = option_map (purge term) (lookup (hive_root s hv) (split_path p)))
    by (intros; by apply lookup_fold_purge).
  rewrite forallb_forall in Hok. split_and!.
  - apply fold_purge_fixed. intros hv p k' Hin Hk'. rewrite Hl1 in Hk' by done.
    destruct (lookup (hive_root s hv) (split_path p)); simplify_eq/=. apply purge_idem.
  - apply flat_map_nil_in. intros [hv p] Hin. unfold target_log. rewrite Hl1 by done.
    destruct (lookup (hive_root s hv) (split_path p)) as [k|] eqn:Hl; [|done].
    apply (purged_target term fuel s hv p k); [by apply Hok|done].
  - apply forallb_forall. intros [hv p] Hin. pose proof (Hok _ Hin) as Hp. unfold purgeable.
    rewrite Hl1 by done. unfold purgeable in Hp. apply andb_prop in Hp as [Hp _].
    rewrite Hp. simpl. destruct (lookup (hive_root s hv) (split_path p)) as [k|] eqn:Hl; [|done]. simpl.
    apply (purged_target term fuel s hv p k); [|done]. by apply Hok.
Qed.

(** C8: running the script a second time, on the registry the first run
    left, prints only its start and end lines and changes nothing: every
    target has lost its matches, so the second scan finds none and no
    deletion is attempted (section 8, property 6 of the specification,
    in a stronger form). *)
Theorem main_idempotent fuel s s1 l1 :
  wf_store s = true -> forallb (purgeable "Antigravity" fuel s) targets = true ->
  main fuel s = Some (s1, l1) -> main fuel s1 = Some (s1, [StartingScan; ScanComplete]).
Proof.
  intros Hw Hok Hm. unfold main in *.
  rewrite scan_targets_purge in Hm by (apply targets_are_apart || done).
  assert (Hs1 : fold_left (purge_target "Antigravity") targets s = s1) by congruence. clear Hm.
  destruct (purge_fixpoint "Antigravity" fuel targets s targets_are_apart Hok) as (Hfix & Hlog & Hok1).
  rewrite Hs1 in Hfix, Hlog, Hok1.
  rewrite scan_targets_purge; [|apply targets_are_apart|rewrite <- Hs1; by apply wf_fold_purge|done].
  by rewrite Hfix, Hlog.
Qed.

(** *** What any run may remove *)

(** [n] names a subkey of the target [(hv, p)] that the scan reports: the
    target key exists, can be read, and has a subkey [n] that matches
    the search term by name or by default value. *)
Definition target_child (s : regstore) (hv : hive) (p n : string) : Prop :=
  exists k c, lookup (hive_root s hv) (split_path p) = Some k /\ allows (kacl k) KEY_READ = true /\
    In c (ksubkeys k) /\ is_target "Antigravity" c = true /\ kname c = n.

(** A key at [qs] in hive [hv] lies at or below a reported child of one
    of the targets [ts]. *)
Definition matched_below (s : regstore) (ts : list (hive * string)) (hv : hive) (qs : list string) : Prop :=
  exists p n, In (hv, p) ts /\ target_child s hv p n /\ name_prefix (split_path p ++ [n]) qs = true.

(** Whatever the fuel, every key the scan of a target returns is a
    reported child of it. *)
Lemma search_keys_matches fuel s hv p keys l :
  wf_store s = true -> p <> "" -> search_keys fuel s hv p "Antigravity" = Some (keys, l) ->
  forall f, In f keys ->
    f.1.1 = hv /\ f.1.2 <> "" /\ exists n, target_child s hv p n /\ split_path f.1.2 = split_path p ++ [n].
Proof.
  intros Hw Hp Hs f Hf. rewrite (search_keys_found _ _ _ _ _ _ _ Hw Hp Hs) in Hf.
  destruct (lookup (hive_root s hv) (split_path p)) as [k|] eqn:Hl; [|done].
  destruct (allows (kacl k) KEY_READ) eqn:Ha; [|done].
  apply in_search_spec in Hf as (c & Hc & Ht & H1 & H2 & H3);
    [|exact (wf_lookup _ _ _ (wf_store_root s hv Hw) Hl)|done].
  split_and!; [done|done|]. exists (kname c). split; [|done]. by exists k, c.
Qed.

(** Deleting keys that all lie one segment below [ps] in [hv], with
    names satisfying [N], deletes at or below [ps], and only at or below
    those names. *)
Lemma delete_matches_below fuel s hv ps (N : string -> Prop) keys s' l :
  wf_store s = true ->
  (forall f, In f keys -> f.1.1 = hv /\ f.1.2 <> "" /\ exists n, N n /\ split_path f.1.2 = ps ++ [n]) ->
  delete_matches fuel s keys = Some (s', l) ->
  deletes_below hv ps s s' /\
    removed_within (fun hv' qs => hv' = hv /\ exists n, N n /\ name_prefix (ps ++ [n]) qs = true) s s'.
Proof.
  revert s l. induction keys as [|[[h k] r] rest IH]; intros s l Hw Hk Hd; simpl in Hd.
  - injection Hd as <- _. split; [by apply deletes_below_refl|apply removed_within_refl].
  - destruct (delete_key fuel s h k) as [[s1 l1]|] eqn:E1; [|discriminate].
    destruct (delete_matches fuel s1 rest) as [[s2 l2]|] eqn:E2; [|discriminate]. injection Hd as <- _.
    destruct (Hk _ (or_introl eq_refl)) as (Hh & Hne & n & Hn & Hsp). simpl in Hh, Hne, Hsp. subst h.
    pose proof (proj1 (delete_key_frame fuel) _ _ _ _ _ Hw Hne E1) as D1. rewrite Hsp in D1.
    destruct (IH s1 l2) as [D2 R2]; [apply D1|intros f Hf; apply Hk; by right|done|].
    split; [by eapply deletes_below_trans; [apply deletes_below_app in D1|]|].
    refine (removed_within_trans _ _ _ _ _ _ _ (fun _ _ H => H) (proj1 (proj2 D1)) R2).
    intros ? ? [-> Hq]. split; [done|]. by exists n.
Qed.

(** What one target's deletions leave untouched includes every target
    apart from it. *)
Lemma lookup_apart s s1 hv p hv' p' :
  apart (hv, p) (hv', p') = true -> unchanged_apart hv (split_path p) s s1 ->
  lookup (hive_root s1 hv') (split_path p') = lookup (hive_root s hv') (split_path p').
Proof.
  intros Ha U. apply U. simpl in Ha.
  destruct (decide (hv' = hv)) as [->|Hne]; [|by left]. right. by rewrite bool_decide_true in Ha.
Qed.

Lemma target_child_apart s s1 hv p hv' p' n :
  apart (hv, p) (hv', p') = true -> unchanged_apart hv (split_path p) s s1 ->
  target_child s1 hv' p' n -> target_child s hv' p' n.
Proof. intros Ha U. unfold target_child. by rewrite (lookup_apart s s1 hv p hv' p'). Qed.

(** A path of hive [hv] that parts from every target of [ts] in [hv]. *)
Definition outside (ts : list (hive * string)) (hv : hive) (qs : list string) : Prop :=
  forall p, In (hv, p) ts -> diverge (split_path p) qs = true.

(** The scan of apart targets with nonempty paths removes only keys at
    or below a reported child of one of them, and leaves every path
    outside the targets as it was, whatever the fuel. *)
Lemma scan_targets_below fuel s ts s' l :
  wf_store s = true -> targets_apart ts = true -> Forall (fun t => t.2 <> "") ts ->
  scan_targets fuel s ts = Some (s', l) ->
  wf_store s' = true /\ removed_within (matched_below s ts) s s' /\
    forall hv qs, outside ts hv qs -> lookup (hive_root s' hv) qs = lookup (hive_root s hv) qs.
Proof.
  revert s l. induction ts as [|[hv p] ts IH]; intros s l Hw Hap Hne Hd; simpl in Hd.
  - injection Hd as <- _. split_and!; [done|apply removed_within_refl|done].
  - apply Forall_cons in Hne as [Hp Hne]. simpl in Hap, Hp. apply andb_prop in Hap as [Hap1 Hap2].
    destruct (search_keys fuel s hv p _) as [[keys l1]|] eqn:Es; [|discriminate].
    destruct (delete_matches fuel s keys) as [[s1 l2]|] eqn:Ed; [|discriminate].
    destruct (scan_targets fuel s1 ts) as [[s2 l3]|] eqn:Er; [|discriminate]. injection Hd as <- _.
    destruct (delete_matches_below _ _ _ _ _ _ _ _ Hw (search_keys_matches _ _ _ _ _ _ Hw Hp Es) Ed)
      as [(U & _ & Hw1) R1].
    destruct (IH s1 l3 Hw1 Hap2 Hne Er) as (Hw2 & R2 & O2). split_and!; [done| |].
    + eapply removed_within_trans; [| |exact R1|exact R2].
      * intros ? ? [-> (n & Hn & Hq)]. exists p, n. split_and!; [by left|done|done].
      * intros hv' qs (p' & n & Hin & Hc & Hq). exists p', n. split_and!; [by right|
          eapply target_child_apart; [|exact U|exact Hc]|done].
        rewrite forallb_forall in Hap1. exact (Hap1 _ Hin).
    + intros hv' qs Ho. rewrite O2 by (intros p' Hin; apply Ho; by right).
      apply U. destruct (decide (hv' = hv)) as [->|]; [right; apply Ho; by left|by left].
Qed.

Lemma targets_nonempty : Forall (fun t => t.2 <> "") targets.
Proof. repeat constructor; simpl; discriminate. Qed.

(** *** A match the user cannot delete *)

(** [DeleteKey] of a key the user may not open for full access fails at
    once, leaving the store as it was. *)
Lemma delete_key_denied fuel s hv q c :
  lookup (hive_root s hv) (split_path q) = Some c -> allows (kacl c) KEY_ALL_ACCESS = false ->
  delete_key (S fuel) s hv q = Some (s, [Attempting q; DeleteFailed q ERROR_ACCESS_DENIED]).
Proof. intros Hl Ha. cbn. unfold reg_open. by rewrite Hl, Ha. Qed.

(** Deleting keys that each lie in another hive than [qs], part from it,
    or name it, leaves a key at [qs] that denies full access in place,
    and reports every attempt on it as [ERROR_ACCESS_DENIED]. *)
Lemma delete_matches_denied fuel s hv qs c keys s' l :
  wf_store s = true -> lookup (hive_root s hv) qs = Some c -> allows (kacl c) KEY_ALL_ACCESS = false ->
  (forall f, In f keys -> f.1.2 <> "" /\ (f.1.1 <> hv \/ diverge (split_path f.1.2) qs = true \/ split_path f.1.2 = qs)) ->
  delete_matches fuel s keys = Some (s', l) ->
  lookup (hive_root s' hv) qs = Some c /\
    forall f, In f keys -> f.1.1 = hv -> split_path f.1.2 = qs -> In (DeleteFailed f.1.2 ERROR_ACCESS_DENIED) l.
Proof.
  revert s l. induction keys as [|[[h k] r] rest IH]; intros s l Hw Hl Ha Hk Hd; simpl in Hd.
  - injection Hd as <- _. by split.
  - destruct (delete_key fuel s h k) as [[s1 l1]|] eqn:E1; [|discriminate].
    destruct (delete_matches fuel s1 rest) as [[s2 l2]|] eqn:E2; [|discriminate]. injection Hd as <- <-.
    destruct (Hk _ (or_introl eq_refl)) as [Hne Hcase]. simpl in Hne, Hcase.
    assert (wf_store s1 = true /\ lookup (hive_root s1 hv) qs = Some c /\
            (h = hv -> split_path k = qs -> In (DeleteFailed k ERROR_ACCESS_DENIED) l1)) as (Hw1 & Hl1 & Hlog1).
    { destruct (decide (h = hv)) as [->|Hh]; [destruct Hcase as [Hc0|[Hdv| <-]]|].
      - congruence.
      - destruct (proj1 (delete_key_frame fuel) _ _ _ _ _ Hw Hne E1) as (U & _ & Hw1).
        split_and!; [done|by rewrite U; [|right]|]. intros _ Heq. by rewrite Heq, diverge_irrefl in Hdv.
      - destruct fuel as [|f]; [discriminate|]. rewrite (delete_key_denied _ _ _ _ c) in E1 by done.
        injection E1 as <- <-. split_and!; [done|done|intros _ _; simpl; auto].
      - destruct (proj1 (delete_key_frame fuel) _ _ _ _ _ Hw Hne E1) as (U & _ & Hw1).
        split_and!; [done|by rewrite U; [|left]|done]. }
    destruct (IH s1 l2 Hw1 Hl1 Ha (fun f Hf => Hk f (or_intror Hf)) E2) as [Hl2 Hlog2]. split; [done|].
    intros f [<-|Hf] Hh Hq; apply in_or_app; [left; by apply Hlog1|right; by apply Hlog2].
Qed.

(** A matching subkey of a target key is one of the matches its scan
    returns. *)
Lemma in_search_spec_child hv p term k c :
  In c (ksubkeys k) -> is_target term c = true -> exists r, In (hv, join_path p (kname c), r) (search_spec hv p term k).
Proof.
  unfold is_target, search_spec, matches_of. intros Hc Ht.
  destruct (name_match term c) eqn:En, (value_match term c) eqn:Ev; try done;
    eexists; apply in_flat_map; exists c; (split; [done|]); simpl; rewrite En, Ev; simpl; by left.
Qed.

(** The paths below a target lie outside the targets apart from it. *)
Lemma apart_outside hv p ts rs : forallb (apart (hv, p)) ts = true -> outside ts hv (split_path p ++ rs).
Proof.
  intros Hap p' Hin. rewrite forallb_forall in Hap. specialize (Hap _ Hin). simpl in Hap.
  rewrite bool_decide_true in Hap by done. rewrite diverge_sym. by apply diverge_app.
Qed.

Lemma scan_targets_denied fuel s ts s' l hv p k c :
  wf_store s = true -> targets_apart ts = true -> Forall (fun t => t.2 <> "") ts -> In (hv, p) ts ->
  lookup (hive_root s hv) (split_path p) = Some k -> allows (kacl k) KEY_READ = true ->
  In c (ksubkeys k) -> is_target "Antigravity" c = true -> allows (kacl c) KEY_ALL_ACCESS = false ->
  scan_targets fuel s ts = Some (s', l) ->
  lookup (hive_root s' hv) (split_path p ++ [kname c]) = Some c /\
    In (DeleteFailed (join_path p (kname c)) ERROR_ACCESS_DENIED) l.
Proof.
  revert s l. induction ts as [|[hv0 p0] ts IH]; intros s l Hw Hap Hne Hin Hl Hr Hc Ht Ha Hd; [done|].
  simpl in Hd. apply Forall_cons in Hne as [Hp0 Hne]. simpl in Hap, Hp0. apply andb_prop in Hap as [Hap1 Hap2].
  destruct (search_keys fuel s hv0 p0 _) as [[keys l1]|] eqn:Es; [|discriminate].
  destruct (delete_matches fuel s keys) as [[s1 l2]|] eqn:Ed; [|discriminate].
  destruct (scan_targets fuel s1 ts) as [[s2 l3]|] eqn:Er; [|discriminate]. injection Hd as <- <-.
  destruct (delete_matches_below _ _ _ _ _ _ _ _ Hw (search_keys_matches _ _ _ _ _ _ Hw Hp0 Es) Ed)
    as [(U & _ & Hw1) _].
  destruct Hin as [[= -> ->]|Hin].
  - pose proof (wf_lookup _ _ _ (wf_store_root s hv Hw) Hl) as Hwk.
    pose proof Hwk as (_ & Hnd & _)%wf_key_unfold.
    assert (Hqs : lookup (hive_root s hv) (split_path p ++ [kname c]) = Some c).
    { rewrite lookup_app, Hl. apply In_nth_error in Hc as [i Hi]. simpl. by rewrite (find_named_nth _ _ _ Hnd Hi). }
    pose proof (search_keys_found _ _ _ _ _ _ _ Hw Hp0 Es) as Hk. rewrite Hl, Hr in Hk. subst keys.
    destruct (delete_matches_denied fuel _ _ _ _ (search_spec hv p "Antigravity" k) s1 l2 Hw Hqs Ha) as [Hl1 Hlog]; [|exact Ed|].
    { intros f Hf. destruct (in_search_spec _ _ _ _ _ Hwk Hp0 Hf) as (c' & Hc' & _ & _ & H2 & ->).
      split; [done|right]. destruct (name_eqb (kname c') (kname c)) eqn:E.
      - right. by rewrite (nodup_names_eq _ _ _ Hnd Hc' Hc E).
      - left. by apply diverge_snoc. }
    destruct (in_search_spec_child hv p "Antigravity" k c Hc Ht) as [r Hf].
    destruct (scan_targets_below _ _ _ _ _ Hw1 Hap2 Hne Er) as (_ & _ & O).
    split; [rewrite O; [done|by apply apart_outside]|].
    apply in_or_app. right. apply in_or_app. left. apply (Hlog _ Hf); [done|].
    apply split_path_join_snoc; [done|by eapply wf_subkey_name].
  - assert (lookup (hive_root s1 hv) (split_path p) = Some k) as Hl1.
    { rewrite (lookup_apart s s1 hv0 p0 hv p); [done| |done]. rewrite forallb_forall in Hap1. exact (Hap1 _ Hin). }
    destruct (IH s1 l3 Hw1 Hap2 Hne Hin Hl1 Hr Hc Ht Ha Er) as [Hl2 Hlog]. split; [done|].
    apply in_or_app. right. apply in_or_app. by right.
Qed.

(** C13: a matching subkey of a readable target key that the user may
    not open for full access (a key under [HKEY_LOCAL_MACHINE] without
    administrator rights) survives every run of the script, whatever the
    fuel: the run prints [FAILED] with [ERROR_ACCESS_DENIED] for it, and
    the key is still there, so the next run scans it and fails again
    (contrary to section 8, property 6 of the specification, which says a
    second run finds nothing to delete). *)
Theorem undeletable_match_reported fuel s s' l hv p k c :
  wf_store s = true -> In (hv, p) targets -> lookup (hive_root s hv) (split_path p) = Some k ->
  allows (kacl k) KEY_READ = true -> In c (ksubkeys k) -> is_target "Antigravity" c = true ->
  allows (kacl c) KEY_ALL_ACCESS = false -> main fuel s = Some (s', l) ->
  lookup (hive_root s' hv) (split_path p ++ [kname c]) = Some c /\
    In (DeleteFailed (join_path p (kname c)) ERROR_ACCESS_DENIED) l.
Proof.
  intros Hw Hin Hl Hr Hc Ht Ha Hm. unfold main in Hm.
  destruct (scan_targets fuel s targets) as [[s1 l1]|] eqn:E; [|discriminate]. injection Hm as <- <-.
  destruct (scan_targets_denied _ _ _ _ _ _ _ _ _ Hw targets_are_apart targets_nonempty Hin Hl Hr Hc Ht Ha E)
    as [Hs Hlog].
  split; [done|]. right. apply in_or_app. by left.
Qed.

(** C10: whatever the fuel and whatever the registry holds (keys the
    script cannot read or delete included), a run of the script that
    returns has removed only keys at or below a subkey that the scan
    of one of the six targets reported: a subkey of a readable target
    key whose name or default value contains the search term.  Every
    other key of every hive is still there. *)
Theorem main_removes_only_matches fuel s s' l :
  wf_store s = true -> main fuel s = Some (s', l) ->
  forall hv qs, lookup (hive_root s hv) qs <> None -> lookup (hive_root s' hv) qs = None ->
  exists p n, In (hv, p) targets /\ target_child s hv p n /\ name_prefix (split_path p ++ [n]) qs = true.
Proof.
  intros Hw Hm. unfold main in Hm.
  destruct (scan_targets fuel s targets) as [[s1 l1]|] eqn:E; [|discriminate]. injection Hm as <- _.
  exact (proj1 (proj2 (scan_targets_below _ _ _ _ _ Hw targets_are_apart targets_nonempty E))).
Qed.

(** ** Samples and witnesses *)

(** The run of the script on the sample registry, computed. *)
Definition sample_run : option (regstore * list event) := Eval vm_compute in main 10 sample_store.
Definition sample_final : regstore := match sample_run with Some (s', _) => s' | None => sample_store end.
Definition sample_log : list event := match sample_run with Some (_, l) => l | None => [] end.

(** A registry whose matching keys can all be deleted: the [HKLM] target
    holds a copy of [AntigravityShell] instead of the read-only key. *)
Definition purge_store : regstore := sample_root hkcu_shell [ag_shell].

Definition hkcu_shell_key : key := mkKey "shell" FullControl [] hkcu_shell.

Lemma scan_target_purges_witness :
    search_keys 20 purge_store HKEY_CURRENT_USER shell_path "Antigravity" =
      Some (search_spec HKEY_CURRENT_USER shell_path "Antigravity" hkcu_shell_key,
            search_log shell_path "Antigravity" hkcu_shell_key) /\
    delete_matches 20 purge_store (search_spec HKEY_CURRENT_USER shell_path "Antigravity" hkcu_shell_key) =
      Some (purge_target "Antigravity" purge_store (HKEY_CURRENT_USER, shell_path),
            flat_map (purge_trace shell_path "Antigravity") (ksubkeys hkcu_shell_key)).
Proof.
  apply scan_target_purges; try (vm_compute; reflexivity); [|vm_compute; lia].
  intros Hc. discriminate Hc.
Defined.

Lemma main_purges_witness :
  main 20 purge_store =
    Some (fold_left (purge_target "Antigravity") targets purge_store,
          StartingScan :: flat_map (target_log "Antigravity" purge_store) targets ++ [ScanComplete]).
Proof. apply main_purges; vm_compute; reflexivity. Defined.

(** The first run on [purge_store], computed, and a second run on its
    result. *)
Definition purge_run : option (regstore * list event) := Eval vm_compute in main 20 purge_store.
Definition purge_final : regstore := match purge_run with Some (s', _) => s' | None => purge_store end.
Definition purge_log : list event := match purge_run with Some (_, l) => l | None => [] end.

Lemma main_idempotent_witness : main 20 purge_final = Some (purge_final, [StartingScan; ScanComplete]).
Proof.
  apply (main_idempotent 20 purge_store purge_final purge_log); vm_compute; reflexivity.
Defined.

(** The key [HKEY_CURRENT_USER\...\shell\AntigravityShell\command],
    removed by the run on the sample registry, lies below a reported
    child of the first target. *)
Lemma main_removes_only_matches_witness :
  exists p n, In (HKEY_CURRENT_USER, p) targets /\ target_child sample_store HKEY_CURRENT_USER p n /\
    name_prefix (split_path p ++ [n]) (shell_segs ++ ["AntigravityShell"; "command"]) = true.
Proof.
  apply (main_removes_only_matches 10 sample_store sample_final sample_log);
    [vm_compute; reflexivity|vm_compute; reflexivity|vm_compute; discriminate|vm_compute; reflexivity].
Defined.

(** The sample's [HKLM] target and its read-only matching key. *)
Definition hklm_target : string := "SOFTWARE\Classes\Directory\shell".
Definition ro_key : key := leaf "antigravity.open" ReadOnly [("", REG_SZ "antigravity")].

Lemma undeletable_match_reported_witness :
  lookup (hive_root sample_final HKEY_LOCAL_MACHINE) (split_path hklm_target ++ [kname ro_key]) = Some ro_key /\
    In (DeleteFailed (join_path hklm_target (kname ro_key)) ERROR_ACCESS_DENIED) sample_log.
Proof.
  apply (undeletable_match_reported 10 sample_store sample_final sample_log HKEY_LOCAL_MACHINE hklm_target
           (mkKey "shell" FullControl [] (hklm_shell [])) ro_key);
    [vm_compute; reflexivity|do 2 right; left; reflexivity|vm_compute; reflexivity|vm_compute; reflexivity
    |simpl; by left|vm_compute; reflexivity|vm_compute; reflexivity|vm_compute; reflexivity].
Defined.

