(* ===== verification/Refinement.v ===== *)
(** * The script on an implementation that agrees with the in-memory
    registry on some hives

    [clean_reg.py] reaches the registry only through [OpenKey],
    [EnumKey], [QueryValueEx] and [DeleteKey].  An implementation of the
    [Winreg] interface whose calls agree with those of [tree_winreg],
    through an abstraction of its states ([absS]) and handles ([absH]),
    on the hives [dom] holds of, runs the targets in those hives as the
    in-memory registry does: it prints the same lines and reaches a state
    whose abstraction is the state reached on the in-memory registry
    ([scan_targets_sim]).  [MergedView.v] uses it to carry the theorems on
    the first four targets over to the registry as Windows stores it. *)

From S2P Require Import Prelude PyStr Winreg CleanReg CleanRegMain.
From Stdlib Require Import String.

Open Scope list_scope.

(** The abstraction of a result of the script. *)
Definition abs_run {St : Type} (absS : St -> regstore) (r : option (St * list event))
  : option (regstore * list event) :=
  option_map (fun '(s', l) => (absS s', l)) r.

(** An open key of the in-memory registry lies in the hive it was opened in. *)
Lemma reg_open_hive s hv p acc h : reg_open s hv p acc = Ok h -> h.1 = hv.
Proof.
  unfold reg_open. destruct (lookup _ _); [|done]. destruct (allows _ _); [|done]. by intros [= <-].
Qed.

(** ** Simulation on a set of hives

    The calls of the implementation agree with those of [tree_winreg]
    on the hives [dom] holds of, and on the keys opened in them. *)
Section RefineOn.
Context {St HD : Type} `{Winreg St HD}.
Variable absS : St -> regstore.
Variable absH : HD -> handle.
Variable dom : hive -> bool.

Hypothesis OpenKey_sim :
  forall s hv p acc, dom hv = true -> result_map absH (OpenKey s hv p acc) = reg_open (absS s) hv p acc.
Hypothesis EnumKey_sim :
  forall s h i, dom (absH h).1 = true -> EnumKey s h i = reg_enum (absS s) (absH h) i.
Hypothesis QueryValueEx_sim :
  forall s h n, dom (absH h).1 = true -> QueryValueEx s h n = reg_query (absS s) (absH h) n.
Hypothesis DeleteKey_sim :
  forall s hv p, dom hv = true -> result_map absS (DeleteKey s hv p) = reg_delete (absS s) hv p.

Lemma open_sim_ok s hv p acc h :
  dom hv = true -> OpenKey s hv p acc = Ok h -> reg_open (absS s) hv p acc = Ok (absH h) /\ dom (absH h).1 = true.
Proof.
  intros Hd E. assert (reg_open (absS s) hv p acc = Ok (absH h)) as Ho by (by rewrite <- OpenKey_sim, E).
  split; [done|]. by rewrite (reg_open_hive _ _ _ _ _ Ho).
Qed.

Lemma open_sim_err s hv p acc e :
  dom hv = true -> OpenKey s hv p acc = Err e -> reg_open (absS s) hv p acc = Err e.
Proof. intros Hd E. by rewrite <- OpenKey_sim, E. Qed.

Lemma check_default_value_sim s hv fp term :
  dom hv = true -> check_default_value s hv fp term = check_default_value (absS s) hv fp term.
Proof.
  intros Hd. unfold check_default_value. cbn [OpenKey QueryValueEx tree_winreg].
  destruct (OpenKey s hv fp KEY_READ) as [h|e] eqn:E.
  - destruct (open_sim_ok _ _ _ _ _ Hd E) as [-> Hh]. by rewrite QueryValueEx_sim.
  - by rewrite (open_sim_err _ _ _ _ _ Hd E).
Qed.

Lemma search_loop_sim fuel s hv p term h i acc log :
  dom hv = true -> dom (absH h).1 = true ->
  search_loop fuel s hv p term h i acc log = search_loop fuel (absS s) hv p term (absH h) i acc log.
Proof.
  intros Hd Hh. revert i acc log. induction fuel as [|f IH]; intros i acc log; [done|].
  cbn [search_loop EnumKey tree_winreg]. rewrite EnumKey_sim by done. destruct (reg_enum _ _ _); [|done].
  rewrite check_default_value_sim by done. destruct (py_in _ _), (check_default_value _ _ _ _); apply IH.
Qed.

Lemma search_keys_sim fuel s hv p term :
  dom hv = true -> search_keys fuel s hv p term = search_keys fuel (absS s) hv p term.
Proof.
  intros Hd. unfold search_keys. cbn [OpenKey tree_winreg]. destruct (OpenKey s hv p KEY_READ) as [h|e] eqn:E.
  - destruct (open_sim_ok _ _ _ _ _ Hd E) as [-> Hh]. by apply search_loop_sim.
  - by rewrite (open_sim_err _ _ _ _ _ Hd E).
Qed.

Lemma delete_key_sim fuel :
  (forall s hv p, dom hv = true -> abs_run absS (delete_key fuel s hv p) = delete_key fuel (absS s) hv p) /\
  (forall s hv p h, dom hv = true -> dom (absH h).1 = true ->
     abs_run absS (delete_subkeys fuel s hv p h) = delete_subkeys fuel (absS s) hv p (absH h)).
Proof.
  induction fuel as [|f [IH1 IH2]]; split; intros *; [done|done| |]; simpl.
  - intros Hd. destruct (OpenKey s hv p KEY_ALL_ACCESS) as [h|e] eqn:E.
    + destruct (open_sim_ok _ _ _ _ _ Hd E) as [-> Hh]. simpl. rewrite <- IH2 by done.
      destruct (delete_subkeys f s hv p h) as [[s1 l1]|]; simpl; [|done].
      rewrite <- DeleteKey_sim by done. by destruct (DeleteKey s1 hv p).
    + by rewrite (open_sim_err _ _ _ _ _ Hd E).
  - intros Hd Hh. rewrite <- EnumKey_sim by done. destruct (EnumKey s h 0) as [n|]; simpl; [|done].
    rewrite <- IH1 by done. destruct (delete_key f s hv (join_path p n)) as [[s1 l1]|]; simpl; [|done].
    rewrite <- IH2 by done. by destruct (delete_subkeys f s1 hv p h) as [[s2 l2]|].
Qed.

Lemma delete_matches_sim fuel s keys :
  Forall (fun f : found => dom f.1.1 = true) keys ->
  abs_run absS (delete_matches fuel s keys) = delete_matches fuel (absS s) keys.
Proof.
  revert s. induction keys as [|[[h k] r] keys IH]; intros s Hk; simpl; [done|].
  apply Forall_cons in Hk as [Hh Hk]. simpl in Hh.
  rewrite <- (proj1 (delete_key_sim fuel)) by done.
  destruct (delete_key fuel s h k) as [[s1 l1]|]; simpl; [|done].
  rewrite <- IH by done. by destruct (delete_matches fuel s1 keys) as [[s2 l2]|].
Qed.

Lemma scan_targets_sim fuel s ts :
  forallb (fun t => dom t.1) ts = true ->
  abs_run absS (scan_targets fuel s ts) = scan_targets fuel (absS s) ts.
Proof.
  revert s. induction ts as [|[hv p] ts IH]; intros s Hts; simpl in Hts |- *; [done|].
  apply andb_prop in Hts as [Hd Hts].
  rewrite <- search_keys_sim by done.
  destruct (search_keys fuel s hv p _) as [[keys l1]|] eqn:Hs; simpl; [|done].
  rewrite <- delete_matches_sim;
    [|eapply Forall_impl; [exact (search_keys_hive _ _ _ _ _ _ _ Hs)|by intros f ->]].
  destruct (delete_matches fuel s keys) as [[s1 l2]|]; simpl; [|done].
  rewrite <- IH by done. by destruct (scan_targets fuel s1 ts) as [[s2 l3]|].
Qed.
End RefineOn.
