(* ===== verification/MergedView.v ===== *)
(** * The merged view of [HKEY_CLASSES_ROOT]

    Windows does not store [HKEY_CLASSES_ROOT]: it shows the class keys
    of [HKEY_CURRENT_USER\Software\Classes] merged with those of
    [HKEY_LOCAL_MACHINE\SOFTWARE\Classes], the per-user key taking
    precedence.  The last two targets of [clean_reg.py] (lines 60-61) are
    views of the first four.  [hives] is the registry as Windows stores
    it, the two real hives, and [merged_winreg] implements the [Winreg]
    interface over it: on [HKEY_CLASSES_ROOT] a key is the per-user class
    key when there is one and the machine's otherwise, its subkeys are
    the per-user ones followed by the machine's whose name the user does
    not have, and [DeleteKey] deletes the per-user key when there is one
    and the machine's otherwise.  On the two real hives it agrees with
    [tree_winreg], so the simulation of [Refinement.v] carries the
    theorems on the first four targets over.  The theorems of this file
    show what a scan through [HKEY_CLASSES_ROOT] reports
    ([merged_search_spec]), that the two [HKEY_CLASSES_ROOT] targets do
    nothing after the first four when every match could be deleted, so
    the run is the purge of the first four targets, and that a second run
    changes nothing. *)

From S2P Require Import Prelude PyStr Winreg CleanReg CleanRegMain Refinement.
From Stdlib Require Import String.

Open Scope list_scope.

(** ** The registry as Windows stores it *)

Record hives := mkHives { user_hive : key; machine_hive : key }.

(** The hives as an in-memory registry of [Winreg.v], whose own
    [HKEY_CLASSES_ROOT] tree is empty: no call below reaches it. *)
Definition empty_key : key := mkKey "" FullControl [] [].

Definition as_store (m : hives) : regstore := mkStore empty_key (user_hive m) (machine_hive m).

Definition of_store (s : regstore) : hives := mkHives (hkcu s) (hklm s).

Definition user_classes : list string := ["Software"; "Classes"].
Definition machine_classes : list string := ["SOFTWARE"; "Classes"].

Definition user_class_key (m : hives) (segs : list string) : option key :=
  lookup (user_hive m) (user_classes ++ segs).

Definition machine_class_key (m : hives) (segs : list string) : option key :=
  lookup (machine_hive m) (machine_classes ++ segs).

(** The key [HKEY_CLASSES_ROOT] shows at [segs]. *)
Definition merged_key (m : hives) (segs : list string) : option key :=
  match user_class_key m segs with
  | Some k => Some k
  | None => machine_class_key m segs
  end.

Definition child_names (o : option key) : list string :=
  match o with Some k => map kname (ksubkeys k) | None => [] end.

(** The subkeys [HKEY_CLASSES_ROOT] shows at [segs], in enumeration
    order. *)
Definition merged_names (m : hives) (segs : list string) : list string :=
  let u := child_names (user_class_key m segs) in
  u ++ List.filter (fun n => negb (existsb (name_eqb n) u)) (child_names (machine_class_key m segs)).

Definition view_key (m : hives) (h : hive) (segs : list string) : option key :=
  match h with
  | HKEY_CLASSES_ROOT => merged_key m segs
  | _ => lookup (hive_root (as_store m) h) segs
  end.

Definition view_names (m : hives) (hd : handle) : list string :=
  match hd.1 with
  | HKEY_CLASSES_ROOT => merged_names m hd.2
  | _ => child_names (lookup (hive_root (as_store m) hd.1) hd.2)
  end.

(** ** The calls *)

Definition merged_open (m : hives) (h : hive) (sub_key : string) (acc : access)
  : result oserror handle :=
  let segs := split_path sub_key in
  match view_key m h segs with
  | None => Err ERROR_FILE_NOT_FOUND
  | Some k => if allows (kacl k) acc then Ok (h, segs) else Err ERROR_ACCESS_DENIED
  end.

Definition merged_enum (m : hives) (hd : handle) (i : nat) : result oserror string :=
  match view_key m hd.1 hd.2 with
  | None => Err ERROR_KEY_DELETED
  | Some _ =>
      match nth_error (view_names m hd) i with
      | None => Err ERROR_NO_MORE_ITEMS
      | Some n => Ok n
      end
  end.

Definition merged_query (m : hives) (hd : handle) (name : string) : result oserror regval :=
  match view_key m hd.1 hd.2 with
  | None => Err ERROR_KEY_DELETED
  | Some k =>
      match find_value name (kvalues k) with
      | None => Err ERROR_FILE_NOT_FOUND
      | Some v => Ok v
      end
  end.

Definition merged_delete (m : hives) (h : hive) (sub_key : string) : result oserror hives :=
  match h with
  | HKEY_CLASSES_ROOT =>
      let segs := split_path sub_key in
      match segs with
      | [] => Err ERROR_ACCESS_DENIED
      | _ :: _ =>
          match user_class_key m segs with
          | Some _ =>
              result_map of_store (reg_delete_at (as_store m) HKEY_CURRENT_USER (user_classes ++ segs))
          | None =>
              result_map of_store (reg_delete_at (as_store m) HKEY_LOCAL_MACHINE (machine_classes ++ segs))
          end
      end
  | _ => result_map of_store (reg_delete (as_store m) h sub_key)
  end.

#[export] Instance merged_winreg : Winreg hives handle := {|
  OpenKey := merged_open;
  EnumKey := merged_enum;
  QueryValueEx := merged_query;
  DeleteKey := merged_delete
|}.

Lemma view_names_none m h segs : view_key m h segs = None -> view_names m (h, segs) = [].
Proof.
  unfold view_key, view_names, merged_key, merged_names. simpl.
  destruct h; [destruct (user_class_key m segs); [done|]|..]; intros ->; done.
Qed.

#[export] Program Instance merged_enum_laws : EnumLaws hives handle := {|
  subkey_names := view_names
|}.
Next Obligation.
  intros m [h segs] i. simpl. unfold merged_enum; simpl.
  destruct (view_key m h segs) eqn:E; [by destruct (nth_error _ i)|].
  rewrite view_names_none by done. by destruct i.
Qed.

(** ** Agreement with the in-memory registry on the real hives *)

Definition real_hive (h : hive) : bool := negb (bool_decide (h = HKEY_CLASSES_ROOT)).

Lemma as_of_store s : hkcr s = empty_key -> as_store (of_store s) = s.
Proof. by destruct s; simpl; intros ->. Qed.

Lemma of_as_store m : of_store (as_store m) = m.
Proof. by destruct m. Qed.

Lemma reg_delete_at_hkcr s h segs s' :
  h <> HKEY_CLASSES_ROOT -> reg_delete_at s h segs = Ok s' -> hkcr s' = hkcr s.
Proof. unfold reg_delete_at. intros Hh. repeat case_match; intros; simplify_eq; by destruct h. Qed.

Lemma merged_open_sim m hv p acc :
  real_hive hv = true -> result_map id (merged_open m hv p acc) = reg_open (as_store m) hv p acc.
Proof. destruct hv; [done|..]; intros _; apply result_map_id. Qed.

Lemma merged_enum_sim m h i :
  real_hive h.1 = true -> merged_enum m h i = reg_enum (as_store m) h i.
Proof.
  destruct h as [[] segs]; [done|..]; intros _; unfold merged_enum, reg_enum, view_key, view_names; simpl;
    (destruct (lookup _ segs); [|done]); simpl; rewrite nth_error_map; by destruct (nth_error _ i).
Qed.

Lemma merged_query_sim m h n :
  real_hive h.1 = true -> merged_query m h n = reg_query (as_store m) h n.
Proof. by destruct h as [[] segs]. Qed.

Lemma merged_delete_sim m hv p :
  real_hive hv = true -> result_map as_store (merged_delete m hv p) = reg_delete (as_store m) hv p.
Proof.
  intros Hr. assert (hv <> HKEY_CLASSES_ROOT) as Hne by (by intros ->).
  assert (merged_delete m hv p = result_map of_store (reg_delete (as_store m) hv p)) as -> by (by destruct hv).
  rewrite result_map_compose. unfold reg_delete.
  destruct (reg_delete_at (as_store m) hv (split_path p)) as [s'|e] eqn:E; [|done]. simpl.
  rewrite as_of_store; [done|]. by rewrite (reg_delete_at_hkcr _ _ _ _ Hne E).
Qed.

(** On targets in the real hives, the run over [hives] is the run over
    the in-memory registry. *)
Lemma merged_scan_targets_real fuel m ts :
  forallb (fun t => real_hive t.1) ts = true ->
  abs_run as_store (scan_targets fuel m ts) = scan_targets fuel (as_store m) ts.
Proof.
  apply (scan_targets_sim as_store id real_hive).
  - apply merged_open_sim.
  - apply merged_enum_sim.
  - apply merged_query_sim.
  - apply merged_delete_sim.
Qed.

(** ** The scan of a target of [HKEY_CLASSES_ROOT] *)

Definition child_keys (o : option key) : list key :=
  match o with Some k => ksubkeys k | None => [] end.

(** The subkeys [HKEY_CLASSES_ROOT] shows at [segs]: the per-user ones,
    then the machine's the user does not shadow. *)
Definition merged_children (m : hives) (segs : list string) : list key :=
  let u := child_keys (user_class_key m segs) in
  u ++ List.filter (fun c => negb (existsb (name_eqb (kname c)) (map kname u)))
         (child_keys (machine_class_key m segs)).

Definition wf_opt (o : option key) : bool :=
  match o with Some k => wf_key k | None => true end.

Lemma map_filter_comm {A B} (f : A -> B) (q : B -> bool) l :
  map f (List.filter (fun x => q (f x)) l) = List.filter q (map f l).
Proof. induction l as [|x l IH]; simpl; [done|]. destruct (q (f x)); simpl; by rewrite IH. Qed.

Lemma merged_names_children m segs : merged_names m segs = map kname (merged_children m segs).
Proof.
  unfold merged_names, merged_children. rewrite map_app.
  assert (Hc : forall o, child_names o = map kname (child_keys o)) by (by intros []).
  rewrite !Hc. f_equal. symmetry. apply (map_filter_comm kname (fun n => negb (existsb (name_eqb n) _))).
Qed.

Lemma wf_opt_child o c :
  wf_opt o = true -> In c (child_keys o) ->
  valid_name (kname c) = true /\ nodup_names (map kname (child_keys o)) = true.
Proof.
  destruct o as [k|]; [|done]. simpl. rewrite wf_key_unfold, forallb_forall.
  intros (Hv & Hnd & _) Hin. split; [by apply Hv, in_map|done].
Qed.

(** A subkey is found by its name below its parent. *)
Lemma lookup_child r segs k c :
  lookup r segs = Some k -> nodup_names (map kname (ksubkeys k)) = true -> In c (ksubkeys k) ->
  lookup r (segs ++ [kname c]) = Some c.
Proof.
  intros Hl Hnd Hin. rewrite lookup_app, Hl. simpl. apply In_nth_error in Hin as [i Hi].
  by rewrite (find_named_nth _ i c Hnd Hi).
Qed.

Lemma find_named_absent n l : existsb (name_eqb n) (map kname l) = false -> find (named n) l = None.
Proof.
  induction l as [|x l IH]; simpl; [done|]. rewrite orb_false_iff. intros [Hx Hl].
  unfold named at 1. by rewrite Hx, IH.
Qed.

(** Each subkey [HKEY_CLASSES_ROOT] shows below two well-formed class
    keys is the key it shows at its name. *)
Lemma merged_child_key m segs c :
  wf_opt (user_class_key m segs) = true -> wf_opt (machine_class_key m segs) = true ->
  In c (merged_children m segs) ->
  merged_key m (segs ++ [kname c]) = Some c /\ valid_name (kname c) = true.
Proof.
  unfold merged_children, merged_key. intros Hu Hm Hc. apply in_app_or in Hc as [Hc|Hc].
  - destruct (wf_opt_child _ _ Hu Hc) as [Hv Hnd]. split; [|done].
    destruct (user_class_key m segs) as [u|] eqn:Eu; [|done]. unfold user_class_key in *.
    by rewrite app_assoc, (lookup_child _ _ u c).
  - apply filter_In in Hc as [Hc Hnot]. destruct (wf_opt_child _ _ Hm Hc) as [Hv Hnd]. split; [|done].
    destruct (machine_class_key m segs) as [k|] eqn:Em; [|done].
    assert (user_class_key m (segs ++ [kname c]) = None) as ->.
    { unfold user_class_key in *. rewrite app_assoc, lookup_app.
      destruct (lookup (user_hive m) (user_classes ++ segs)) as [u|]; [|done]. simpl.
      rewrite find_named_absent; [done|]. simpl in Hnot. by apply negb_true_iff. }
    unfold machine_class_key in *. by rewrite app_assoc, (lookup_child _ _ k c).
Qed.

Lemma merged_children_in m segs c :
  In c (merged_children m segs) ->
  In c (child_keys (user_class_key m segs)) \/ In c (child_keys (machine_class_key m segs)).
Proof. unfold merged_children. rewrite in_app_iff, filter_In. tauto. Qed.

(** Reading the default value of the key a path shows. *)
Lemma check_default_value_view m h p c term :
  view_key m h (split_path (join_path p (kname c))) = Some c ->
  check_default_value m h (join_path p (kname c)) term =
    (if value_match term c then [(h, join_path p (kname c), VALUE_MATCH)] else [], value_events p term c).
Proof.
  intros Hv. unfold check_default_value, value_match, value_events, default_string.
  cbn [OpenKey QueryValueEx merged_winreg]. unfold merged_open, merged_query. rewrite Hv.
  destruct (allows (kacl c) KEY_READ); [|done]. simpl. rewrite Hv.
  destruct (find_value "" (kvalues c)) as [v|]; [|done]. simpl.
  destruct (py_str_of v) as [val|]; [|done]. by destruct (py_in _ _).
Qed.

Lemma scan_name_view m p term c :
  p <> "" -> wf_opt (user_class_key m (split_path p)) = true ->
  wf_opt (machine_class_key m (split_path p)) = true -> In c (merged_children m (split_path p)) ->
  scan_name m HKEY_CLASSES_ROOT p term (kname c) = (matches_of HKEY_CLASSES_ROOT p term c, events_of p term c).
Proof.
  intros Hp Hu Hm Hc. destruct (merged_child_key m _ c Hu Hm Hc) as [Hk Hv].
  unfold scan_name, name_check, matches_of, events_of, name_match.
  rewrite (check_default_value_view m HKEY_CLASSES_ROOT p c term).
  - by destruct (py_in _ _).
  - unfold valid_name in Hv. apply andb_prop in Hv as [_ Hv]. by rewrite split_path_join_snoc.
Qed.

Lemma merged_search_ok fuel m p term k :
  p <> "" -> wf_opt (user_class_key m (split_path p)) = true ->
  wf_opt (machine_class_key m (split_path p)) = true ->
  merged_key m (split_path p) = Some k -> allows (kacl k) KEY_READ = true ->
  List.length (merged_children m (split_path p)) < fuel ->
  search_keys fuel m HKEY_CLASSES_ROOT p term =
    Some (flat_map (matches_of HKEY_CLASSES_ROOT p term) (merged_children m (split_path p)),
          flat_map (events_of p term) (merged_children m (split_path p))).
Proof.
  intros Hp Hu Hm Hk Ha Hf. unfold search_keys. cbn [OpenKey merged_winreg]. unfold merged_open. simpl.
  rewrite Hk, Ha.
  assert (Hn : subkey_names m (HKEY_CLASSES_ROOT, split_path p) = map kname (merged_children m (split_path p)))
    by apply merged_names_children.
  rewrite search_loop_enum by (rewrite Hn, length_map; lia).
  rewrite Hn, drop_0, !flat_map_map. f_equal. f_equal;
    apply flat_map_ext_in; intros c Hc; by rewrite scan_name_view.
Qed.

(** C14: the scan of a target of [HKEY_CLASSES_ROOT] is the scan of the
    key the merged view shows there: when the per-user and machine class
    keys, where they exist, are well formed and the key shown can be
    read, [search_keys] returns a match for each per-user subkey and each
    machine subkey the user does not shadow that contains the term in
    its name or its default value, in that order, and prints their
    [FOUND] lines. *)
Theorem merged_search_spec fuel m p term k :
  p <> "" -> wf_opt (user_class_key m (split_path p)) = true ->
  wf_opt (machine_class_key m (split_path p)) = true ->
  merged_key m (split_path p) = Some k -> allows (kacl k) KEY_READ = true ->
  List.length (merged_children m (split_path p)) < fuel ->
  search_keys fuel m HKEY_CLASSES_ROOT p term =
    Some (flat_map (matches_of HKEY_CLASSES_ROOT p term) (merged_children m (split_path p)),
          flat_map (events_of p term) (merged_children m (split_path p))).
Proof. apply merged_search_ok. Qed.

(** ** A target of [HKEY_CLASSES_ROOT] with nothing to find *)

(** A class key, if any, that is well formed and has no subkey matching
    [term]. *)
Definition quiet (term : string) (o : option key) : bool :=
  wf_opt o && forallb (fun c => negb (is_target term c)) (child_keys o).

Lemma unmatched_child term c :
  is_target term c = false -> forall hv p, matches_of hv p term c = [] /\ events_of p term c = [].
Proof.
  unfold is_target. rewrite orb_false_iff. intros [Hn Hv] hv p.
  unfold matches_of, events_of, value_events. rewrite Hn, Hv. simpl.
  split; [done|]. unfold value_match in Hv. destruct (default_string c); [by rewrite Hv|done].
Qed.

(** Scanning a target of [HKEY_CLASSES_ROOT] whose two class keys are
    quiet finds nothing and prints nothing. *)
Lemma search_keys_quiet fuel term m p :
  p <> "" -> quiet term (user_class_key m (split_path p)) = true ->
  quiet term (machine_class_key m (split_path p)) = true ->
  (merged_key m (split_path p) <> None -> List.length (merged_names m (split_path p)) < fuel) ->
  search_keys fuel m HKEY_CLASSES_ROOT p term = Some ([], []).
Proof.
  unfold quiet. rewrite !andb_true_iff, !forallb_forall. intros Hp [Hu Hqu] [Hm Hqm] Hf.
  destruct (merged_key m (split_path p)) as [k|] eqn:Ek.
  2: { unfold search_keys. cbn [OpenKey merged_winreg]. unfold merged_open. simpl. by rewrite Ek. }
  destruct (allows (kacl k) KEY_READ) eqn:Ha.
  2: { unfold search_keys. cbn [OpenKey merged_winreg]. unfold merged_open. simpl. by rewrite Ek, Ha. }
  rewrite (merged_search_ok fuel m p term k); try done.
  2: { rewrite <- (length_map kname), <- merged_names_children. by apply Hf. }
  assert (Ht : forall c, In c (merged_children m (split_path p)) -> is_target term c = false)
    by (intros c Hc; apply negb_true_iff; destruct (merged_children_in _ _ _ Hc); auto).
  rewrite !flat_map_nil_in; [done| |]; intros c Hc;
    by destruct (unmatched_child term c (Ht c Hc) HKEY_CLASSES_ROOT p).
Qed.

(** ** The whole run over the hives *)

Section Generic.
Context {St Hd : Type} `{Winreg St Hd}.

Lemma scan_targets_app fuel s ts1 ts2 :
  scan_targets fuel s (ts1 ++ ts2) =
    let? (s1, l1) := scan_targets fuel s ts1 in
    let? (s2, l2) := scan_targets fuel s1 ts2 in
    Some (s2, l1 ++ l2).
Proof.
  revert s. induction ts1 as [|[hv p] ts1 IH]; intros s; simpl.
  - by destruct (scan_targets fuel s ts2) as [[s2 l2]|].
  - destruct (search_keys fuel s hv p _) as [[keys l1]|]; [|done].
    destruct (delete_matches fuel s keys) as [[s1 l2]|]; [|done]. rewrite IH.
    destruct (scan_targets fuel s1 ts1) as [[s3 l3]|]; [|done].
    destruct (scan_targets fuel s3 ts2) as [[s4 l4]|]; [|done]. by rewrite <- !app_assoc.
Qed.
End Generic.

(** The four targets in the real hives (lines 56-59) and the two views
    of them in [HKEY_CLASSES_ROOT] (lines 60-61). *)
Definition classes_targets : list (hive * string) := firstn 4 targets.
Definition view_targets : list (hive * string) := skipn 4 targets.

(** A target whose key, if any, can be read. *)
Definition readable_target (s : regstore) (t : hive * string) : bool :=
  let '(hv, p) := t in
  match lookup (hive_root s hv) (split_path p) with
  | Some k => allows (kacl k) KEY_READ
  | None => true
  end.

Lemma classes_targets_apart : targets_apart classes_targets = true.
Proof. vm_compute. reflexivity. Qed.

Lemma classes_targets_real : forallb (fun t => real_hive t.1) classes_targets = true.
Proof. vm_compute. reflexivity. Qed.

Lemma view_targets_eq :
  view_targets = [(HKEY_CLASSES_ROOT, "Directory\shell"); (HKEY_CLASSES_ROOT, "Directory\Background\shell")].
Proof. reflexivity. Qed.

Lemma quiet_purge term o :
  (forall k, o = Some k -> wf_key k = true /\ allows (kacl k) KEY_READ = true) ->
  quiet term (option_map (purge term) o) = true.
Proof.
  destruct o as [k|]; [|done]. intros Hk. destruct (Hk k eq_refl) as [Hw Ha]. unfold quiet. simpl.
  rewrite wf_purge by done. unfold purge. rewrite Ha. simpl. apply forallb_forall.
  intros c Hc. apply filter_In in Hc as [_ Hc]. done.
Qed.

Lemma child_names_purge_bound term fuel k :
  2 * size k <= fuel -> 2 * List.length (child_names (Some (purge term k))) + 2 <= fuel.
Proof.
  intros Hf. pose proof (length_subkeys_lt k). simpl. rewrite length_map. unfold purge.
  destruct (allows (kacl k) KEY_READ); simpl; [|lia].
  pose proof (sublist_length _ _ (filter_sublist (fun c => negb (is_target term c)) (ksubkeys k))). lia.
Qed.

Lemma merged_names_length m segs :
  List.length (merged_names m segs) <=
    List.length (child_names (user_class_key m segs)) + List.length (child_names (machine_class_key m segs)).
Proof.
  unfold merged_names. rewrite length_app.
  pose proof (sublist_length _ _ (filter_sublist (fun n => negb (existsb (name_eqb n) (child_names (user_class_key m segs))))
                                    (child_names (machine_class_key m segs)))). lia.
Qed.

(** One more than the subkeys the two purged class keys show is within
    the fuel, when one of them exists. *)
Lemma view_fuel term fuel a b :
  (forall k, a = Some k -> 2 * size k <= fuel) -> (forall k, b = Some k -> 2 * size k <= fuel) ->
  match option_map (purge term) a with Some k => Some k | None => option_map (purge term) b end <> None ->
  List.length (child_names (option_map (purge term) a)) + List.length (child_names (option_map (purge term) b)) < fuel.
Proof.
  destruct a as [ka|], b as [kb|]; intros Ha Hb Hn; simpl in Hn; try done;
    repeat match goal with
      | H : forall k, Some ?x = Some k -> _ |- _ =>
          pose proof (child_names_purge_bound term fuel x (H x eq_refl)); clear H
      end;
    simpl in *; lia.
Qed.

(** After the purges of the four class targets, the [HKEY_CLASSES_ROOT]
    target viewing the per-user target [pu] and the machine target [pm]
    finds nothing. *)
Lemma view_target_quiet term fuel s p pu pm :
  wf_store s = true -> p <> "" ->
  In (HKEY_CURRENT_USER, pu) classes_targets -> In (HKEY_LOCAL_MACHINE, pm) classes_targets ->
  split_path pu = user_classes ++ split_path p -> split_path pm = machine_classes ++ split_path p ->
  forallb (purgeable term fuel s) classes_targets = true ->
  forallb (readable_target s) classes_targets = true ->
  search_keys fuel (of_store (fold_left (purge_target term) classes_targets s)) HKEY_CLASSES_ROOT p term =
    Some ([], []).
Proof.
  intros Hw Hp Hinu Hinm Hsu Hsm Hok Hrd. rewrite forallb_forall in Hok, Hrd.
  set (s4 := fold_left (purge_target term) classes_targets s).
  assert (Hpurged : forall hv q, In (hv, q) classes_targets ->
            lookup (hive_root s4 hv) (split_path q) = option_map (purge term) (lookup (hive_root s hv) (split_path q)))
    by (intros; apply lookup_fold_purge; [apply classes_targets_apart|done]).
  assert (Hu : user_class_key (of_store s4) (split_path p) =
                 option_map (purge term) (lookup (hive_root s HKEY_CURRENT_USER) (split_path pu)))
    by (unfold user_class_key; rewrite <- Hsu; exact (Hpurged _ _ Hinu)).
  assert (Hm : machine_class_key (of_store s4) (split_path p) =
                 option_map (purge term) (lookup (hive_root s HKEY_LOCAL_MACHINE) (split_path pm)))
    by (unfold machine_class_key; rewrite <- Hsm; exact (Hpurged _ _ Hinm)).
  assert (Hq : forall hv q, In (hv, q) classes_targets ->
            forall k, lookup (hive_root s hv) (split_path q) = Some k ->
            wf_key k = true /\ allows (kacl k) KEY_READ = true).
  { intros hv q Hin k Hl. split; [exact (wf_lookup _ _ _ (wf_store_root s hv Hw) Hl)|].
    pose proof (Hrd _ Hin) as Hr. simpl in Hr. by rewrite Hl in Hr. }
  apply search_keys_quiet; [done|rewrite Hu; exact (quiet_purge _ _ (Hq _ _ Hinu))
    |rewrite Hm; exact (quiet_purge _ _ (Hq _ _ Hinm))|].
  intros Hk. eapply Nat.le_lt_trans; [apply merged_names_length|]. rewrite Hu, Hm.
  unfold merged_key in Hk. rewrite Hu, Hm in Hk.
  destruct (purgeable_spec _ _ _ _ _ (Hok _ Hinu)) as [_ Hfu].
  destruct (purgeable_spec _ _ _ _ _ (Hok _ Hinm)) as [_ Hfm].
  apply view_fuel; [intros k Hl; apply (Hfu k Hl)|intros k Hl; apply (Hfm k Hl)|done].
Qed.

(** C9: on the registry as Windows stores it, where [HKEY_CLASSES_ROOT]
    is the merged view of the two class hives, the whole run of the
    script is the purge of its first four targets: when the stored hives
    are well formed and each of the four target keys that exists can be
    read, is small enough for the fuel and has matching subkeys that grant
    full access, [main] removes exactly the matching subkeys of those four
    keys and prints their [FOUND] lines and deletion traces, and the two
    [HKEY_CLASSES_ROOT] targets, which show the same keys, find nothing,
    delete nothing and print nothing. *)
Theorem merged_main_purges fuel m :
  wf_store (as_store m) = true ->
  forallb (purgeable "Antigravity" fuel (as_store m)) classes_targets = true ->
  forallb (readable_target (as_store m)) classes_targets = true ->
  main fuel m =
    Some (of_store (fold_left (purge_target "Antigravity") classes_targets (as_store m)),
          StartingScan :: flat_map (target_log "Antigravity" (as_store m)) classes_targets ++ [ScanComplete]).
Proof.
  intros Hw Hok Hrd. unfold main.
  rewrite <- (firstn_skipn 4 targets), scan_targets_app.
  change (firstn 4 targets) with classes_targets. change (skipn 4 targets) with view_targets.
  pose proof (merged_scan_targets_real fuel m classes_targets classes_targets_real) as Hsim.
  rewrite scan_targets_purge in Hsim by (apply classes_targets_apart || done).
  destruct (scan_targets fuel m classes_targets) as [[m1 l1]|]; [|discriminate].
  cbn [abs_run option_map] in Hsim.
  assert (Hm1 : as_store m1 = fold_left (purge_target "Antigravity") classes_targets (as_store m)) by congruence.
  assert (Hl1 : l1 = flat_map (target_log "Antigravity" (as_store m)) classes_targets) by congruence.
  clear Hsim. rewrite <- Hm1, of_as_store, Hl1, view_targets_eq. cbn [scan_targets].
  rewrite <- (of_as_store m1), Hm1.
  rewrite (view_target_quiet _ _ _ _ "Software\Classes\Directory\shell" "SOFTWARE\Classes\Directory\shell");
    try done; try (vm_compute; tauto).
  cbn [delete_matches].
  rewrite (view_target_quiet _ _ _ _ "Software\Classes\Directory\Background\shell"
             "SOFTWARE\Classes\Directory\Background\shell");
    try done; try (vm_compute; tauto).
  cbn [delete_matches]. by rewrite !app_nil_r.
Qed.

(** The purges of targets in the stored hives leave the empty
    [HKEY_CLASSES_ROOT] tree of [as_store] alone. *)
Lemma hkcr_fold_purge term ts s :
  forallb (fun t => real_hive t.1) ts = true -> hkcr (fold_left (purge_target term) ts s) = hkcr s.
Proof.
  revert s. induction ts as [|[hv p] ts IH]; intros s Hr; simpl in Hr |- *; [done|].
  apply andb_prop in Hr as [Hh Hr]. rewrite IH by done. by destruct hv.
Qed.

Lemma readable_fold_purge term ts s :
  targets_apart ts = true -> forallb (readable_target s) ts = true ->
  forallb (readable_target (fold_left (purge_target term) ts s)) ts = true.
Proof.
  rewrite !forallb_forall. intros Hap Hrd [hv p] Hin. specialize (Hrd _ Hin). simpl in Hrd |- *.
  rewrite lookup_fold_purge by done. destruct (lookup (hive_root s hv) (split_path p)) as [k|]; [|done].
  simpl. unfold purge. destruct (allows (kacl k) KEY_READ) eqn:E; [|done]. simpl. by rewrite E.
Qed.

(** C11: running the script a second time, on the registry as Windows
    stores it after a first run that could delete every match, prints
    only its start and end lines and changes nothing, the two
    [HKEY_CLASSES_ROOT] targets included (section 8, property 6 of the
    specification, on the merged view). *)
Theorem merged_main_idempotent fuel m m1 l1 :
  wf_store (as_store m) = true ->
  forallb (purgeable "Antigravity" fuel (as_store m)) classes_targets = true ->
  forallb (readable_target (as_store m)) classes_targets = true ->
  main fuel m = Some (m1, l1) -> main fuel m1 = Some (m1, [StartingScan; ScanComplete]).
Proof.
  intros Hw Hok Hrd Hm. rewrite merged_main_purges in Hm by done.
  set (s1 := fold_left (purge_target "Antigravity") classes_targets (as_store m)) in Hm.
  assert (m1 = of_store s1) as -> by congruence. clear Hm.
  assert (Hs1 : as_store (of_store s1) = s1)
    by (apply as_of_store; unfold s1; by rewrite hkcr_fold_purge by apply classes_targets_real).
  destruct (purge_fixpoint "Antigravity" fuel classes_targets (as_store m) classes_targets_apart Hok)
    as (Hfix & Hlog & Hok1). fold s1 in Hfix, Hlog, Hok1.
  rewrite merged_main_purges; rewrite ?Hs1; [by rewrite Hfix, Hlog|by apply wf_fold_purge|done|].
  by apply readable_fold_purge; [apply classes_targets_apart|].
Qed.

(** ** Samples and witnesses *)

(** Matching keys in both class hives, all of which the user may delete. *)
Definition both_hives : hives := of_store (sample_root hkcu_shell [ag_shell]).

Lemma merged_main_purges_witness :
  main 20 both_hives =
    Some (of_store (fold_left (purge_target "Antigravity") classes_targets (as_store both_hives)),
          StartingScan :: flat_map (target_log "Antigravity" (as_store both_hives)) classes_targets ++
          [ScanComplete]).
Proof. apply merged_main_purges; vm_compute; reflexivity. Defined.

(** The run over [both_hives], computed. *)
Definition both_run : option (hives * list event) := Eval vm_compute in main 20 both_hives.
Definition both_final : hives := match both_run with Some (m', _) => m' | None => both_hives end.
Definition both_log : list event := match both_run with Some (_, l) => l | None => [] end.

Lemma merged_main_idempotent_witness : main 20 both_final = Some (both_final, [StartingScan; ScanComplete]).
Proof. apply (merged_main_idempotent 20 both_hives both_final both_log); vm_compute; reflexivity. Defined.

(** Before any deletion, [HKEY_CLASSES_ROOT\Directory\shell] shows the
    per-user subkeys and the machine's [antigravity.open]. *)
Lemma merged_search_spec_witness :
  search_keys 10 (of_store sample_store) HKEY_CLASSES_ROOT "Directory\shell" "Antigravity" =
    Some (flat_map (matches_of HKEY_CLASSES_ROOT "Directory\shell" "Antigravity")
            (merged_children (of_store sample_store) (split_path "Directory\shell")),
          flat_map (events_of "Directory\shell" "Antigravity")
            (merged_children (of_store sample_store) (split_path "Directory\shell"))).
Proof.
  eapply merged_search_spec;
    [done|vm_compute; reflexivity|vm_compute; reflexivity|reflexivity|vm_compute; reflexivity|vm_compute; lia].
Defined.
