(* ===== verification/IntegrityCheck.v ===== *)
(** * [src/scripts/integrity_check.py]

    The checker walks the tree below ["."] with [os.walk], prunes every
    [node_modules] directory by removing it from the [dirs] list that
    [os.walk] hands to the loop body (the walk then descends only into the
    names left in that list, so the list is shared between the walk and
    the body), collects the [.js] files, runs [node --check] on each, scans
    each for [FIXME], and exits with 0 or 1.

    - [walk] is [os.walk] (top-down, the default), parameterised by the
      loop body [visit], which receives [(root, dirs, files)] and returns
      the [dirs] list as it left it; [collect_js] is lines 28-33.
    - The operating system enters as two functions of a [Section]: [sh]
      runs a shell command ([subprocess.run(..., shell=True)]; [None] when
      it raises) and [read_text] opens and reads a file as UTF-8 ([Err]
      when it raises, e.g. [UnicodeDecodeError]).
    - [run_check] is lines 6-20, [check_all] the loop of lines 35-37,
      [fixme_scan] lines 43-47 and [main] lines 22-55 (in a module named
      after the script); an uncaught exception ends [main] with [Crash].

    Paths are joined as [os.path.join] does on POSIX ([root/name]). *)

From S2P Require Import Prelude PyStr.
From Stdlib Require Import String Ascii ZArith.

Open Scope list_scope.

(** ** The directory tree *)

Inductive entry :=
| EFile (name : string)
| EDir (name : string) (children : list entry).

Section EntryInd.
Variable P : entry -> Prop.
Hypothesis Hfile : forall n, P (EFile n).
Hypothesis Hdir : forall n cs, Forall P cs -> P (EDir n cs).

Fixpoint entry_ind' (e : entry) : P e :=
  match e with
  | EFile n => Hfile n
  | EDir n cs =>
      Hdir n cs
        ((fix go (l : list entry) : Forall P l :=
            match l with
            | [] => List.Forall_nil P
            | c :: l' => @List.Forall_cons _ P c l' (entry_ind' c) (go l')
            end) cs)
  end.
End EntryInd.

Definition entry_name (e : entry) : string :=
  match e with EFile n | EDir n _ => n end.

Definition is_dir (e : entry) : bool := match e with EDir _ _ => true | _ => false end.

(** [os.walk]'s split of a directory listing. *)
Definition dir_names (cs : list entry) : list string :=
  map entry_name (List.filter is_dir cs).
Definition file_names (cs : list entry) : list string :=
  map entry_name (List.filter (fun e => negb (is_dir e)) cs).

Definition find_dir (d : string) (cs : list entry) : option (list entry) :=
  match find (fun e => is_dir e && String.eqb (entry_name e) d) cs with
  | Some (EDir _ sub) => Some sub
  | _ => None
  end.

(** [os.path.join(root, name)] for a relative [name]. *)
Definition path_join (root name : string) : string := (root ++ String "/" name)%string.

(** ** [os.walk] *)

Section Walk.
Context {A : Type}.
(** The loop body: the accumulated state, [root], [dirs] and [files] in,
    the [dirs] list as the body left it and the new state out. *)
Variable visit : A -> string -> list string -> list string -> list string * A.

(** The loop over the names left in [dirs], in their order: [rec]
    walks a subdirectory, and a name that is no subdirectory is
    skipped.  A name is resolved among the directory's own child
    directories only, so a name a body might add that is not one of them
    (["."], [".."], a nested ["a/b"], a directory created meanwhile) is
    never descended into, whereas [os.walk] joins it to [root] and walks
    whatever it names on disk.  The body of [integrity_check.py] only
    removes a name, so this choice does not affect [collect_js]. *)
Fixpoint walk_dirs (rec : string -> list entry -> A -> option A) (root : string)
    (cs : list entry) (ds : list string) (a : A) : option A :=
  match ds with
  | [] => Some a
  | d :: ds' =>
      match find_dir d cs with
      | Some sub => let? a' := rec (path_join root d) sub a in walk_dirs rec root cs ds' a'
      | None => walk_dirs rec root cs ds' a
      end
  end.

(** Top-down: the body runs on a directory before the walk descends into
    the names it left in [dirs]. *)
Fixpoint walk (fuel : nat) (root : string) (cs : list entry) (acc : A) : option A :=
  match fuel with
  | 0 => None
  | S f =>
      let '(dirs, acc1) := visit acc root (dir_names cs) (file_names cs) in
      walk_dirs (walk f) root cs dirs acc1
  end.
End Walk.

(** ** The script *)

(** Lines 30-33: prune [node_modules], collect the [.js] files. *)
Definition collect_visit (js_files : list string) (root : string) (dirs files : list string)
  : list string * list string :=
  let dirs' := if existsb (String.eqb "node_modules") dirs
               then remove_first (String.eqb "node_modules") dirs else dirs in
  (dirs', js_files ++ map (path_join root) (List.filter (fun f => py_endswith f ".js") files)).

(** Lines 28-33. *)
Definition collect_js (fuel : nat) (cs : list entry) : option (list string) :=
  walk collect_visit fuel "." cs [].

(** The result of [subprocess.run]. *)
Record completed := { returncode : Z; stdout : string; stderr : string }.

(** What the script prints. *)
Inductive line :=
| Banner                                 (* line 23 *)
| Running (name : string)                (* line 7 *)
| Passed (name : string)                 (* line 11 *)
| Failed (name : string)                 (* line 14 *)
| Output (text : string)                 (* lines 15-16 *)
| CouldNotRun (name : string)            (* line 19 *)
| FixmeWarning (path : string)           (* line 47 *)
| AllPassed                              (* line 51 *)
| CheckFailed.                           (* line 54 *)

(** How the process ends: [sys.exit(code)], or an uncaught exception. *)
Inductive outcome := Exit (code : Z) | Crash.

Section Script.
(** [subprocess.run(command, shell=True, ...)]; [None] when it raises. *)
Variable sh : string -> option completed.
(** [open(path, encoding="utf-8").read()]; [Err] when it raises. *)
Variable read_text : string -> result unit string.

(** Lines 6-20. *)
Definition run_check (name command : string) : bool * list line :=
  match sh command with
  | None => (false, [Running name; CouldNotRun name])
  | Some r =>
      if (returncode r =? 0)%Z then (true, [Running name; Passed name])
      else (false, [Running name; Failed name; Output (stdout r); Output (stderr r)])
  end.

(** The command of line 36. *)
Definition node_check_command (js : string) : string := ("node --check " ++ js)%string.

(** Lines 35-37: every file is checked; one failure clears [success]. *)
Fixpoint check_all (success : bool) (js_files : list string) : bool * list line :=
  match js_files with
  | [] => (success, [])
  | js :: rest =>
      let '(ok, l1) := run_check ("Syntax: " ++ js)%string (node_check_command js) in
      let '(success', l2) := check_all (if ok then success else false) rest in
      (success', l1 ++ l2)
  end.

(** Lines 43-47: a file that cannot be read ends the run; the lines
    printed before it stay printed.  The flag says whether the loop ran to
    its end. *)
Fixpoint fixme_scan (js_files : list string) : list line * bool :=
  match js_files with
  | [] => ([], true)
  | js :: rest =>
      match read_text js with
      | Err _ => ([], false)
      | Ok content =>
          let l1 := if py_in "FIXME" content then [FixmeWarning js] else [] in
          let '(l2, finished) := fixme_scan rest in (l1 ++ l2, finished)
      end
  end.

End Script.

(** The script's entry point, in a module named after the script. *)
Module integrity_check.
(** Lines 22-55. *)
Definition main (sh : string -> option completed) (read_text : string -> result unit string)
    (fuel : nat) (cs : list entry) : option (outcome * list line) :=
  let? js_files := collect_js fuel cs in
  let '(success, l1) := check_all sh true js_files in
  let '(l2, finished) := fixme_scan read_text js_files in
  Some (if finished then
          if success then (Exit 0, Banner :: l1 ++ l2 ++ [AllPassed])
          else (Exit 1, Banner :: l1 ++ l2 ++ [CheckFailed])
        else (Crash, Banner :: l1 ++ l2)).
End integrity_check.
Export integrity_check.

(** ** What [collect_js] collects *)

(** The [.js] files below a directory, outside [node_modules], in the
    order of [os.walk]: the files of a directory, then its subdirectories
    in listing order. *)
Fixpoint js_tree (root : string) (e : entry) : list string :=
  match e with
  | EFile _ => []
  | EDir _ cs =>
      map (path_join root) (List.filter (fun f => py_endswith f ".js") (file_names cs)) ++
      flat_map (fun c => match c with
                         | EDir d _ => if String.eqb d "node_modules" then []
                                       else js_tree (path_join root d) c
                         | EFile _ => []
                         end) cs
  end.

Fixpoint depth (e : entry) : nat :=
  match e with
  | EFile _ => 0
  | EDir _ cs => S (fold_right (fun c m => Nat.max (depth c) m) 0 cs)
  end.

Fixpoint nodup_str (l : list string) : bool :=
  match l with
  | [] => true
  | x :: l' => negb (existsb (String.eqb x) l') && nodup_str l'
  end.

(** A directory holds no two entries of one name. *)
Fixpoint wf_entry (e : entry) : bool :=
  match e with
  | EFile _ => true
  | EDir _ cs => nodup_str (map entry_name cs) && forallb wf_entry cs
  end.

(** ** Lemmas *)

Lemma nodup_str_sublist l1 l2 :
  l1 `sublist_of` l2 -> nodup_str l2 = true -> nodup_str l1 = true.
Proof.
  induction 1 as [|x l1 l2 Hs IH|x l1 l2 Hs IH]; simpl; rewrite ?andb_true_iff, ?negb_true_iff; [done| |].
  - intros [Hx Hl]. split; [|auto]. destruct (existsb (String.eqb x) l1) eqn:E; [|done].
    by rewrite (existsb_sublist _ _ _ Hs E) in Hx.
  - intros [_ Hl]. auto.
Qed.

(** With distinct names, removing the first [s] removes every [s]. *)
Lemma remove_first_nodup s l :
  nodup_str l = true ->
  (if existsb (String.eqb s) l then remove_first (String.eqb s) l else l) =
  List.filter (fun y => negb (String.eqb s y)) l.
Proof.
  induction l as [|x l IH]; simpl; [done|]. rewrite andb_true_iff, negb_true_iff.
  intros [Hx Hl]. destruct (String.eqb s x) eqn:E; simpl.
  - apply String.eqb_eq in E as ->. symmetry. by apply filter_none.
  - rewrite <- IH by done. by destruct (existsb (String.eqb s) l).
Qed.

Definition keep_dir (e : entry) : bool :=
  is_dir e && negb (String.eqb "node_modules" (entry_name e)).

Lemma filter_map_comm {X Y} (f : X -> Y) (q : Y -> bool) l :
  List.filter q (map f l) = map f (List.filter (fun x => q (f x)) l).
Proof. induction l as [|x l IH]; simpl; [done|]. destruct (q (f x)); simpl; by rewrite IH. Qed.

Lemma filter_filter_and {X} (p q : X -> bool) l :
  List.filter q (List.filter p l) = List.filter (fun x => p x && q x) l.
Proof. induction l as [|x l IH]; simpl; [done|]. destruct (p x); simpl; destruct (q x); simpl; congruence. Qed.

(** The [dirs] list after line 30: the subdirectories but [node_modules]. *)
Lemma pruned_dirs cs :
  nodup_str (map entry_name cs) = true ->
  (if existsb (String.eqb "node_modules") (dir_names cs)
   then remove_first (String.eqb "node_modules") (dir_names cs) else dir_names cs) =
  map entry_name (List.filter keep_dir cs).
Proof.
  intros Hnd. rewrite remove_first_nodup; unfold dir_names.
  - by rewrite filter_map_comm, filter_filter_and.
  - eapply nodup_str_sublist; [|exact Hnd]. apply sublist_map, filter_sublist.
Qed.

Lemma find_dir_unique d sub cs :
  nodup_str (map entry_name cs) = true -> In (EDir d sub) cs -> find_dir d cs = Some sub.
Proof.
  unfold find_dir. induction cs as [|x cs IH]; simpl; [done|].
  rewrite andb_true_iff, negb_true_iff. intros [Hx Hnd] [->|Hin]; simpl.
  - by rewrite String.eqb_refl.
  - destruct (is_dir x && String.eqb (entry_name x) d) eqn:E; [|by apply IH].
    apply andb_prop in E as [_ E]. apply String.eqb_eq in E as <-. exfalso.
    assert (existsb (String.eqb (entry_name x)) (map entry_name cs) = true) as Hc; [|by rewrite Hc in Hx].
    apply existsb_exists. exists (entry_name x). split; [|apply String.eqb_refl].
    by apply (in_map entry_name) in Hin.
Qed.

Definition js_sub (root : string) (c : entry) : list string :=
  match c with EDir d _ => js_tree (path_join root d) c | EFile _ => [] end.

Lemma walk_dirs_spec rec root cs L a :
  nodup_str (map entry_name cs) = true ->
  (forall e, In e L -> In e cs /\ is_dir e = true) ->
  (forall d sub a, In (EDir d sub) L ->
     rec (path_join root d) sub a = Some (a ++ js_tree (path_join root d) (EDir d sub))) ->
  walk_dirs rec root cs (map entry_name L) a = Some (a ++ flat_map (js_sub root) L).
Proof.
  intros Hnd. revert a. induction L as [|e L IH]; intros a HL Hrec; simpl; [by rewrite app_nil_r|].
  destruct (HL e (or_introl eq_refl)) as [Hin Hd]. destruct e as [n|d sub]; [done|]. simpl.
  rewrite (find_dir_unique _ _ _ Hnd Hin), (Hrec d sub a (or_introl eq_refl)); simpl.
  rewrite IH.
  - by rewrite <- app_assoc.
  - intros e' He'. apply HL. by right.
  - intros d' sub' a' Hin'. apply Hrec. by right.
Qed.

Lemma js_subdirs root cs :
  flat_map (fun c => match c with
                     | EDir d _ => if String.eqb d "node_modules" then []
                                   else js_tree (path_join root d) c
                     | EFile _ => []
                     end) cs = flat_map (js_sub root) (List.filter keep_dir cs).
Proof.
  induction cs as [|[n|d sub] cs IH]; [done|by cbn [flat_map List.filter keep_dir is_dir andb]|].
  cbn [flat_map List.filter keep_dir is_dir entry_name andb negb].
  rewrite (String.eqb_sym "node_modules" d).
  destruct (String.eqb d "node_modules"); cbn [flat_map negb]; by rewrite IH.
Qed.

Lemma depth_child c cs : In c cs -> depth c <= fold_right (fun c m => Nat.max (depth c) m) 0 cs.
Proof. induction cs as [|x cs IH]; simpl; [done|]. intros [->|Hin]; [lia|]. specialize (IH Hin). lia. Qed.

Lemma wf_entry_dir n cs :
  wf_entry (EDir n cs) = true <-> nodup_str (map entry_name cs) = true /\ forallb wf_entry cs = true.
Proof. simpl. apply andb_true_iff. Qed.

(** [walk] with the script's loop body collects [js_tree] below [root],
    after [acc], when the fuel reaches the depth of the tree. *)
Lemma walk_collect e :
  forall fuel root acc, wf_entry e = true -> depth e <= fuel ->
  match e with
  | EDir _ cs => walk collect_visit fuel root cs acc = Some (acc ++ js_tree root e)
  | EFile _ => True
  end.
Proof.
  induction e as [n|n cs IH] using entry_ind'; [done|].
  intros fuel root acc Hwf Hdepth. destruct fuel as [|f]; [simpl in Hdepth; lia|].
  apply wf_entry_dir in Hwf as [Hnd Hall]. rewrite Forall_forall in IH.
  cbn [walk]. unfold collect_visit at 1. rewrite pruned_dirs by done.
  rewrite (walk_dirs_spec _ _ _ (List.filter keep_dir cs)); [|done| |].
  - cbn [js_tree]. by rewrite js_subdirs, !app_assoc.
  - intros c Hc. apply filter_In in Hc as [Hc Hk]. split; [done|]. by apply andb_prop in Hk as [-> _].
  - intros d sub a Hin. apply filter_In in Hin as [Hin _].
    pose proof (IH (EDir d sub) (proj2 (list_elem_of_In _ _) Hin) f (path_join root d) a) as Hc.
    apply Hc; [rewrite forallb_forall in Hall; by apply Hall|].
    pose proof (depth_child _ _ Hin). simpl in Hdepth. lia.
Qed.

(** C19: lines 28-33 collect exactly the [.js] files of the tree outside
    every [node_modules] directory, in [os.walk]'s top-down order, as
    paths [./dir/.../file.js]: removing ["node_modules"] from the [dirs]
    list the walk shares with the loop body stops the walk from entering
    it.  Fuel at least the depth of the tree suffices. *)
Theorem collect_js_spec cs fuel :
  wf_entry (EDir "." cs) = true -> depth (EDir "." cs) <= fuel ->
  collect_js fuel cs = Some (js_tree "." (EDir "." cs)).
Proof. intros Hwf Hd. exact (walk_collect (EDir "." cs) fuel "." [] Hwf Hd). Qed.

(** ** The exit status *)

Section Outcome.
Variable sh : string -> option completed.
Variable read_text : string -> result unit string.

(** [node --check js] exits with 0. *)
Definition check_ok (js : string) : bool :=
  match sh (node_check_command js) with
  | Some r => (returncode r =? 0)%Z
  | None => false
  end.

Definition readable (js : string) : bool :=
  match read_text js with Ok _ => true | Err _ => false end.

Lemma check_all_success success js_files :
  fst (check_all sh success js_files) = success && forallb check_ok js_files.
Proof.
  revert success. induction js_files as [|js rest IH]; intros success; simpl; [by rewrite andb_true_r|].
  unfold run_check, check_ok. destruct (sh (node_check_command js)) as [r|]; simpl.
  - destruct (returncode r =? 0)%Z; simpl.
    + specialize (IH success). by destruct (check_all sh success rest).
    + specialize (IH false). destruct (check_all sh false rest). simpl in *. by rewrite IH, andb_false_r.
  - specialize (IH false). destruct (check_all sh false rest). simpl in *. by rewrite IH, andb_false_r.
Qed.

Lemma fixme_scan_finished js_files :
  snd (fixme_scan read_text js_files) = forallb readable js_files.
Proof.
  induction js_files as [|js rest IH]; simpl; [done|].
  unfold readable. destruct (read_text js); [|done].
  destruct (fixme_scan read_text rest). by simpl in *.
Qed.

(** The contents [read_text] gives for a readable file. *)
Definition content_of (js : string) : string :=
  match read_text js with Ok c => c | Err _ => ""%string end.

Definition fixme_warnings (js_files : list string) : list line :=
  flat_map (fun js => if py_in "FIXME" (content_of js) then [FixmeWarning js] else []) js_files.

Lemma fixme_scan_eq js_files :
  fixme_scan read_text js_files =
    (fixme_warnings (prefix_while readable js_files), forallb readable js_files).
Proof.
  induction js_files as [|js rest IH]; simpl; [done|].
  unfold readable. destruct (read_text js) as [c|] eqn:E; [|done]. simpl.
  rewrite IH. unfold content_of. rewrite E. by destruct (py_in "FIXME" c).
Qed.

(** C20: the [FIXME] scan of lines 43-47 prints a warning for each file,
    in order, whose contents contain [FIXME], up to the first file that
    cannot be read, where the exception stops it; it runs to its end
    exactly when every file can be read. *)
Theorem fixme_scan_spec js_files :
  fixme_scan read_text js_files =
    (fixme_warnings (prefix_while readable js_files), forallb readable js_files).
Proof. apply fixme_scan_eq. Qed.

(** The lines of the syntax checks do not depend on [success]. *)
Lemma check_all_log success js_files :
  snd (check_all sh success js_files) =
    flat_map (fun js => snd (run_check sh ("Syntax: " ++ js) (node_check_command js))) js_files.
Proof.
  revert success. induction js_files as [|js rest IH]; intros success; simpl; [done|].
  destruct (run_check sh _ _) as [ok l1]. specialize (IH (if ok then success else false)).
  destruct (check_all sh _ rest). simpl in *. by rewrite IH.
Qed.

(** The lines one syntax check prints. *)
Definition check_lines (js : string) : list line :=
  snd (run_check sh ("Syntax: " ++ js) (node_check_command js)).

(** C5: the whole output of the checker: after the banner, the lines of
    the syntax check of each collected file in order, then the [FIXME]
    warnings up to the first file that cannot be read, then, when every
    file could be read, the result line; the exit status is [Exit 0]
    when every check passed, [Exit 1] when one failed, and [Crash] when a
    file could not be read. *)
Theorem main_spec fuel cs js_files :
  collect_js fuel cs = Some js_files ->
  main sh read_text fuel cs =
    Some (if forallb readable js_files then if forallb check_ok js_files then Exit 0 else Exit 1 else Crash,
          Banner :: flat_map check_lines js_files ++ fixme_warnings (prefix_while readable js_files) ++
          (if forallb readable js_files then [if forallb check_ok js_files then AllPassed else CheckFailed]
           else [])).
Proof.
  intros Hc. unfold main. rewrite Hc.
  pose proof (check_all_success true js_files) as Hs. pose proof (check_all_log true js_files) as Hl.
  rewrite fixme_scan_eq. destruct (check_all sh true js_files) as [success l1].
  simpl in Hs, Hl. subst success l1.
  by destruct (forallb readable js_files), (forallb check_ok js_files); rewrite ?app_nil_r.
Qed.
End Outcome.

(** ** A sample tree and the witnesses *)

Definition sample_tree : list entry := [
  EFile "server.js"; EFile "README.md";
  EDir "node_modules" [EFile "lib.js"; EDir "pkg" [EFile "index.js"]];
  EDir "public" [EFile "app_v135.js"; EFile "style.css"; EDir "vendor" [EFile "x.js"]]
].

Lemma collect_js_spec_witness :
  collect_js 3 sample_tree = Some ["./server.js"; "./public/app_v135.js"; "./public/vendor/x.js"].
Proof. rewrite collect_js_spec; [reflexivity|vm_compute; reflexivity|vm_compute; lia]. Defined.

(** [node] rejects the vendored file; every file reads, one has a
    [FIXME]. *)
Definition sample_sh (cmd : string) : option completed :=
  Some {| returncode := if py_in "vendor" cmd then 1%Z else 0%Z; stdout := ""; stderr := "SyntaxError" |}.
Definition sample_read (path : string) : result unit string :=
  Ok (if py_in "server" path then "// FIXME: port" else "")%string.

Definition sample_js : list string := ["./server.js"; "./public/app_v135.js"; "./public/vendor/x.js"].

Lemma main_spec_witness :
  main sample_sh sample_read 3 sample_tree =
    Some (if forallb (readable sample_read) sample_js
          then if forallb (check_ok sample_sh) sample_js then Exit 0 else Exit 1 else Crash,
          Banner :: flat_map (check_lines sample_sh) sample_js ++
          fixme_warnings sample_read (prefix_while (readable sample_read) sample_js) ++
          (if forallb (readable sample_read) sample_js
           then [if forallb (check_ok sample_sh) sample_js then AllPassed else CheckFailed] else [])).
Proof. apply main_spec. rewrite collect_js_spec; [reflexivity|vm_compute; reflexivity|vm_compute; lia]. Defined.
