(* ===== verification/DebugCdp.v ===== *)
(** * [src/archive/debug_cdp.py]

    The probe fetches [http://127.0.0.1:{port}/json/list], prints it, and
    reports whether a target's [url] contains ["workbench.html"], else the
    title of the first target of [type] ["page"], else that there is none;
    any exception is printed as an error for the port.  The HTTP fetch and
    [json.loads] are the environment: [check] receives their outcome.
    The decoded JSON is a [json] value, and the Python operations the
    analysis applies to it ([dict.get], the [in] operator, iteration,
    [next(generator, None)]) are modelled with the exceptions they raise
    on values of other types. *)

From S2P Require Import Prelude PyStr.
From Stdlib Require Import String Ascii ZArith.

Open Scope list_scope.

(** ** JSON values as [json.loads] returns them *)

Inductive json :=
| JNull
| JBool (b : bool)
| JNum (n : Z)
| JStr (s : string)
| JArr (items : list json)
| JObj (fields : list (string * json)).

(** The exceptions the probe can meet. *)
Inductive pyexc := TypeError | AttributeError | URLError | JSONDecodeError.

(** A JSON object becomes a [dict]: of two fields with one name, the last
    wins. *)
Definition dict_lookup (k : string) (fs : list (string * json)) : option json :=
  fold_left (fun acc kv => if String.eqb kv.1 k then Some kv.2 else acc) fs None.

(** [t.get(k, default)]: only a [dict] has [get]. *)
Definition py_get (t : json) (k : string) (default : json) : result pyexc json :=
  match t with
  | JObj fs => Ok (match dict_lookup k fs with Some v => v | None => default end)
  | _ => Err AttributeError
  end.

(** [needle in x] for a [str] needle. *)
Definition py_contains (needle : string) (x : json) : result pyexc bool :=
  match x with
  | JStr s => Ok (py_in needle s)
  | JArr l => Ok (existsb (fun v => match v with JStr s => String.eqb s needle | _ => false end) l)
  | JObj fs => Ok (existsb (fun kv => String.eqb kv.1 needle) fs)
  | _ => Err TypeError
  end.

(** [x == "page"]. *)
Definition json_is_str (s : string) (x : json) : bool :=
  match x with JStr s' => String.eqb s' s | _ => false end.

Fixpoint chars (s : string) : list json :=
  match s with
  | EmptyString => []
  | String c s' => JStr (String c EmptyString) :: chars s'
  end.

(** [for t in data]: a list gives its items, a dict its keys, a string
    its characters; anything else raises. *)
Definition py_iter (data : json) : result pyexc (list json) :=
  match data with
  | JArr l => Ok l
  | JObj fs => Ok (map (fun kv => JStr kv.1) fs)
  | JStr s => Ok (chars s)
  | _ => Err TypeError
  end.

(** [next((t for t in items if p(t)), None)]: stops at the first match,
    so an exception after it is never raised. *)
Fixpoint py_next (p : json -> result pyexc bool) (items : list json) : result pyexc (option json) :=
  match items with
  | [] => Ok None
  | t :: rest => let! b := p t in if b then Ok (Some t) else py_next p rest
  end.

(** ** The script *)

(** Line 13's test. *)
Definition is_workbench (t : json) : result pyexc bool :=
  let! url := py_get t "url" (JStr "") in py_contains "workbench.html" url.

(** Line 14's test. *)
Definition is_page (t : json) : result pyexc bool :=
  let! ty := py_get t "type" JNull in Ok (json_is_str "page" ty).

(** Which branch of lines 16-21 prints. *)
Inductive report := FoundWorkbench | FoundPage (title : json) | NoPage.

(** Lines 13-21: both searches run before the report. *)
Definition analyse (data : json) : result pyexc report :=
  let! items := py_iter data in
  let! workbench := py_next is_workbench items in
  let! page := py_next is_page items in
  match workbench, page with
  | Some _, _ => Ok FoundWorkbench
  | None, Some p => let! title := py_get p "title" JNull in Ok (FoundPage title)
  | None, None => Ok NoPage
  end.

(** What [urlopen] and [json.loads] gave. *)
Inductive fetched := FetchFailed (e : pyexc) | Fetched (data : json).

(** The printed lines. *)
Inductive cdp_line :=
| PortHeader (port : Z)                  (* line 9 *)
| Dump (data : json)                     (* line 10 *)
| WorkbenchLine (port : Z)               (* line 17 *)
| PageLine (port : Z) (title : json)     (* line 19 *)
| NoPageLine (port : Z)                  (* line 21 *)
| ErrorLine (port : Z) (e : pyexc).      (* line 24 *)

(** Lines 4-24. *)
Definition check (port : Z) (r : fetched) : list cdp_line :=
  match r with
  | FetchFailed e => [ErrorLine port e]
  | Fetched data =>
      [PortHeader port; Dump data] ++
      match analyse data with
      | Ok FoundWorkbench => [WorkbenchLine port]
      | Ok (FoundPage title) => [PageLine port title]
      | Ok NoPage => [NoPageLine port]
      | Err e => [ErrorLine port e]
      end
  end.

(** Lines 26-27. *)
Definition run (r9000 r9001 : fetched) : list cdp_line := check 9000 r9000 ++ check 9001 r9001.

(** ** What the probe reports *)

(** The [url] of a target as a string ([""] when absent). *)
Definition url_of (t : json) : string :=
  match t with
  | JObj fs => match dict_lookup "url" fs with Some (JStr s) => s | _ => "" end
  | _ => ""
  end.

(** A target as Chrome sends it: an object whose [url], if any, is a
    string. *)
Definition plain_target (t : json) : bool :=
  match t with
  | JObj fs => match dict_lookup "url" fs with None | Some (JStr _) => true | _ => false end
  | _ => false
  end.

Definition page_target (t : json) : bool :=
  match t with
  | JObj fs => match dict_lookup "type" fs with Some v => json_is_str "page" v | None => false end
  | _ => false
  end.

Definition title_of (t : json) : json :=
  match t with
  | JObj fs => match dict_lookup "title" fs with Some v => v | None => JNull end
  | _ => JNull
  end.

(** The report the probe promises for a list of targets. *)
Definition classify (targets : list json) : report :=
  if existsb (fun t => py_in "workbench.html" (url_of t)) targets then FoundWorkbench
  else match find page_target targets with
       | Some t => FoundPage (title_of t)
       | None => NoPage
       end.

(** ** Lemmas *)

Lemma py_next_find (p : json -> result pyexc bool) (q : json -> bool) l :
  Forall (fun t => p t = Ok (q t)) l -> py_next p l = Ok (find q l).
Proof. induction 1 as [|t l Ht _ IH]; simpl; [done|]. rewrite Ht. by destruct (q t). Qed.

Lemma py_next_app_found p l1 l2 t :
  py_next p l1 = Ok (Some t) -> py_next p (l1 ++ l2) = Ok (Some t).
Proof.
  induction l1 as [|x l1 IH]; simpl; [done|].
  destruct (p x) as [[]|e]; [done|apply IH|done].
Qed.

Lemma py_next_app_none p l1 l2 :
  py_next p l1 = Ok None -> py_next p (l1 ++ l2) = py_next p l2.
Proof.
  induction l1 as [|x l1 IH]; simpl; [done|].
  destruct (p x) as [[]|e]; [done|apply IH|done].
Qed.

Lemma is_workbench_plain t :
  plain_target t = true -> is_workbench t = Ok (py_in "workbench.html" (url_of t)).
Proof.
  destruct t as [| | | | |fs]; try done. unfold is_workbench, plain_target, url_of; simpl.
  destruct (dict_lookup "url" fs) as [[| | | | |]|]; done.
Qed.

Lemma is_page_obj t : plain_target t = true -> is_page t = Ok (page_target t).
Proof.
  destruct t as [| | | | |fs]; try done. unfold is_page, page_target; simpl.
  by destruct (dict_lookup "type" fs).
Qed.

Lemma find_existsb {A} (q : A -> bool) l : existsb q l = match find q l with Some _ => true | None => false end.
Proof. induction l as [|x l IH]; simpl; [done|]. by destruct (q x). Qed.

(** ** Theorems *)

(** C21: on a list of well-formed targets the probe reports a workbench
    when some target's [url] contains ["workbench.html"], else the title
    of the first target of type ["page"] ([None] when it has none), else
    that there is no page target. *)
Theorem analyse_spec targets :
  forallb plain_target targets = true -> analyse (JArr targets) = Ok (classify targets).
Proof.
  intros Hp. rewrite forallb_forall in Hp. unfold analyse, classify. simpl.
  rewrite (py_next_find _ (fun t => py_in "workbench.html" (url_of t)));
    [|apply List.Forall_forall; intros t Ht; apply is_workbench_plain; by apply Hp].
  rewrite (py_next_find _ page_target), find_existsb;
    [|apply List.Forall_forall; intros t Ht; apply is_page_obj; by apply Hp].
  destruct (find (fun t => py_in _ (url_of t)) targets); [done|]. simpl.
  destruct (find page_target targets) as [t|] eqn:E; [|done].
  apply find_some in E as [Ht _]. specialize (Hp t Ht).
  destruct t as [| | | | |fs]; done.
Qed.

(** C22: the page search runs even after the workbench was found: when
    the targets before the first malformed (non-object) entry include a
    workbench but no page, the probe prints an error for the port
    instead of reporting the workbench. *)
Theorem analyse_error_hides_workbench l1 bad l2 :
  forallb plain_target l1 = true ->
  existsb (fun t => py_in "workbench.html" (url_of t)) l1 = true ->
  existsb page_target l1 = false ->
  (forall fs, bad <> JObj fs) ->
  analyse (JArr (l1 ++ bad :: l2)) = Err AttributeError.
Proof.
  intros Hp Hw Hnp Hbad. rewrite forallb_forall in Hp. unfold analyse. simpl.
  rewrite find_existsb in Hw, Hnp.
  destruct (find (fun t => py_in "workbench.html" (url_of t)) l1) as [w|] eqn:Ew; [|done].
  rewrite (py_next_app_found _ _ _ w).
  2: { rewrite (py_next_find _ (fun t => py_in "workbench.html" (url_of t))), Ew; [done|].
       apply List.Forall_forall. intros t Ht. apply is_workbench_plain. by apply Hp. }
  rewrite py_next_app_none.
  2: { rewrite (py_next_find _ page_target); [by destruct (find page_target l1)|].
       apply List.Forall_forall. intros t Ht. apply is_page_obj. by apply Hp. }
  simpl. destruct bad as [| | | | |fs]; try done. by destruct (Hbad fs).
Qed.

(** ** Sample target lists and the witnesses *)

Definition t_worker : json :=
  JObj [("type", JStr "service_worker"); ("url", JStr "http://127.0.0.1/sw.js")].
Definition t_page : json :=
  JObj [("type", JStr "page"); ("title", JStr "Antigravity"); ("url", JStr "http://127.0.0.1/index.html")].
Definition t_workbench : json :=
  JObj [("type", JStr "other");
        ("url", JStr "vscode-file://vscode-app/out/vs/code/electron-sandbox/workbench/workbench.html")].

Lemma analyse_spec_witness :
  analyse (JArr [t_worker; t_page]) = Ok (FoundPage (JStr "Antigravity")).
Proof. rewrite analyse_spec; reflexivity. Defined.

Lemma analyse_error_hides_workbench_witness :
  analyse (JArr ([t_workbench] ++ JStr "oops" :: [t_page])) = Err AttributeError.
Proof. apply analyse_error_hides_workbench; [reflexivity|reflexivity|reflexivity|done]. Defined.
